(** * excel_process: the agent loop of [excel_process.py] (console variant)
      and [app.py] (Streamlit variant)

    Both files drive the same loop: build a conversation, call the chat
    model, dispatch the tool calls it asks for, append their results and
    repeat until the model answers without tool calls.  The sandbox, the
    chat model, pandas, the JSON parser, the terminal and Streamlit are
    collaborators; they are taken as an interface ([Services]) whose
    operations may return or raise, and every function of the two
    source files is written as a state-passing program over that
    interface. *)

From Stdlib Require Import String Ascii List NArith ZArith Bool Lia.
From Stdlib Require Import DecimalString.
Import ListNotations.

Set Implicit Arguments.
Local Open Scope list_scope.

(* ================================================================= *)
(** ** Python strings *)

(** A Python [str] is a sequence of Unicode code points. *)
Definition codepoint := N.
Definition str := list codepoint.

(** Source literals are written as UTF-8 text and decoded to code
    points: [pending] continuation bytes are still expected and [acc]
    holds the bits read so far. *)
Fixpoint utf8_go (pending : nat) (acc : N) (bs : list N) : str :=
  match bs with
  | [] => []
  | b :: r =>
    match pending with
    | O =>
      if (b <? 128)%N then b :: utf8_go 0 0%N r
      else if (b <? 224)%N then utf8_go 1 (b - 192)%N r
      else if (b <? 240)%N then utf8_go 2 (b - 224)%N r
      else utf8_go 3 (b - 240)%N r
    | S O => (acc * 64 + (b - 128))%N :: utf8_go 0 0%N r
    | S p => utf8_go p (acc * 64 + (b - 128))%N r
    end
  end.

Definition u8 (s : string) : str :=
  utf8_go 0 0%N (map N_of_ascii (list_ascii_of_string s)).

Definition str_eqb (a b : str) : bool :=
  if list_eq_dec N.eq_dec a b then true else false.

(** ["\n"] *)
Definition nl : str := [10%N].

(** [Py_UNICODE_ISSPACE]: the code points [str.strip()] removes. *)
Definition isspace (c : codepoint) : bool :=
  ((9 <=? c) && (c <=? 13) || (28 <=? c) && (c <=? 32)
   || (c =? 133) || (c =? 160) || (c =? 5760)
   || (8192 <=? c) && (c <=? 8202)
   || (c =? 8232) || (c =? 8233) || (c =? 8239) || (c =? 8287)
   || (c =? 12288))%N.

Fixpoint lstrip (s : str) : str :=
  match s with
  | [] => []
  | c :: r => if isspace c then lstrip r else s
  end.

Definition rstrip (s : str) : str := rev (lstrip (rev s)).

(** [s.strip()] *)
Definition strip (s : str) : str := rstrip (lstrip s).

(** Truth value of a [str]: non-empty. *)
Definition str_truthy (s : str) : bool :=
  match s with [] => false | _ => true end.

(** [str(n)] for a non-negative integer. *)
Definition str_of_nat (n : nat) : str :=
  u8 (NilEmpty.string_of_uint (Nat.to_uint n)).

Definition str_of_Z (z : Z) : str :=
  u8 (NilEmpty.string_of_int (Z.to_int z)).

Definition startswith_sep (s : str) : bool :=
  match s with c :: _ => (c =? 47)%N | [] => false end.

Definition endswith_sep (s : str) : bool := startswith_sep (rev s).

(** [posixpath.basename]: what follows the last ["/"]. *)
Definition basename (p : str) : str :=
  fold_left (fun acc c => if (c =? 47)%N then [] else acc ++ [c]) p [].

(** [posixpath.join(a, b)] *)
Definition path_join (a b : str) : str :=
  if startswith_sep b then b
  else if negb (str_truthy a) || endswith_sep a then a ++ b
  else a ++ [47%N] ++ b.

(** [s in t] for strings: [s] occurs as a contiguous run of [t]. *)
(** [s.lower()], as far as ASCII goes: [A]-[Z], and the two code
    points outside ASCII whose lower-case form holds an ASCII letter
    (U+0130, U+212A).  Every other code point lowers to code points
    outside ASCII, which are left as they are; they match no suffix
    of [is_image] either way. *)
Definition lower (s : str) : str :=
  flat_map
    (fun c =>
       if (65 <=? c)%N && (c <=? 90)%N then [(c + 32)%N]
       else if (c =? 304)%N then [105%N; 775%N]
       else if (c =? 8490)%N then [107%N]
       else [c]) s.

Fixpoint startswith (s prefix : str) : bool :=
  match prefix, s with
  | [], _ => true
  | p :: prefix', c :: s' => (c =? p)%N && startswith s' prefix'
  | _ :: _, [] => false
  end.

Definition endswith (s suffix : str) : bool :=
  startswith (rev s) (rev suffix).

Definition contains (t s : str) : Prop := exists pre post, t = pre ++ s ++ post.

(* ================================================================= *)
(** ** Python values and exceptions *)

(** The values [json.loads] produces and that the loop passes on
    untouched.  A float is kept as its printed form. *)
#[warnings="-register-all"]
Inductive pyval :=
| PyNone
| PyBool (b : bool)
| PyInt (z : Z)
| PyFloat (printed : str)
| PyStr (s : str)
| PyList (l : list pyval)
| PyDict (items : list (str * pyval)).

Definition type_name (v : pyval) : string :=
  match v with
  | PyNone => "NoneType"
  | PyBool _ => "bool"
  | PyInt _ => "int"
  | PyFloat _ => "float"
  | PyStr _ => "str"
  | PyList _ => "list"
  | PyDict _ => "dict"
  end.

(** An exception object: its class and [str(e)].  The exceptions of the
    model are instances of [Exception], the ones [except Exception]
    catches. *)
Record exn := mkExn { exn_class : string; exn_text : str }.

Inductive outcome (A : Type) :=
| Ret (a : A)
| Raise (e : exn).
Arguments Ret {A} a.
Arguments Raise {A} e.

(** Exceptions the interpreter itself raises in the two files
    (CPython 3.11 wording). *)
Definition UnboundLocalError (var : string) : exn :=
  mkExn "UnboundLocalError"
    (u8 "cannot access local variable '" ++ u8 var
       ++ u8 "' where it is not associated with a value").

Definition AttributeError (v : pyval) (attr : string) : exn :=
  mkExn "AttributeError"
    (u8 "'" ++ u8 (type_name v) ++ u8 "' object has no attribute '"
       ++ u8 attr ++ u8 "'").

Definition JoinTypeError (i : nat) (v : pyval) : exn :=
  mkExn "TypeError"
    (u8 "sequence item " ++ str_of_nat i ++ u8 ": expected str instance, "
       ++ u8 (type_name v) ++ u8 " found").

Definition IaddTypeError : exn :=
  mkExn "TypeError"
    (u8 "unsupported operand type(s) for +=: 'NoneType' and 'str'").

(** [sep.join(items)]: every item has to be a [str]. *)
Fixpoint join_from (i : nat) (sep : str) (items : list pyval) : outcome str :=
  match items with
  | [] => Ret []
  | PyStr s :: rest =>
    match rest with
    | [] => Ret s
    | _ =>
      match join_from (S i) sep rest with
      | Ret t => Ret (s ++ sep ++ t)
      | Raise e => Raise e
      end
    end
  | v :: _ => Raise (JoinTypeError i v)
  end.

Definition str_join (sep : str) (items : list pyval) : outcome str :=
  join_from 0 sep items.

(** [d.get(key)] on whatever [json.loads] returned. *)
Fixpoint dict_lookup (key : str) (items : list (str * pyval)) : pyval :=
  match items with
  | [] => PyNone
  | (k, v) :: rest => if str_eqb k key then v else dict_lookup key rest
  end.

Definition py_get (d : pyval) (key : string) : outcome pyval :=
  match d with
  | PyDict items => Ret (dict_lookup (u8 key) items)
  | _ => Raise (AttributeError d "get")
  end.

(* ================================================================= *)
(** ** Conversation *)

(** [tool_call.id], [tool_call.function.name],
    [tool_call.function.arguments] *)
Record ToolCall := mkToolCall {
  tc_id : str;
  tc_name : str;
  tc_arguments : str
}.

(** The message object of a chat completion: [content] and [tool_calls]
    are both optional. *)
Record ChatCompletionMessage := mkResponse {
  content : option str;
  tool_calls : option (list ToolCall)
}.

(** An entry of [messages]: a [{"role", "content"}] dict, a response
    object appended as it came, or a tool-result dict. *)
Inductive Message :=
| RoleContent (role : string) (text : str)
| Response (m : ChatCompletionMessage)
| ToolMessage (tool_call_id : str) (name : str) (result : str).

Definition role_of (m : Message) : string :=
  match m with
  | RoleContent r _ => r
  | Response _ => "assistant"
  | ToolMessage _ _ _ => "tool"
  end.

(** [{"role": "tool", "tool_call_id": tool_call.id,
      "name": function_name, "content": result}] *)
Definition tool_message (tc : ToolCall) (result : str) : Message :=
  ToolMessage (tc_id tc) (tc_name tc) result.

(** [hasattr(m, 'tool_calls') and m.tool_calls] *)
Definition has_tool_calls (m : ChatCompletionMessage) : bool :=
  match tool_calls m with
  | Some (_ :: _) => true
  | _ => false
  end.

Definition calls_of (m : ChatCompletionMessage) : list ToolCall :=
  match tool_calls m with
  | Some l => l
  | None => []
  end.

(** [messages[0]["content"] += extra] *)
Definition append_to_first (extra : str) (messages : list Message)
  : list Message :=
  match messages with
  | RoleContent r c :: rest => RoleContent r (c ++ extra) :: rest
  | other => other
  end.

Definition message_text (m : Message) : option str :=
  match m with
  | RoleContent _ c => Some c
  | Response r => content r
  | ToolMessage _ _ c => Some c
  end.

(* ================================================================= *)
(** ** Collaborators *)

(** Keyword arguments of [SandboxSession(...)]; [None] is "not given". *)
Record SessionArgs := mkSessionArgs {
  lang : pyval;
  verbose : option bool;
  keep_template : option bool
}.

(** What the preview code reads off a pandas [DataFrame]. *)
Record DataFrame := mkDataFrame {
  df_len : nat;                      (* len(df) *)
  df_shape1 : nat;                   (* df.shape[1] *)
  df_head_to_string : nat -> str;    (* df.head(n).to_string() *)
  df_columns : list pyval;           (* df.columns.tolist() *)
  df_dtypes_to_string : str          (* df.dtypes.to_string() *)
}.

(** The collaborators, over the state [S] of the machine (sandbox
    containers, local files, the terminal).  Each sandbox operation
    returns or raises and may change the machine.  [chat_model k conv]
    is the answer of the model service to its [k]-th request (counted
    from 0) when sent [conv].  [input] raises [EOFError] when stdin has
    ended and [print] raises when stdout cannot be written.  Of the
    Streamlit calls, [st.code] and [st.image] are handed values that
    come from the model: [st.code] raises on a [language] it does not
    accept, [st.image] on a file it cannot open. *)
Class Services (S : Type) := {
  session_enter : SessionArgs -> S -> outcome unit * S;
  session_run : pyval -> pyval -> S -> outcome str * S;
  copy_to_runtime : pyval -> pyval -> S -> outcome unit * S;
  copy_from_runtime : pyval -> pyval -> S -> outcome unit * S;
  session_exit : S -> outcome unit * S;
  chat_model : nat -> list Message -> outcome ChatCompletionMessage;
  json_loads : str -> outcome pyval;
  py_repr : pyval -> str;
  read_excel : str -> S -> outcome DataFrame;
  path_exists : str -> S -> bool;
  getcwd : S -> str;
  py_input : str -> S -> outcome str * S;    (* input(prompt) *)
  py_print : str -> S -> outcome unit * S;   (* print(text) *)
  st_code : pyval -> pyval -> outcome unit;  (* st.code(body, language=lang) *)
  st_image : str -> S -> outcome unit        (* st.image(file) *)
}.

(** [tempfile.NamedTemporaryFile(delete=False, suffix='.xlsx')] with the
    uploaded bytes written to it: the name of the file created. *)
Class Uploads (S : Type) := {
  named_temporary_file : list Byte.byte -> S -> outcome str * S
}.

(** Entries of [all_outputs]. *)
Inductive OutputEvent :=
| OutAi (text : str)
| OutCode (lang code : pyval)
| OutResult (text : str)
| OutInfo (text : str)
| OutFiles (files : list pyval).

(** [st.info] and [st.warning] banners. *)
Inductive Notice :=
| Info (text : str)
| Warning (text : str).

(** What the functions of the [logger] module are handed. *)
Inductive LogEntry :=
| LogRequest (conv : list Message)
| LogResponse (m : ChatCompletionMessage)
| LogToolResult (name : str) (result : str).

(** Everything outside the local variables of [run_agent]. *)
Record World (S : Type) := mkWorld {
  machine : S;
  requests : list (list Message);   (* conversations sent to the model *)
  notices : list Notice;
  rendered : list OutputEvent;      (* what update_results() drew last *)
  logged : list LogEntry
}.

(** A program: from the world before to how it ended and the world
    after.  Effects made before an exception stay made. *)
Definition Prog (S A : Type) := World S -> outcome A * World S.

Section Programs.
Context {S : Type} {srv : Services S}.
Local Abbreviation M := (Prog S).

Definition ret {A} (a : A) : M A := fun w => (Ret a, w).

Definition raise {A} (e : exn) : M A := fun w => (Raise e, w).

Definition bind {A B} (c : M A) (k : A -> M B) : M B :=
  fun w =>
    match c w with
    | (Ret a, w1) => k a w1
    | (Raise e, w1) => (Raise e, w1)
    end.

(** [try: body / except Exception as e: handler e] *)
Definition try_except {A} (body : M A) (handler : exn -> M A) : M A :=
  fun w =>
    match body w with
    | (Ret a, w1) => (Ret a, w1)
    | (Raise e, w1) => handler e w1
    end.

Definition of_outcome {A} (r : outcome A) : M A := fun w => (r, w).

Definition on_machine {A} (op : S -> outcome A * S) : M A :=
  fun w =>
    let (r, s1) := op (machine w) in
    (r, mkWorld s1 (requests w) (notices w) (rendered w) (logged w)).

Definition read_machine {A} (f : S -> A) : M A :=
  fun w => (Ret (f (machine w)), w).

(** A read of the machine that may raise. *)
Definition consult {A} (f : S -> outcome A) : M A :=
  fun w => (f (machine w), w).

End Programs.

Declare Scope prog_scope.
Delimit Scope prog_scope with prog.
Notation "x <- c ;; k" := (bind c (fun x => k))
  (at level 100, c at next level, right associativity) : prog_scope.
Notation "c ;;; k" := (bind c (fun _ => k))
  (at level 100, right associativity) : prog_scope.

Local Open Scope prog_scope.

(* ================================================================= *)
(** ** The three tools *)

(** Returned by [run_code] when the sandbox printed nothing. *)
Definition ADVISORY : str :=
  u8 "执行成功，但没有输出结果。请尝试添加print语句来显示结果。".

Definition join_strs (sep : str) (items : list str) : str :=
  match items with
  | [] => []
  | s :: rest => s ++ flat_map (fun t => sep ++ t) rest
  end.

(** [x += text] where [x] may be [None]. *)
Definition iadd (x : option str) (text : str) : outcome (option str) :=
  match x with
  | Some s => Ret (Some (s ++ text))
  | None => Raise IaddTypeError
  end.

Inductive LoopStep (L R : Type) :=
| Continue (l : L)
| Break (r : R).
Arguments Continue {L R} l.
Arguments Break {L R} r.

(** A finished run of the loop: the dispatch rounds it completed, how
    it ended and the world it left. *)
Record Run (S R : Type) := mkRun {
  rounds : nat;
  ended : outcome R;
  final : World S
}.

Section Tools.
Context {S : Type} {srv : Services S}.
Local Abbreviation M := (Prog S).

(** [str(v)] as an f-string prints it. *)
Definition py_str (v : pyval) : str :=
  match v with
  | PyStr s => s
  | PyNone => u8 "None"
  | PyBool true => u8 "True"
  | PyBool false => u8 "False"
  | PyInt z => str_of_Z z
  | PyFloat printed => printed
  | _ => py_repr v
  end.

(** [with SandboxSession(...) as session: body].  [__exit__] runs
    whether the body returned or raised; it returns [None], so what the
    body raised goes on unless teardown raises itself. *)
Definition with_session {A} (args : SessionArgs) (body : M A) : M A :=
  fun w =>
    match on_machine (session_enter args) w with
    | (Raise e, w1) => (Raise e, w1)
    | (Ret _, w1) =>
      let (r, w2) := body w1 in
      match on_machine session_exit w2 with
      | (Raise e, w3) => (Raise e, w3)
      | (Ret _, w3) => (r, w3)
      end
    end.

(** The result test of [run_code], shared by both files. *)
Definition or_advisory (result : str) : str :=
  if negb (str_truthy result) || str_eqb (strip result) [] then ADVISORY
  else result.

(** [copy_file_to_sandbox] and [copy_file_from_sandbox] are the same in
    both files (excel_process.py, lines 32-58; app.py, lines 44-64). *)
Definition copy_file_to_sandbox (local_path sandbox_path : pyval) : M str :=
  try_except
    (with_session (mkSessionArgs (PyStr (u8 "python")) None (Some true))
       (on_machine (copy_to_runtime local_path sandbox_path)) ;;;
     ret (u8 "文件已成功复制到沙盒: " ++ py_str local_path ++ u8 " -> "
            ++ py_str sandbox_path))
    (fun e => ret (u8 "复制文件失败: " ++ exn_text e)).

Definition copy_file_from_sandbox (sandbox_path local_path : pyval) : M str :=
  try_except
    (with_session (mkSessionArgs (PyStr (u8 "python")) None (Some true))
       (on_machine (copy_from_runtime sandbox_path local_path)) ;;;
     ret (u8 "文件已成功从沙盒复制: " ++ py_str sandbox_path ++ u8 " -> "
            ++ py_str local_path))
    (fun e => ret (u8 "复制文件失败: " ++ exn_text e)).

(** [client.chat.completions.create(...).choices[0].message] *)
Definition chat_completions_create (messages : list Message)
  : M ChatCompletionMessage :=
  fun w =>
    (chat_model (length (requests w)) messages,
     mkWorld (machine w) (requests w ++ [messages]) (notices w)
       (rendered w) (logged w)).

(** [for x in items: body], the local variables threaded through. *)
Fixpoint for_each {A L} (body : A -> L -> M L) (items : list A) (l : L)
  : M L :=
  match items with
  | [] => ret l
  | x :: rest => l1 <- body x l ;; for_each body rest l1
  end.

(** [while True: body].  [None] when [fuel] iterations did not reach a
    [return], [break] or exception. *)
Fixpoint while_true {L R} (fuel : nat) (body : L -> M (LoopStep L R))
  (l : L) (w : World S) : option (Run S R) :=
  match fuel with
  | O => None
  | Datatypes.S fuel' =>
    match body l w with
    | (Raise e, w1) => Some (mkRun 0 (Raise e) w1)
    | (Ret (Break r), w1) => Some (mkRun 0 (Ret r) w1)
    | (Ret (Continue l1), w1) =>
      match while_true fuel' body l1 w1 with
      | Some run => Some (mkRun (Datatypes.S (rounds run)) (ended run) (final run))
      | None => None
      end
    end
  end.

(** The text both files add to [messages[0]] for a staged file. *)
Definition staged_note (sandbox_excel_path : str) : str :=
  nl ++ nl ++ u8 "Excel文件已上传到沙盒环境，路径为: " ++ sandbox_excel_path.

End Tools.

(* ================================================================= *)
(** ** excel_process.py *)

Module Cli.
Section Cli.
Context {S : Type} {srv : Services S}.
Local Abbreviation M := (Prog S).

(** The local variables of [run_agent] the loop reads and writes.
    [result] is [None] until a tool branch has assigned it. *)
Record Locals := mkLocals {
  messages : list Message;
  result : option str;
  generated_files : list str
}.

(** [run_code], lines 17-30. *)
Definition run_code (lang code libraries : pyval) : M str :=
  with_session (mkSessionArgs lang (Some false) None)
    (result <- on_machine (session_run code libraries) ;;
     ret (or_advisory result)).

(** One pass of [for tool_call in response_message.tool_calls],
    lines 195-223. *)
Definition dispatch (tool_call : ToolCall) (l : Locals) : M Locals :=
  let function_name := tc_name tool_call in
  function_args <- of_outcome (json_loads (tc_arguments tool_call)) ;;
  bound <-
    (if str_eqb function_name (u8 "run_code") then
       lang <- of_outcome (py_get function_args "lang") ;;
       code <- of_outcome (py_get function_args "code") ;;
       libraries <- of_outcome (py_get function_args "libraries") ;;
       r <- run_code lang code libraries ;;
       ret (Some r)
     else if str_eqb function_name (u8 "copy_file_to_sandbox") then
       local_path <- of_outcome (py_get function_args "local_path") ;;
       sandbox_path <- of_outcome (py_get function_args "sandbox_path") ;;
       r <- copy_file_to_sandbox local_path sandbox_path ;;
       ret (Some r)
     else if str_eqb function_name (u8 "copy_file_from_sandbox") then
       sandbox_path <- of_outcome (py_get function_args "sandbox_path") ;;
       local_path <- of_outcome (py_get function_args "local_path") ;;
       r <- copy_file_from_sandbox sandbox_path local_path ;;
       ret (Some r)
     else ret (result l)) ;;
  match bound with
  | None => raise (UnboundLocalError "result")
  | Some r =>
    ret (mkLocals (messages l ++ [tool_message tool_call r]) (Some r)
           (generated_files l))
  end.

(** One pass of [for sandbox_file in generated_files], lines 242-254. *)
Definition fetch_generated (sandbox_file : str) (local_files : list str)
  : M (list str) :=
  cwd <- read_machine getcwd ;;
  let file_name := basename sandbox_file in
  let local_file := path_join cwd (u8 "output_" ++ file_name) in
  try_except
    (copy_file_from_sandbox (PyStr sandbox_file) (PyStr local_file) ;;;
     ret (local_files ++ [local_file]))
    (fun _ => ret local_files).

(** The [else] branch, lines 233-263: no tool calls. *)
Definition finish (l : Locals) (final_result : option str)
  : M (option str) :=
  match generated_files l with
  | [] => ret final_result
  | _ =>
    local_files <- for_each fetch_generated (generated_files l) [] ;;
    match local_files with
    | [] => ret final_result
    | _ =>
      of_outcome
        (iadd final_result
           (nl ++ nl ++ u8 "生成的文件已复制到本地:" ++ nl
              ++ join_strs nl local_files))
    end
  end.

(** The top of the loop body, lines 169-177: call the model and append
    its message. *)
Definition receive (l : Locals) : M (ChatCompletionMessage * Locals) :=
  response_message <- chat_completions_create (messages l) ;;
  ret (response_message,
       mkLocals (messages l ++ [Response response_message]) (result l)
         (generated_files l)).

(** One pass of [while True], lines 168-263. *)
Definition turn (l : Locals) : M (LoopStep Locals (option str)) :=
  received <- receive l ;;
  let response_message := fst received in
  let l1 := snd received in
  if has_tool_calls response_message then
    l2 <- for_each dispatch (calls_of response_message) l1 ;;
    ret (Continue l2)
  else
    final_result <- finish l1 (content response_message) ;;
    ret (Break final_result).

(** Everything before the loop, lines 141-166.  What [run_agent]
    prints to the console is left out. *)
Definition prepare (user_input : str) (excel_file_path : option str)
  : M Locals :=
  let messages := [RoleContent "user" user_input] in
  match excel_file_path with
  | Some (c :: p) =>
    let excel_file_path := c :: p in
    let sandbox_dir := u8 "/sandbox" in
    let excel_filename := basename excel_file_path in
    let sandbox_excel_path := path_join sandbox_dir excel_filename in
    copy_file_to_sandbox (PyStr excel_file_path) (PyStr sandbox_dir) ;;;
    ret (mkLocals (append_to_first (staged_note sandbox_excel_path) messages)
           None [])
  | _ => ret (mkLocals messages None [])
  end.

(** [run_agent], lines 60-263; [fuel] bounds the passes of the loop. *)
Definition run_agent (fuel : nat) (user_input : str)
  (excel_file_path : option str) (w : World S) : option (Run S (option str)) :=
  match prepare user_input excel_file_path w with
  | (Raise e, w1) => Some (mkRun 0 (Raise e) w1)
  | (Ret l, w1) => while_true fuel turn l w1
  end.

(** How the part of the [__main__] block before [run_agent] ends:
    in [exit(status)], or with the two lines read. *)
Inductive Asked :=
| ExitCalled (status : Z)
| Go (excel_path user_request : str).

Definition RULE : str := repeat 45%N 50.   (* "-" * 50 *)

(** The [__main__] block up to the call of [run_agent],
    lines 266-279. *)
Definition opening : M Asked :=
  on_machine (py_print (u8 "Excel 文件处理工具")) ;;;
  on_machine (py_print RULE) ;;;
  excel_path <-
    on_machine
      (py_input (u8 "请输入要处理的Excel文件路径 (留空则不指定文件): ")) ;;
  missing <-
    (if str_truthy excel_path then
       found <- read_machine (path_exists excel_path) ;; ret (negb found)
     else ret false) ;;
  if missing then
    on_machine
      (py_print (u8 "错误: 文件 '" ++ excel_path ++ u8 "' 不存在")) ;;;
    ret (ExitCalled 1)
  else
    user_request <- on_machine (py_input (u8 "请输入您的Excel处理需求: ")) ;;
    on_machine (py_print (nl ++ u8 "正在处理，请稍候..." ++ nl)) ;;;
    ret (Go excel_path user_request).

(** The three prints after [run_agent], lines 282-284. *)
Definition closing (result : option str) : M unit :=
  on_machine (py_print (nl ++ u8 "处理结果:")) ;;;
  on_machine (py_print RULE) ;;;
  on_machine
    (py_print (match result with Some text => text | None => u8 "None" end)).

(** The [__main__] block, lines 265-284.  The value is the exit status
    of the process: the argument of [exit], [1] when an exception
    reaches the top level, [0] at the end of the script; [None] as long
    as the loop of [run_agent] goes on. *)
Definition main (fuel : nat) (w : World S) : option (Z * World S) :=
  match opening w with
  | (Raise _, w1) => Some (1%Z, w1)
  | (Ret (ExitCalled status), w1) => Some (status, w1)
  | (Ret (Go excel_path user_request), w1) =>
    match
      run_agent fuel user_request
        (if str_truthy excel_path then Some excel_path else None) w1
    with
    | None => None
    | Some run =>
      match ended run with
      | Raise _ => Some (1%Z, final run)
      | Ret result =>
        match closing result (final run) with
        | (Ret _, w2) => Some (0%Z, w2)
        | (Raise _, w2) => Some (1%Z, w2)
        end
      end
    end
  end.

End Cli.
End Cli.

(* ================================================================= *)
(** ** app.py *)

Module App.
Section App.
Context {S : Type} {srv : Services S}.
Local Abbreviation M := (Prog S).

Definition SYSTEM_PROMPT : str :=
  u8 "你是一位Excel数据分析专家，擅长使用Python进行数据处理和可视化。请根据用户的需求，生成并执行相应的代码来分析Excel数据。
            所有的数据分析都应当在沙盒中进行，为了捕获程序运行的状态和结果，在代码中用print()语句把你想了解的信息输出。
            如果涉及到生成图片或产生其他文件，除了在界面上渲染显示外，还应将其从沙盒环境复制到外部存储。
            如果要作图，由于中文字体可能出现显示问题，所以图片中文字一律使用英文。".

Definition ACKNOWLEDGEMENT : str :=
  u8 "好的，请稍等，我正在分析您的需求并生成代码。".

Record Locals := mkLocals {
  messages : list Message;
  result : option str;
  generated_files : list pyval;
  all_outputs : list OutputEvent;
  step_counter : nat
}.

(** [run_code], lines 34-42. *)
Definition run_code (lang code libraries : pyval) : M str :=
  with_session (mkSessionArgs lang (Some false) (Some true))
    (result <- on_machine (session_run code libraries) ;;
     ret (or_advisory result)).

Definition st_info (text : str) : M unit :=
  fun w =>
    (Ret tt,
     mkWorld (machine w) (requests w) (notices w ++ [Info text])
       (rendered w) (logged w)).

Definition st_warning (text : str) : M unit :=
  fun w =>
    (Ret tt,
     mkWorld (machine w) (requests w) (notices w ++ [Warning text])
       (rendered w) (logged w)).

(** Modelled from the spec: the [logger] module that [app.py] imports is
    not among the sources, and the specification does not mention it.
    Its functions [log_model_request], [log_model_response] and
    [log_tool_result] are taken to record what they are handed and to
    return. *)
Definition write_log (entry : LogEntry) : M unit :=
  fun w =>
    (Ret tt,
     mkWorld (machine w) (requests w) (notices w) (rendered w)
       (logged w ++ [entry])).

(** The suffix test of [update_results], line 250. *)
Definition is_image (file : str) : bool :=
  existsb (endswith (lower file))
    [u8 ".png"; u8 ".jpg"; u8 ".jpeg"; u8 ".svg"; u8 ".gif"].

(** One pass of [for file_idx, file in enumerate(output["content"])],
    lines 247-252. *)
Definition draw_file (file : pyval) : M unit :=
  match file with
  | PyStr name => if is_image name then consult (st_image name) else ret tt
  | other => raise (AttributeError other "lower")
  end.

(** The branch of [update_results] for one entry of [all_outputs],
    lines 227-252.  [st.markdown], [st.text_area], [st.info],
    [st.success] and [st.subheader] are handed text and only draw. *)
Definition draw (event : OutputEvent) : M unit :=
  match event with
  | OutCode lang code => of_outcome (st_code code lang)
  | OutFiles files => for_each (fun file _ => draw_file file) files tt
  | _ => ret tt
  end.

Definition clear_page : M unit :=
  fun w =>
    (Ret tt, mkWorld (machine w) (requests w) (notices w) [] (logged w)).

Definition shown (event : OutputEvent) : M unit :=
  fun w =>
    (Ret tt,
     mkWorld (machine w) (requests w) (notices w) (rendered w ++ [event])
       (logged w)).

(** [update_results()], lines 212-252, redraws the page from
    [all_outputs]: the placeholder is emptied and the entries are drawn
    in order, up to the first one whose drawing raises.  Of the page,
    the entries drawn in full are kept. *)
Definition update_results (l : Locals) : M unit :=
  clear_page ;;;
  for_each (fun event _ => draw event ;;; shown event) (all_outputs l) tt.

(** [all_outputs.append(event)] *)
Definition emit (event : OutputEvent) (l : Locals) : Locals :=
  mkLocals (messages l) (result l) (generated_files l)
    (all_outputs l ++ [event]) (step_counter l).

Definition set_result (r : str) (l : Locals) : Locals :=
  mkLocals (messages l) (Some r) (generated_files l) (all_outputs l)
    (step_counter l).

(** The body of the [try] that builds the preview text, lines 173-182,
    after [pd.read_excel]. *)
Definition excel_info (excel_filename : str) (df : DataFrame) : outcome str :=
  let preview_rows := Nat.min 5 (df_len df) in
  let excel_preview := df_head_to_string df preview_rows in
  match str_join (u8 ", ") (df_columns df) with
  | Raise e => Raise e
  | Ret joined =>
    let columns_info := u8 "列名: " ++ joined in
    let dtypes_info := u8 "数据类型:" ++ nl ++ df_dtypes_to_string df in
    Ret (nl ++ nl ++ u8 "Excel文件预览信息:" ++ nl
           ++ u8 "文件名: " ++ excel_filename ++ nl
           ++ u8 "总行数: " ++ str_of_nat (df_len df) ++ nl
           ++ u8 "总列数: " ++ str_of_nat (df_shape1 df) ++ nl
           ++ columns_info ++ nl ++ nl
           ++ u8 "前" ++ str_of_nat preview_rows ++ u8 "行数据预览:" ++ nl
           ++ excel_preview ++ nl ++ nl ++ dtypes_info)
  end.

(** Everything before the loop, lines 144-203. *)
Definition prepare (user_input : str) (excel_file_path : option str)
  : M Locals :=
  let messages :=
    [RoleContent "system" SYSTEM_PROMPT;
     RoleContent "user" user_input;
     RoleContent "assistant" ACKNOWLEDGEMENT] in
  messages1 <-
    match excel_file_path with
    | Some (c :: p) =>
      let excel_file_path := c :: p in
      let sandbox_dir := u8 "/sandbox/" in
      let excel_filename := basename excel_file_path in
      let sandbox_excel_path := path_join sandbox_dir excel_filename in
      copy_result <-
        copy_file_to_sandbox (PyStr excel_file_path) (PyStr sandbox_dir) ;;
      st_info copy_result ;;;
      try_except
        (df <- consult (read_excel excel_file_path) ;;
         info <- of_outcome (excel_info excel_filename df) ;;
         ret (append_to_first (staged_note sandbox_excel_path ++ info)
                messages))
        (fun e =>
           st_warning (u8 "无法提取Excel预览: " ++ exn_text e) ;;;
           ret (append_to_first (staged_note sandbox_excel_path) messages))
    | _ => ret messages
    end ;;
  ret (mkLocals messages1 None [] [] 1).

(** One pass of [for tool_call in response_message.tool_calls],
    lines 282-332. *)
Definition dispatch (tool_call : ToolCall) (l : Locals) : M Locals :=
  let function_name := tc_name tool_call in
  function_args <- of_outcome (json_loads (tc_arguments tool_call)) ;;
  let l :=
    mkLocals (messages l) (result l) (generated_files l) (all_outputs l)
      (step_counter l + 1) in
  l1 <-
    (if str_eqb function_name (u8 "run_code") then
       lang <- of_outcome (py_get function_args "lang") ;;
       code <- of_outcome (py_get function_args "code") ;;
       libraries <- of_outcome (py_get function_args "libraries") ;;
       let l := emit (OutCode lang code) l in
       update_results l ;;;
       r <- run_code lang code libraries ;;
       let l := emit (OutResult r) (set_result r l) in
       update_results l ;;;
       ret l
     else if str_eqb function_name (u8 "copy_file_to_sandbox") then
       local_path <- of_outcome (py_get function_args "local_path") ;;
       sandbox_path <- of_outcome (py_get function_args "sandbox_path") ;;
       r <- copy_file_to_sandbox local_path sandbox_path ;;
       let l := emit (OutInfo r) (set_result r l) in
       update_results l ;;;
       ret l
     else if str_eqb function_name (u8 "copy_file_from_sandbox") then
       sandbox_path <- of_outcome (py_get function_args "sandbox_path") ;;
       local_path <- of_outcome (py_get function_args "local_path") ;;
       r <- copy_file_from_sandbox sandbox_path local_path ;;
       let l := emit (OutInfo r) (set_result r l) in
       let l :=
         mkLocals (messages l) (result l)
           (generated_files l ++ [local_path]) (all_outputs l)
           (step_counter l) in
       update_results l ;;;
       ret l
     else ret l) ;;
  match result l1 with
  | None => raise (UnboundLocalError "result")
  | Some r =>
    write_log (LogToolResult function_name r) ;;;
    ret (mkLocals (messages l1 ++ [tool_message tool_call r]) (result l1)
           (generated_files l1) (all_outputs l1) (step_counter l1))
  end.

(** The [else] branch, lines 336-350: no tool calls.  The value is
    [final_result]
    with the local variables as they are at [break]. *)
Definition finish (l : Locals) (final_result : option str)
  : M (option str * Locals) :=
  match generated_files l with
  | [] => ret (final_result, l)
  | _ =>
    joined <- of_outcome (str_join nl (generated_files l)) ;;
    let file_paths_text := nl ++ nl ++ u8 "生成的文件:" ++ nl ++ joined in
    final_result <- of_outcome (iadd final_result file_paths_text) ;;
    let l := emit (OutFiles (generated_files l)) l in
    update_results l ;;;
    ret (final_result, l)
  end.

(** The top of the loop body, lines 254-277: call the model, append
    its message and show its narration. *)
Definition receive (l : Locals) : M (ChatCompletionMessage * Locals) :=
  write_log (LogRequest (messages l)) ;;;
  response_message <- chat_completions_create (messages l) ;;
  let l :=
    mkLocals (messages l ++ [Response response_message]) (result l)
      (generated_files l) (all_outputs l) (step_counter l) in
  write_log (LogResponse response_message) ;;;
  match content response_message with
  | Some (c :: t) =>
    let l := emit (OutAi (c :: t)) l in
    update_results l ;;; ret (response_message, l)
  | _ => ret (response_message, l)
  end.

(** One pass of [while True], lines 254-350. *)
Definition turn (l : Locals) : M (LoopStep Locals (option str * Locals)) :=
  received <- receive l ;;
  let response_message := fst received in
  let l1 := snd received in
  if has_tool_calls response_message then
    l2 <- for_each dispatch (calls_of response_message) l1 ;;
    ret (Continue l2)
  else
    r <- finish l1 (content response_message) ;;
    ret (Break r).

(** The loop, keeping [final_result] and the local variables in view. *)
Definition agent_loop (fuel : nat) (user_input : str)
  (excel_file_path : option str) (w : World S)
  : option (Run S (option str * Locals)) :=
  match prepare user_input excel_file_path w with
  | (Raise e, w1) => Some (mkRun 0 (Raise e) w1)
  | (Ret l, w1) => while_true fuel turn l w1
  end.

(** [run_agent] has no [return]: after [break] it falls off the end,
    so its value is [None] and [final_result] is dropped. *)
Definition run_agent (fuel : nat) (user_input : str)
  (excel_file_path : option str) (w : World S) : option (Run S unit) :=
  match agent_loop fuel user_input excel_file_path w with
  | None => None
  | Some run =>
    Some (mkRun (rounds run)
            (match ended run with Ret _ => Ret tt | Raise e => Raise e end)
            (final run))
  end.

(** What the sidebar draws besides banners: [st.dataframe(df.head(n))]
    and [st.error]. *)
Inductive SidebarDrawn :=
| DataframeHead (df : DataFrame) (n : nat)
| ErrorBanner (text : str).

(** The [with st.sidebar] block of [main], lines 357-376: the path of
    the temporary copy of the upload, if any, and what was drawn. *)
Definition sidebar {up : Uploads S} (uploaded_file : option (list Byte.byte))
  : M (option str * list SidebarDrawn) :=
  match uploaded_file with
  | None => ret (None, [])
  | Some data =>
    temp_file_path <- on_machine (named_temporary_file data) ;;
    try_except
      (df <- consult (read_excel temp_file_path) ;;
       st_info (u8 "总行数: " ++ str_of_nat (df_len df) ++ u8 "，总列数: "
                  ++ str_of_nat (df_shape1 df)) ;;;
       ret (Some temp_file_path, [DataframeHead df 10]))
      (fun e =>
         ret (Some temp_file_path,
              [ErrorBanner (u8 "无法预览文件: " ++ exn_text e)]))
  end.

(** [main], lines 355-392, on what the three widgets hand back: the
    uploaded bytes, the text of the request and whether the button was
    pressed.  The value is what the sidebar drew, how [main] ended and
    the world it left; [None] when the loop outlasts [fuel]. *)
Definition main {up : Uploads S} (fuel : nat)
  (uploaded_file : option (list Byte.byte)) (user_request : str)
  (clicked : bool) (w : World S)
  : option (list SidebarDrawn * outcome unit * World S) :=
  match sidebar uploaded_file w with
  | (Raise e, w1) => Some ([], Raise e, w1)
  | (Ret (temp_file_path, drawn), w1) =>
    if clicked then
      if negb (str_truthy user_request) then
        Some (drawn, Ret tt, snd (st_warning (u8 "请输入您的分析需求") w1))
      else
        match run_agent fuel user_request temp_file_path w1 with
        | None => None
        | Some run => Some (drawn, ended run, final run)
        end
    else Some (drawn, Ret tt, w1)
  end.

End App.
End App.

(* ================================================================= *)
(** ** test_sandbox.py *)

Module TestSandbox.
Section TestSandbox.
Context {S : Type} {srv : Services S}.

(** The whole script: one session, one [session.run] with the default
    [libraries=None]. *)
Definition script : Prog S unit :=
  with_session (mkSessionArgs (PyStr (u8 "python")) None (Some true))
    (on_machine
       (session_run (PyStr (u8 "print('Hello, World!')")) PyNone) ;;;
     ret tt).

End TestSandbox.
End TestSandbox.

(* ================================================================= *)
(** ** Vocabulary of the statements *)

(** [m] is the Tool message for [tc]: it echoes the identifier and the
    function name of the call. *)
Definition answers (tc : ToolCall) (m : Message) : Prop :=
  match m with
  | ToolMessage id name _ => id = tc_id tc /\ name = tc_name tc
  | _ => False
  end.

Definition tool_text (m : Message) : option str :=
  match m with
  | ToolMessage _ _ text => Some text
  | _ => None
  end.

(** The text of the most recent Tool message of a conversation. *)
Definition last_tool_text (conv : list Message) : option str :=
  fold_left
    (fun acc m => match tool_text m with Some t => Some t | None => acc end)
    conv None.

(** A function name outside the three of the tool schema. *)
Definition unknown_tool (name : str) : Prop :=
  name <> u8 "run_code" /\ name <> u8 "copy_file_to_sandbox"
  /\ name <> u8 "copy_file_from_sandbox".

(** The events a response adds to [all_outputs] on arrival. *)
Definition narration (m : ChatCompletionMessage) : list OutputEvent :=
  match content m with
  | Some (c :: t) => [OutAi (c :: t)]
  | _ => []
  end.

Section Vocabulary.
Context {S : Type} {srv : Services S}.

(** A program is quiet when it sends nothing to the model. *)
Definition quiet {A} (c : Prog S A) : Prop :=
  forall w, requests (snd (c w)) = requests w.

(** [next] is [conv] followed by the answer of the model to request
    number [k], which carries tool calls, and by one Tool message per
    call, in the order of the calls. *)
Definition extends (k : nat) (conv next : list Message) : Prop :=
  exists m tools,
    chat_model k conv = Ret m /\ has_tool_calls m = true
    /\ next = conv ++ Response m :: tools
    /\ Forall2 answers (calls_of m) tools.

(** Each conversation of [convs], sent as requests [k], [k+1], ...,
    extends the one before. *)
Fixpoint chained (k : nat) (convs : list (list Message)) : Prop :=
  match convs with
  | [] => True
  | conv :: rest =>
    match rest with
    | [] => True
    | next :: _ => extends k conv next
    end /\ chained (Datatypes.S k) rest
  end.

(** From request number [k] on, the model answers with tool calls for
    [N] requests and without tool calls to the next one. *)
Definition tool_turns (N k : nat) : Prop :=
  (forall i conv, i < N ->
     exists m, chat_model (k + i) conv = Ret m /\ has_tool_calls m = true)
  /\ (forall conv,
        exists m, chat_model (k + N) conv = Ret m /\ has_tool_calls m = false).

(** The sandbox fails with [e] under [run_code]: at session start, or
    in [session.run] (installing libraries, running the code). *)
Definition sandbox_failure (args : SessionArgs) (code libraries : pyval)
  (s : S) (e : exn) : Prop :=
  (exists s1, session_enter args s = (Raise e, s1))
  \/ (exists s1 s2,
        session_enter args s = (Ret tt, s1)
        /\ session_run code libraries s1 = (Raise e, s2)).

(** What the [try] block of the preview comes to on machine [s]. *)
Definition preview (path filename : str) (s : S) : outcome str :=
  match read_excel path s with
  | Ret df => App.excel_info filename df
  | Raise e => Raise e
  end.

(** [w] with further banners shown. *)
Definition with_notices (w : World S) (shown : list Notice) : World S :=
  mkWorld (machine w) (requests w) (notices w ++ shown) (rendered w)
    (logged w).

(** Tearing a session down never raises. *)
Definition teardown_safe : Prop :=
  forall s, fst (session_exit s) = Ret tt.

End Vocabulary.

(** Every code point is whitespace (none at all included). *)
Definition blank (s : str) : bool := forallb isspace s.

Definition is_str (v : pyval) : bool :=
  match v with PyStr _ => true | _ => false end.



Definition no_sep (s : str) : bool :=
  forallb (fun c => negb (c =? 47)%N) s.

(** No Tool message of the conversation has an empty or blank text. *)
Definition tool_texts_filled (conv : list Message) : Prop :=
  forall m text, In m conv -> tool_text m = Some text -> blank text = false.

Section Protocol.
Context {S : Type} {srv : Services S}.

(** The sandbox library keeps to its own protocol, [idle] being the
    machines without a session and [live] the ones with one: entering
    from idle gives a live session or fails idle, the operations of a
    live session leave it live, and leaving a live session gives idle,
    whether or not leaving raises. *)
Definition follows_protocol (idle live : S -> Prop) : Prop :=
  (forall args s,
     idle s ->
     match session_enter args s with
     | (Ret _, s1) => live s1
     | (Raise _, s1) => idle s1
     end)
  /\ (forall code libraries s,
        live s -> live (snd (session_run code libraries s)))
  /\ (forall a b s, live s -> live (snd (copy_to_runtime a b s)))
  /\ (forall a b s, live s -> live (snd (copy_from_runtime a b s)))
  /\ (forall s, live s -> idle (snd (session_exit s))).

(** A program that, started on a machine in [P], leaves it in [Q]. *)
Definition takes (P Q : S -> Prop) {A} (c : Prog S A) : Prop :=
  forall w, P (machine w) -> Q (machine (snd (c w))).

(** What a returning dispatch of [tc] adds to [generated_files] in
    [app.py]: the [local_path] argument of a [copy_file_from_sandbox]
    call. *)
Definition recorded (tc : ToolCall) : list pyval :=
  if str_eqb (tc_name tc) (u8 "copy_file_from_sandbox") then
    match json_loads (tc_arguments tc) with
    | Ret (PyDict items) => [dict_lookup (u8 "local_path") items]
    | _ => []
    end
  else [].

(** A tool call that cannot raise: a copy tool whose arguments parse to
    a JSON object. *)
Definition harmless (tc : ToolCall) : Prop :=
  (tc_name tc = u8 "copy_file_to_sandbox"
   \/ tc_name tc = u8 "copy_file_from_sandbox")
  /\ exists items, json_loads (tc_arguments tc) = Ret (PyDict items).

(** The model answers every request with harmless tool calls. *)
Definition endless : Prop :=
  forall k conv,
    exists m,
      chat_model k conv = Ret m /\ has_tool_calls m = true
      /\ Forall harmless (calls_of m).

(** [st.image] can open [file] on machine [s], if [file] is a string
    at all and [update_results] takes it for an image. *)
Definition opens (s : S) (file : pyval) : Prop :=
  match file with
  | PyStr name => App.is_image name = true -> st_image name s = Ret tt
  | _ => False
  end.

(** Drawing [event] on machine [s] does not raise. *)
Definition draws (s : S) (event : OutputEvent) : Prop :=
  match event with
  | OutCode lang code => st_code code lang = Ret tt
  | OutFiles files => Forall (opens s) files
  | _ => True
  end.

(** The events can be drawn whatever the machine has become. *)
Definition drawable (events : list OutputEvent) : Prop :=
  forall s, Forall (draws s) events.

(** In a pass that started with [k] requests sent, the model's message
    was received and, the tool calls before it having been dispatched,
    the dispatch of a tool call raised [e] and left the world [w']. *)
Definition dispatch_raised {L}
  (receive : L -> Prog S (ChatCompletionMessage * L))
  (dispatch : ToolCall -> L -> Prog S L) (k : nat) (e : exn) (w' : World S)
  : Prop :=
  exists l w m l0 w0 pre tc post l1 w1,
    length (requests w) = k
    /\ receive l w = (Ret (m, l0), w0)
    /\ tool_calls m = Some (pre ++ tc :: post)
    /\ for_each dispatch pre l0 w0 = (Ret l1, w1)
    /\ dispatch tc l1 w1 = (Raise e, w').

(** In a pass of [app.py] that started with [k] requests sent, the
    model's message came without tool calls and the [else] branch
    raised [e] and left the world [w']. *)
Definition finish_raised (k : nat) (e : exn) (w' : World S) : Prop :=
  exists l w m l0 w0,
    length (requests w) = k
    /\ App.receive l w = (Ret (m, l0), w0)
    /\ has_tool_calls m = false
    /\ App.finish l0 (content m) w0 = (Raise e, w').

(** Whatever tool call the model may ask for is dispatched without an
    exception, from any state [ok] of the local variables and any
    world. *)
Definition calls_return {L} (ok : L -> Prop)
  (dispatch : ToolCall -> L -> Prog S L) : Prop :=
  forall k conv m tc l w,
    chat_model k conv = Ret m -> In tc (calls_of m) -> ok l ->
    exists l' w', dispatch tc l w = (Ret l', w').

(** [app.py]: something has been emitted, and what is on the page is
    the whole of [all_outputs]. *)
Definition in_sync (l : App.Locals) (w : World S) : Prop :=
  App.all_outputs l = [] \/ rendered w = App.all_outputs l.

End Protocol.

(* ================================================================= *)
(** ** Scripted collaborators *)

(** Stand-ins for the collaborators, to run the two programs on
    concrete sessions: a scripted model, a sandbox whose operations end
    as the [Behaviour] says, a JSON parser given as a table, and a
    terminal on which the two lines [typed_path] and [typed_request]
    are typed ([Raise] for a stdin that has ended). *)
Module Stub.

Record Behaviour := mkBehaviour {
  script : list (outcome ChatCompletionMessage);
  on_enter : outcome unit;
  on_run : outcome str;
  on_copy : outcome unit;
  on_exit : outcome unit;
  parsed : list (str * pyval);
  workbook : outcome DataFrame;
  file_exists : bool;
  typed_path : outcome str;
  typed_request : outcome str
}.

Definition APIError : exn := mkExn "APIError" (u8 "no response scripted").
Definition JSONDecodeError : exn :=
  mkExn "JSONDecodeError" (u8 "Expecting value").
Definition SandboxError : exn := mkExn "RuntimeError" (u8 "container failed").
Definition ExcelError : exn := mkExn "ValueError" (u8 "not a workbook").
Definition LanguageError : exn :=
  mkExn "TypeError" (u8 "bad argument type for built-in operation").
Definition ImageError : exn :=
  mkExn "MediaFileStorageError" (u8 "Error opening file").

(** [st.code] as scripted: a language that is a string or [None] is
    accepted. *)
Definition code_block (body lang : pyval) : outcome unit :=
  match lang with
  | PyStr _ | PyNone => Ret tt
  | _ => Raise LanguageError
  end.

Fixpoint lookup (key : str) (table : list (str * pyval)) : outcome pyval :=
  match table with
  | [] => Raise JSONDecodeError
  | (k, v) :: rest => if str_eqb k key then Ret v else lookup key rest
  end.

(** The machine state counts the sandbox operations performed. *)
#[export] Instance services (b : Behaviour) : Services nat := {|
  session_enter := fun _ n => (on_enter b, S n);
  session_run := fun _ _ n => (on_run b, S n);
  copy_to_runtime := fun _ _ n => (on_copy b, S n);
  copy_from_runtime := fun _ _ n => (on_copy b, S n);
  session_exit := fun n => (on_exit b, S n);
  chat_model := fun k _ => nth k (script b) (Raise APIError);
  json_loads := fun text => lookup text (parsed b);
  py_repr := fun _ => u8 "<object>";
  read_excel := fun _ _ => workbook b;
  path_exists := fun _ _ => file_exists b;
  getcwd := fun _ => u8 "/home/user";
  py_input := fun prompt n =>
    (if str_eqb prompt (u8 "请输入您的Excel处理需求: ") then typed_request b
     else typed_path b, S n);
  py_print := fun _ n => (Ret tt, S n);
  st_code := code_block;
  st_image := fun _ _ => if file_exists b then Ret tt else Raise ImageError
|}.

Definition w0 : World nat := mkWorld 0 [] [] [] [].

Definition call (id name arguments : string) : ToolCall :=
  mkToolCall (u8 id) (u8 name) (u8 arguments).

Definition asks (calls : list ToolCall) : outcome ChatCompletionMessage :=
  Ret (mkResponse None (Some calls)).

Definition says (text : string) : outcome ChatCompletionMessage :=
  Ret (mkResponse (Some (u8 text)) None).

Definition run_args : pyval :=
  PyDict [(u8 "lang", PyStr (u8 "python"));
          (u8 "code", PyStr (u8 "print(6*7)"))].

Definition fetch_args : pyval :=
  PyDict [(u8 "sandbox_path", PyStr (u8 "/sandbox/out.png"));
          (u8 "local_path", PyStr (u8 "out.png"))].

Definition table : list (str * pyval) :=
  [(u8 "{run}", run_args); (u8 "{fetch}", fetch_args); (u8 "{}", PyDict [])].

Definition sheet : DataFrame :=
  mkDataFrame 2 1 (fun _ => u8 "   A") [PyStr (u8 "A")] (u8 "A    int64").

(** A healthy sandbox printing [42]. *)
Definition healthy (script : list (outcome ChatCompletionMessage))
  : Behaviour :=
  mkBehaviour script (Ret tt) (Ret (u8 "42")) (Ret tt) (Ret tt) table
    (Ret sheet) true (Ret []) (Ret (u8 "hi")).

(** A sandbox in which running code and copying files fail. *)
Definition broken (script : list (outcome ChatCompletionMessage))
  : Behaviour :=
  mkBehaviour script (Ret tt) (Raise SandboxError) (Raise SandboxError)
    (Ret tt) table (Raise ExcelError) true (Ret []) (Ret (u8 "hi")).

(** The sessions used below. *)
Definition one_run_then_done : Behaviour :=
  healthy [asks [call "c1" "run_code" "{run}"]; says "done"].

Definition failing_run : Behaviour :=
  broken [asks [call "c1" "run_code" "{run}"]; says "done"].

Definition fetch_then_done : Behaviour :=
  healthy [asks [call "c1" "copy_file_from_sandbox" "{fetch}"]; says "done"].

Definition failing_fetch : Behaviour :=
  broken [asks [call "c1" "copy_file_from_sandbox" "{fetch}"]; says "done"].

Definition stale_result : Behaviour :=
  healthy [asks [call "c1" "run_code" "{run}"];
           asks [call "c2" "lookup_weather" "{}"]; says "done"].

Definition unknown_first : Behaviour :=
  healthy [asks [call "c1" "lookup_weather" "{}"]; says "done"].

Definition model_down : Behaviour := healthy [].

Definition missing_file : Behaviour :=
  mkBehaviour [says "done"] (Ret tt) (Ret (u8 "42")) (Ret tt) (Ret tt) table
    (Ret sheet) false (Ret (u8 "/tmp/a.xlsx")) (Ret (u8 "hi")).

(** A healthy sandbox in which the code prints only blanks. *)
Definition silent : Behaviour :=
  mkBehaviour [] (Ret tt) (Ret (u8 "  ")) (Ret tt) (Ret tt) table
    (Ret sheet) true (Ret []) (Ret (u8 "hi")).

(** A sandbox with one session slot: the machine state tells whether
    a session is open. *)
Definition tracked (b : Behaviour) : Services bool := {|
  session_enter := fun _ _ =>
    match on_enter b with
    | Ret u => (Ret u, true)
    | Raise e => (Raise e, false)
    end;
  session_run := fun _ _ s => (on_run b, s);
  copy_to_runtime := fun _ _ s => (on_copy b, s);
  copy_from_runtime := fun _ _ s => (on_copy b, s);
  session_exit := fun _ => (on_exit b, false);
  chat_model := fun k _ => nth k (script b) (Raise APIError);
  json_loads := fun text => lookup text (parsed b);
  py_repr := fun _ => u8 "<object>";
  read_excel := fun _ _ => workbook b;
  path_exists := fun _ _ => file_exists b;
  getcwd := fun _ => u8 "/home/user";
  py_input := fun prompt s =>
    (if str_eqb prompt (u8 "请输入您的Excel处理需求: ") then typed_request b
     else typed_path b, s);
  py_print := fun _ s => (Ret tt, s);
  st_code := code_block;
  st_image := fun _ _ => if file_exists b then Ret tt else Raise ImageError
|}.

(** A model that asks for the same copy again and again. *)
Definition insatiable : Services nat := {|
  session_enter := fun _ n => (Ret tt, S n);
  session_run := fun _ _ n => (Ret (u8 "42"), S n);
  copy_to_runtime := fun _ _ n => (Ret tt, S n);
  copy_from_runtime := fun _ _ n => (Ret tt, S n);
  session_exit := fun n => (Ret tt, S n);
  chat_model := fun _ _ => asks [call "c" "copy_file_from_sandbox" "{fetch}"];
  json_loads := fun text => lookup text table;
  py_repr := fun _ => u8 "<object>";
  read_excel := fun _ _ => Ret sheet;
  path_exists := fun _ _ => true;
  getcwd := fun _ => u8 "/home/user";
  py_input := fun _ n => (Ret (u8 "hi"), S n);
  py_print := fun _ n => (Ret tt, S n);
  st_code := code_block;
  st_image := fun _ _ => Ret tt
|}.

(** Uploads land in a fixed temporary file. *)
Definition uploads : Uploads nat := {|
  named_temporary_file := fun _ n => (Ret (u8 "/tmp/tmpab12.xlsx"), S n)
|}.

(** A sandbox whose sessions work but cannot be torn down. *)
Definition stuck_teardown : Behaviour :=
  mkBehaviour [] (Ret tt) (Ret (u8 "42")) (Ret tt) (Raise SandboxError) table
    (Ret sheet) true (Ret []) (Ret (u8 "hi")).


(** The model asks for code to be run in a language given as a
    number; the sandbox fails as in [broken]. *)
Definition numeric_language : Behaviour :=
  mkBehaviour [asks [call "c1" "run_code" "{lang5}"]; says "done"]
    (Ret tt) (Raise SandboxError) (Raise SandboxError) (Ret tt)
    [(u8 "{lang5}",
      PyDict [(u8 "lang", PyInt 5); (u8 "code", PyStr (u8 "print(6*7)"))])]
    (Raise ExcelError) true (Ret []) (Ret (u8 "hi")).


(** The model asks for a file without saying where to put it. *)
Definition fetch_nowhere : Behaviour :=
  healthy [asks [call "c1" "copy_file_from_sandbox" "{}"]; says "done"].

End Stub.

Example u8_ascii : u8 "a/b" = [97; 47; 98]%N.
Proof. reflexivity. Qed.

Example u8_cjk : u8 "文件" = [25991; 20214]%N.
Proof. reflexivity. Qed.

Example basename_ex : basename (u8 "/tmp/x/data.xlsx") = u8 "data.xlsx".
Proof. reflexivity. Qed.


(* ================================================================= *)
(** ** Strings and paths *)

Lemma lstrip_nil (s : str) : lstrip s = [] <-> forallb isspace s = true.
Proof.
  induction s as [|c r IH]; simpl.
  - tauto.
  - destruct (isspace c); simpl.
    + exact IH.
    + split; discriminate.
Qed.

Lemma forallb_rev {A} (f : A -> bool) (l : list A) :
  forallb f (rev l) = forallb f l.
Proof.
  induction l as [|a l IH]; simpl; [reflexivity|].
  rewrite forallb_app, IH. simpl. rewrite andb_true_r. apply andb_comm.
Qed.

Lemma lstrip_keeps_nonspace (s : str) :
  lstrip s <> [] -> forallb isspace (lstrip s) = false.
Proof.
  induction s as [|c r IH]; simpl; [congruence|].
  destruct (isspace c) eqn:E; [exact IH|].
  intros _. simpl. rewrite E. reflexivity.
Qed.

(** [s.strip() == ''] exactly when every code point of [s] is
    whitespace (none at all included). *)
Lemma strip_empty (s : str) : str_eqb (strip s) [] = forallb isspace s.
Proof.
  unfold str_eqb, strip, rstrip.
  destruct (forallb isspace s) eqn:E.
  - apply lstrip_nil in E. rewrite E. simpl.
    destruct (list_eq_dec N.eq_dec [] []); congruence.
  - destruct (list_eq_dec N.eq_dec _ _) as [H|H]; [|reflexivity].
    exfalso.
    assert (Hne : lstrip s <> []).
    { intro H0. apply lstrip_nil in H0. congruence. }
    apply lstrip_keeps_nonspace in Hne.
    apply (f_equal (@rev N)) in H. rewrite rev_involutive in H. simpl in H.
    apply lstrip_nil in H. rewrite forallb_rev in H. congruence.
Qed.

Lemma or_advisory_spec (text : str) :
  or_advisory text = if forallb isspace text then ADVISORY else text.
Proof.
  unfold or_advisory. rewrite strip_empty.
  destruct text as [|c r]; simpl; reflexivity.
Qed.

Lemma str_eqb_eq (a b : str) : str_eqb a b = true <-> a = b.
Proof.
  unfold str_eqb. destruct (list_eq_dec N.eq_dec a b); split; congruence.
Qed.

Lemma str_eqb_refl (a : str) : str_eqb a a = true.
Proof. apply str_eqb_eq. reflexivity. Qed.

Lemma str_eqb_neq (a b : str) : a <> b -> str_eqb a b = false.
Proof.
  intros H. destruct (str_eqb a b) eqn:E; [|reflexivity].
  apply str_eqb_eq in E. contradiction.
Qed.

Lemma basename_fold (p acc : str) :
  forallb (fun c => negb (c =? 47)%N) p = true ->
  fold_left (fun acc c => if (c =? 47)%N then [] else acc ++ [c]) p acc
  = acc ++ p.
Proof.
  revert acc. induction p as [|c r IH]; intros acc H; simpl in *.
  - now rewrite app_nil_r.
  - apply andb_true_iff in H as [Hc Hr].
    destruct (c =? 47)%N; [discriminate|].
    rewrite IH by exact Hr. now rewrite <- app_assoc.
Qed.

Lemma basename_no_sep_acc (p acc : str) :
  forallb (fun c => negb (c =? 47)%N) acc = true ->
  forallb (fun c => negb (c =? 47)%N)
    (fold_left (fun acc c => if (c =? 47)%N then [] else acc ++ [c]) p acc)
  = true.
Proof.
  revert acc. induction p as [|c r IH]; intros acc H; simpl; [exact H|].
  apply IH. destruct (c =? 47)%N eqn:E; [reflexivity|].
  rewrite forallb_app, H. simpl. now rewrite E.
Qed.

(** A base name holds no separator. *)
Lemma basename_no_sep (p : str) :
  forallb (fun c => negb (c =? 47)%N) (basename p) = true.
Proof. apply basename_no_sep_acc. reflexivity. Qed.

Lemma basename_after_sep (dir name : str) :
  forallb (fun c => negb (c =? 47)%N) name = true ->
  basename (dir ++ [47%N] ++ name) = name.
Proof.
  intros H. unfold basename. rewrite fold_left_app. simpl.
  now rewrite basename_fold.
Qed.

(** Joining a directory with a base name keeps the base name, for the
    two directories the programs use. *)
Lemma staged_basename (p : str) :
  basename (path_join (u8 "/sandbox") (basename p)) = basename p
  /\ basename (path_join (u8 "/sandbox/") (basename p)) = basename p.
Proof.
  pose proof (basename_no_sep p) as H.
  assert (Hs : startswith_sep (basename p) = false).
  { destruct (basename p) as [|c r]; [reflexivity|].
    simpl in *. apply andb_true_iff in H as [Hc _].
    now destruct (c =? 47)%N. }
  unfold path_join. rewrite Hs. split.
  - replace (negb (str_truthy (u8 "/sandbox")) || endswith_sep (u8 "/sandbox"))
      with false by reflexivity.
    now apply basename_after_sep.
  - replace (negb (str_truthy (u8 "/sandbox/")) || endswith_sep (u8 "/sandbox/"))
      with true by reflexivity.
    change (u8 "/sandbox/") with (u8 "/sandbox" ++ [47%N]).
    rewrite <- app_assoc. now apply basename_after_sep.
Qed.

Lemma contains_refl (s : str) : contains s s.
Proof. exists [], []. now rewrite app_nil_r. Qed.

Lemma contains_trans (t s u : str) :
  contains t s -> contains s u -> contains t u.
Proof.
  intros (pre & post & ->) (pre' & post' & ->).
  exists (pre ++ pre'), (post' ++ post). now rewrite <- !app_assoc.
Qed.

Lemma contains_app_l (a b s : str) : contains a s -> contains (a ++ b) s.
Proof.
  intros (pre & post & ->). exists pre, (post ++ b).
  now rewrite <- !app_assoc.
Qed.

Lemma contains_app_r (a b s : str) : contains b s -> contains (a ++ b) s.
Proof.
  intros (pre & post & ->). exists (a ++ pre), post.
  now rewrite <- !app_assoc.
Qed.

(* ================================================================= *)
(** ** Programs *)

Section ProgramFacts.
Context {S : Type} {srv : Services S}.
Local Abbreviation M := (Prog S).

Lemma bind_ret {A B} (c : M A) (k : A -> M B) w a w1 :
  c w = (Ret a, w1) -> bind c k w = k a w1.
Proof. unfold bind. now intros ->. Qed.

Lemma bind_raise {A B} (c : M A) (k : A -> M B) w e w1 :
  c w = (Raise e, w1) -> bind c k w = (Raise e, w1).
Proof. unfold bind. now intros ->. Qed.

Lemma bind_ret_inv {A B} (c : M A) (k : A -> M B) w b w' :
  bind c k w = (Ret b, w') ->
  exists a w1, c w = (Ret a, w1) /\ k a w1 = (Ret b, w').
Proof.
  unfold bind. destruct (c w) as [[a|e] w1]; intros H.
  - now exists a, w1.
  - discriminate.
Qed.

Lemma quiet_ret {A} (a : A) : quiet (ret a : M A).
Proof. intro w. reflexivity. Qed.

Lemma quiet_raise {A} (e : exn) : quiet (@raise S A e).
Proof. intro w. reflexivity. Qed.

Lemma quiet_of_outcome {A} (r : outcome A) : quiet (@of_outcome S A r).
Proof. intro w. reflexivity. Qed.

Lemma quiet_bind {A B} (c : M A) (k : A -> M B) :
  quiet c -> (forall a, quiet (k a)) -> quiet (bind c k).
Proof.
  intros Hc Hk w. unfold bind. specialize (Hc w).
  destruct (c w) as [[a|e] w1]; simpl in Hc.
  - now rewrite Hk.
  - exact Hc.
Qed.

Lemma quiet_try_except {A} (body : M A) (handler : exn -> M A) :
  quiet body -> (forall e, quiet (handler e)) -> quiet (try_except body handler).
Proof.
  intros Hb Hh w. unfold try_except. specialize (Hb w).
  destruct (body w) as [[a|e] w1]; simpl in Hb.
  - exact Hb.
  - now rewrite Hh.
Qed.

Lemma quiet_on_machine {A} (op : S -> outcome A * S) : quiet (on_machine op).
Proof. intro w. unfold on_machine. now destruct (op (machine w)). Qed.

Lemma quiet_read_machine {A} (f : S -> A) : quiet (read_machine f).
Proof. intro w. reflexivity. Qed.

Lemma quiet_consult {A} (f : S -> outcome A) : quiet (consult f).
Proof. intro w. reflexivity. Qed.

Lemma quiet_with_session {A} args (body : M A) :
  quiet body -> quiet (with_session args body).
Proof.
  intros Hb w. unfold with_session.
  pose proof (quiet_on_machine (session_enter args) w) as He.
  destruct (on_machine (session_enter args) w) as [[u|e] w1]; simpl in He;
    [|exact He].
  specialize (Hb w1). destruct (body w1) as [r w2]; simpl in Hb.
  pose proof (quiet_on_machine session_exit w2) as Hx.
  destruct (on_machine session_exit w2) as [[u'|e'] w3]; simpl in *; congruence.
Qed.

Lemma quiet_copy_file_to_sandbox a b : quiet (copy_file_to_sandbox a b).
Proof.
  apply quiet_try_except; intros; [|apply quiet_ret].
  apply quiet_bind; intros; [|apply quiet_ret].
  apply quiet_with_session, quiet_on_machine.
Qed.

Lemma quiet_copy_file_from_sandbox a b : quiet (copy_file_from_sandbox a b).
Proof.
  apply quiet_try_except; intros; [|apply quiet_ret].
  apply quiet_bind; intros; [|apply quiet_ret].
  apply quiet_with_session, quiet_on_machine.
Qed.

Lemma quiet_cli_run_code a b c : quiet (Cli.run_code a b c).
Proof.
  apply quiet_with_session, quiet_bind; intros;
    [apply quiet_on_machine | apply quiet_ret].
Qed.

Lemma quiet_app_run_code a b c : quiet (App.run_code a b c).
Proof.
  apply quiet_with_session, quiet_bind; intros;
    [apply quiet_on_machine | apply quiet_ret].
Qed.

Lemma quiet_st_info text : quiet (App.st_info text : M unit).
Proof. intro w. reflexivity. Qed.

Lemma quiet_st_warning text : quiet (App.st_warning text : M unit).
Proof. intro w. reflexivity. Qed.

Lemma quiet_write_log entry : quiet (App.write_log entry : M unit).
Proof. intro w. reflexivity. Qed.

Lemma quiet_for_each {A L} (body : A -> L -> M L) items :
  (forall x l, quiet (body x l)) -> forall l, quiet (for_each body items l).
Proof.
  intros Hb. induction items as [|x rest IH]; intros l; simpl.
  - apply quiet_ret.
  - apply quiet_bind; [apply Hb | exact IH].
Qed.

(** Redrawing the page: what it takes for a redraw to return, and what
    it leaves. *)
Lemma draw_file_eq file (w : World S) :
  App.draw_file file w
  = (match file with
     | PyStr name =>
       if App.is_image name then st_image name (machine w) else Ret tt
     | other => Raise (AttributeError other "lower")
     end, w).
Proof.
  destruct file; try reflexivity. simpl. destruct (App.is_image s); reflexivity.
Qed.

Lemma draw_files_eq files : forall (w : World S),
  snd (for_each (fun file _ => App.draw_file file) files tt w) = w
  /\ (Forall (opens (machine w)) files
      <-> fst (for_each (fun file _ => App.draw_file file) files tt w)
          = Ret tt).
Proof.
  induction files as [|file files IH]; intros w; simpl.
  - split; [reflexivity|]. split; auto.
  - unfold bind. rewrite draw_file_eq. destruct (IH w) as [Hw Hr].
    destruct file as [| | | |name| |]; simpl;
      try (split; [reflexivity|];
           split; [intros H; inversion H; contradiction | discriminate]).
    destruct (App.is_image name) eqn:Ei.
    + destruct (st_image name (machine w)) as [[]|e] eqn:Eo.
      * split; [exact Hw|]. rewrite <- Hr. split.
        -- intros H. now inversion H.
        -- intros H. constructor; [|exact H]. simpl. now intros _.
      * split; [reflexivity|]. split; [|discriminate].
        intros H. inversion H as [|? ? Ho _]; subst. simpl in Ho.
        rewrite Eo in Ho. specialize (Ho Ei). discriminate.
    + split; [exact Hw|]. rewrite <- Hr. split.
      * intros H. now inversion H.
      * intros H. constructor; [|exact H]. simpl. rewrite Ei. discriminate.
Qed.

Lemma draw_eq event (w : World S) :
  snd (App.draw event w) = w
  /\ (draws (machine w) event <-> fst (App.draw event w) = Ret tt).
Proof.
  destruct event as [t|lang code|t|t|files]; simpl;
    try (split; [reflexivity|]; split; auto; fail).
  apply draw_files_eq.
Qed.

Lemma paint_eq events : forall (w : World S),
  let painted :=
    for_each (fun event _ => App.draw event ;;; App.shown event) events tt w in
  (exists drawn,
     snd painted
     = mkWorld (machine w) (requests w) (notices w) (rendered w ++ drawn)
         (logged w))
  /\ (Forall (draws (machine w)) events ->
      painted
      = (Ret tt,
         mkWorld (machine w) (requests w) (notices w) (rendered w ++ events)
           (logged w)))
  /\ (forall u, fst painted = Ret u -> Forall (draws (machine w)) events).
Proof.
  induction events as [|event events IH]; intros w; cbv zeta.
  - simpl. split; [exists []|split].
    + rewrite app_nil_r. now destruct w.
    + intros _. unfold ret. rewrite app_nil_r. now destruct w.
    + auto.
  - destruct (draw_eq event w) as [Hw Hr].
    destruct (App.draw event w) as [[[]|e] w1] eqn:Ed; simpl in Hw; subst w1.
    + assert (E1 : (App.draw event ;;; App.shown event) w
                   = (Ret tt,
                      mkWorld (machine w) (requests w) (notices w)
                        (rendered w ++ [event]) (logged w)))
        by (rewrite (bind_ret _ _ _ Ed); reflexivity).
      simpl for_each. rewrite (bind_ret _ _ _ E1).
      match goal with |- context [for_each _ events tt ?w1] =>
        destruct (IH w1) as ((drawn & Hs) & Hall & Hinv) end.
      cbv zeta in Hs, Hall, Hinv. simpl in Hs, Hall, Hinv. split; [|split].
      * exists (event :: drawn). rewrite Hs, <- app_assoc. reflexivity.
      * intros H. inversion H; subst. rewrite Hall by assumption.
        rewrite <- app_assoc. reflexivity.
      * intros u Hu. constructor; [now apply Hr | now apply Hinv with u].
    + assert (E1 : (App.draw event ;;; App.shown event) w = (Raise e, w))
        by (apply bind_raise; exact Ed).
      simpl for_each. rewrite (bind_raise _ _ _ E1). split; [exists []|split].
      * simpl. rewrite app_nil_r. now destruct w.
      * intros H. inversion H as [|? ? Hd _]; subst. apply Hr in Hd.
        discriminate.
      * simpl. discriminate.
Qed.

Lemma update_results_eq l (w : World S) :
  App.update_results l w
  = for_each (fun event _ => App.draw event ;;; App.shown event)
      (App.all_outputs l) tt
      (mkWorld (machine w) (requests w) (notices w) [] (logged w)).
Proof. reflexivity. Qed.

Lemma update_results_world l (w : World S) :
  exists drawn,
    snd (App.update_results l w)
    = mkWorld (machine w) (requests w) (notices w) drawn (logged w).
Proof.
  rewrite update_results_eq.
  match goal with |- context [for_each _ _ tt ?w1] =>
    destruct (paint_eq (App.all_outputs l) w1) as ((drawn & Hs) & _) end.
  simpl in Hs. exists drawn. exact Hs.
Qed.

Lemma update_results_ret l (w : World S) :
  Forall (draws (machine w)) (App.all_outputs l) ->
  App.update_results l w
  = (Ret tt,
     mkWorld (machine w) (requests w) (notices w) (App.all_outputs l)
       (logged w)).
Proof.
  intros H. rewrite update_results_eq.
  match goal with |- context [for_each _ _ tt ?w1] =>
    destruct (paint_eq (App.all_outputs l) w1) as (_ & Hall & _) end.
  simpl in Hall. now rewrite Hall.
Qed.

Lemma update_results_inv l (w : World S) u w' :
  App.update_results l w = (Ret u, w') ->
  Forall (draws (machine w)) (App.all_outputs l)
  /\ w' = mkWorld (machine w) (requests w) (notices w) (App.all_outputs l)
            (logged w).
Proof.
  intros H.
  assert (Hd : Forall (draws (machine w)) (App.all_outputs l)).
  { rewrite update_results_eq in H.
    match type of H with context [for_each _ _ tt ?w1] =>
      destruct (paint_eq (App.all_outputs l) w1) as (_ & _ & Hinv) end.
    simpl in Hinv. apply Hinv with u. now rewrite H. }
  split; [exact Hd|]. rewrite (update_results_ret l w Hd) in H.
  now inversion H.
Qed.

Lemma update_results_cases l (w : World S) :
  (Forall (draws (machine w)) (App.all_outputs l)
   /\ App.update_results l w
      = (Ret tt,
         mkWorld (machine w) (requests w) (notices w) (App.all_outputs l)
           (logged w)))
  \/ (exists e drawn,
        App.update_results l w
        = (Raise e,
           mkWorld (machine w) (requests w) (notices w) drawn (logged w))).
Proof.
  destruct (update_results_world l w) as (drawn & Hs).
  destruct (App.update_results l w) as [[u|e] w1] eqn:E; simpl in Hs.
  - left. destruct (update_results_inv _ _ E) as [Hd _]. split; [exact Hd|].
    rewrite <- E. now apply update_results_ret.
  - right. exists e, drawn. now rewrite Hs.
Qed.

Lemma quiet_update_results l : quiet (App.update_results l : M unit).
Proof.
  intro w. destruct (update_results_world l w) as (drawn & ->). reflexivity.
Qed.

Lemma drawable_nil : drawable (srv := srv) [].
Proof. intro s. constructor. Qed.

Lemma drawable_snoc events event :
  drawable events -> (forall s, draws s event) -> drawable (events ++ [event]).
Proof.
  intros H He s. apply Forall_app. split; [apply H|].
  constructor; [apply He | constructor].
Qed.

(** The copy tools end in a string whatever the session does. *)
Lemma copy_file_to_sandbox_cases (local_path sandbox_path : pyval) w :
  let session :=
    with_session (mkSessionArgs (PyStr (u8 "python")) None (Some true))
      (on_machine (copy_to_runtime local_path sandbox_path)) in
  (exists w', session w = (Ret tt, w')
     /\ copy_file_to_sandbox local_path sandbox_path w
        = (Ret (u8 "文件已成功复制到沙盒: " ++ py_str local_path ++ u8 " -> "
                  ++ py_str sandbox_path), w'))
  \/ (exists e w', session w = (Raise e, w')
        /\ copy_file_to_sandbox local_path sandbox_path w
           = (Ret (u8 "复制文件失败: " ++ exn_text e), w')).
Proof.
  intros session. unfold copy_file_to_sandbox, try_except, bind, ret.
  fold session. destruct (session w) as [[[]|e] w'].
  - left. now exists w'.
  - right. now exists e, w'.
Qed.

Lemma copy_file_from_sandbox_cases (sandbox_path local_path : pyval) w :
  let session :=
    with_session (mkSessionArgs (PyStr (u8 "python")) None (Some true))
      (on_machine (copy_from_runtime sandbox_path local_path)) in
  (exists w', session w = (Ret tt, w')
     /\ copy_file_from_sandbox sandbox_path local_path w
        = (Ret (u8 "文件已成功从沙盒复制: " ++ py_str sandbox_path ++ u8 " -> "
                  ++ py_str local_path), w'))
  \/ (exists e w', session w = (Raise e, w')
        /\ copy_file_from_sandbox sandbox_path local_path w
           = (Ret (u8 "复制文件失败: " ++ exn_text e), w')).
Proof.
  intros session. unfold copy_file_from_sandbox, try_except, bind, ret.
  fold session. destruct (session w) as [[[]|e] w'].
  - left. now exists w'.
  - right. now exists e, w'.
Qed.

Lemma copy_file_to_sandbox_returns a b w :
  exists text w', copy_file_to_sandbox a b w = (Ret text, w').
Proof.
  destruct (copy_file_to_sandbox_cases a b w) as [(w' & _ & H)|(e & w' & _ & H)];
    rewrite H; eauto.
Qed.

Lemma copy_file_from_sandbox_returns a b w :
  exists text w', copy_file_from_sandbox a b w = (Ret text, w').
Proof.
  destruct (copy_file_from_sandbox_cases a b w)
    as [(w' & _ & H)|(e & w' & _ & H)]; rewrite H; eauto.
Qed.

(** [with SandboxSession(...)] around [session.run]: the three ways
    it can go. *)
Lemma run_session_returns args code libraries w text s1 s2 s3 :
  session_enter args (machine w) = (Ret tt, s1) ->
  session_run code libraries s1 = (Ret text, s2) ->
  session_exit s2 = (Ret tt, s3) ->
  with_session args
    (result <- on_machine (session_run code libraries) ;;
     ret (or_advisory result)) w
  = (Ret (or_advisory text),
     mkWorld s3 (requests w) (notices w) (rendered w) (logged w)).
Proof.
  intros He Hr Hx. unfold with_session, bind, ret, on_machine. simpl.
  rewrite He. simpl. rewrite Hr. simpl. rewrite Hx. reflexivity.
Qed.

Lemma run_session_enter_raises args code libraries w e s1 :
  session_enter args (machine w) = (Raise e, s1) ->
  with_session args
    (result <- on_machine (session_run code libraries) ;;
     ret (or_advisory result)) w
  = (Raise e, mkWorld s1 (requests w) (notices w) (rendered w) (logged w)).
Proof.
  intros He. unfold with_session, on_machine. rewrite He. reflexivity.
Qed.

Lemma run_session_run_raises args code libraries w e s1 s2 :
  session_enter args (machine w) = (Ret tt, s1) ->
  session_run code libraries s1 = (Raise e, s2) ->
  exists e' w',
    with_session args
      (result <- on_machine (session_run code libraries) ;;
       ret (or_advisory result)) w
    = (Raise e', w')
    /\ (fst (session_exit s2) = Ret tt -> e' = e).
Proof.
  intros He Hr. unfold with_session, bind, ret, on_machine. simpl.
  rewrite He. simpl. rewrite Hr. simpl.
  destruct (session_exit s2) as [[[]|e'] s3]; simpl.
  - eexists _, _. split; [reflexivity|]. reflexivity.
  - eexists _, _. split; [reflexivity|]. discriminate.
Qed.

End ProgramFacts.

(* ================================================================= *)
(** ** Loops *)

Ltac quiet_step :=
  match goal with
  | |- quiet (let _ := _ in _) => cbv zeta
  | |- quiet (bind _ _) => apply quiet_bind; intros
  | |- quiet (try_except _ _) => apply quiet_try_except; intros
  | |- quiet (ret _) => apply quiet_ret
  | |- quiet (raise _) => apply quiet_raise
  | |- quiet (of_outcome _) => apply quiet_of_outcome
  | |- quiet (on_machine _) => apply quiet_on_machine
  | |- quiet (read_machine _) => apply quiet_read_machine
  | |- quiet (consult _) => apply quiet_consult
  | |- quiet (copy_file_to_sandbox _ _) => apply quiet_copy_file_to_sandbox
  | |- quiet (copy_file_from_sandbox _ _) =>
    apply quiet_copy_file_from_sandbox
  | |- quiet (Cli.run_code _ _ _) => apply quiet_cli_run_code
  | |- quiet (App.run_code _ _ _) => apply quiet_app_run_code
  | |- quiet (App.st_info _) => apply quiet_st_info
  | |- quiet (App.st_warning _) => apply quiet_st_warning
  | |- quiet (App.write_log _) => apply quiet_write_log
  | |- quiet (App.update_results _) => apply quiet_update_results
  | |- quiet (if ?b then _ else _) => destruct b
  | |- quiet (match ?x with _ => _ end) => destruct x
  end.

Ltac invert_binds :=
  repeat match goal with
    | H : bind _ _ _ = (Ret _, _) |- _ =>
      let a := fresh "a" in
      let w := fresh "w" in
      let E := fresh "E" in
      apply bind_ret_inv in H as (a & w & E & H)
    | H : ret _ _ = (Ret _, _) |- _ => inversion H; subst; clear H
    | H : raise _ _ = (Ret _, _) |- _ => discriminate H
    end.

Ltac invert_steps :=
  repeat match goal with
    | H : bind _ _ _ = (Ret _, _) |- _ =>
      let a := fresh "a" in
      let w := fresh "w" in
      let E := fresh "E" in
      apply bind_ret_inv in H as (a & w & E & H)
    | H : ret _ _ = (Ret _, _) |- _ => inversion H; subst; clear H
    | H : raise _ _ = (Ret _, _) |- _ => discriminate H
    | H : of_outcome _ _ = (Ret _, _) |- _ =>
      unfold of_outcome in H; inversion H; subst; clear H
    | H : App.update_results _ _ = (Ret _, _) |- _ =>
      let Hd := fresh "Hd" in
      apply update_results_inv in H as [Hd ->]
    | H : App.write_log _ _ = (Ret _, _) |- _ =>
      unfold App.write_log in H; inversion H; subst; clear H
    end.

Section LoopFacts.
Context {S : Type} {srv : Services S}.
Local Abbreviation M := (Prog S).

Lemma for_each_app {A L} (body : A -> L -> M L) pre post l w l1 w1 :
  for_each body pre l w = (Ret l1, w1) ->
  for_each body (pre ++ post) l w = for_each body post l1 w1.
Proof.
  revert l w. induction pre as [|x pre IH]; intros l w H; simpl in *.
  - inversion H. reflexivity.
  - apply bind_ret_inv in H as (l2 & w2 & E & H).
    rewrite (bind_ret _ _ _ E). now apply IH.
Qed.

(** An exception in one pass of a [for] ends the [for]. *)
Lemma for_each_raises {A L} (body : A -> L -> M L) pre x post l w l1 w1 e w2 :
  for_each body pre l w = (Ret l1, w1) ->
  body x l1 w1 = (Raise e, w2) ->
  for_each body (pre ++ x :: post) l w = (Raise e, w2).
Proof.
  intros Hpre Hx. rewrite (for_each_app _ _ _ _ _ Hpre). simpl.
  now apply bind_raise.
Qed.

Lemma for_each_raise_inv {A L} (body : A -> L -> M L) items :
  forall l w e w',
    for_each body items l w = (Raise e, w') ->
    exists pre x post l1 w1,
      items = pre ++ x :: post
      /\ for_each body pre l w = (Ret l1, w1)
      /\ body x l1 w1 = (Raise e, w').
Proof.
  induction items as [|x items IH]; intros l w e w' H; simpl in H.
  - discriminate.
  - unfold bind in H. destruct (body x l w) as [[l1|e1] w1] eqn:Eb.
    + apply IH in H as (pre & y & post & l2 & w2 & -> & Hpre & Hy).
      exists (x :: pre), y, post, l2, w2. split; [reflexivity|].
      split; [|exact Hy]. simpl. now rewrite (bind_ret _ _ _ Eb).
    + inversion H; subst. exists [], x, items, l, w. auto.
Qed.

Lemma while_true_eq {L R} (body : L -> M (LoopStep L R)) fuel l w :
  while_true (Datatypes.S fuel) body l w
  = match body l w with
    | (Raise e, w1) => Some (mkRun 0 (Raise e) w1)
    | (Ret (Break r), w1) => Some (mkRun 0 (Ret r) w1)
    | (Ret (Continue l1), w1) =>
      match while_true fuel body l1 w1 with
      | Some run =>
        Some (mkRun (Datatypes.S (rounds run)) (ended run) (final run))
      | None => None
      end
    end.
Proof. reflexivity. Qed.

Lemma while_true_more {L R} (body : L -> M (LoopStep L R)) fuel fuel' l w run :
  while_true fuel body l w = Some run -> fuel <= fuel' ->
  while_true fuel' body l w = Some run.
Proof.
  revert fuel' l w run.
  induction fuel as [|fuel IH]; intros fuel' l w run H Hle; [discriminate|].
  destruct fuel' as [|fuel']; [lia|]. simpl in *.
  destruct (body l w) as [[[l1|r]|e] w1]; try exact H.
  destruct (while_true fuel body l1 w1) as [run1|] eqn:E; [|discriminate].
  rewrite (IH fuel' _ _ _ E) by lia. exact H.
Qed.

Section AnyLoop.
Variables (L R : Type) (turn : L -> M (LoopStep L R)).
Variable msgs : L -> list Message.
Hypothesis turn_requests :
  forall l w, requests (snd (turn l w)) = requests w ++ [msgs l].

Lemma while_chained :
  (forall l w l' w',
     turn l w = (Ret (Continue l'), w') ->
     extends (length (requests w)) (msgs l) (msgs l')) ->
  forall fuel l w run,
    while_true fuel turn l w = Some run ->
    exists rest,
      requests (final run) = requests w ++ msgs l :: rest
      /\ chained (length (requests w)) (msgs l :: rest).
Proof.
  intros Hcont. induction fuel as [|fuel IH]; intros l w run H; [discriminate|].
  simpl in H. pose proof (turn_requests l w) as Hreq.
  destruct (turn l w) as [[[l1|r]|e] w1] eqn:Et; simpl in Hreq.
  - destruct (while_true fuel turn l1 w1) as [run1|] eqn:E; [|discriminate].
    inversion H; subst; clear H. simpl.
    destruct (IH _ _ _ E) as (rest & Hfin & Hch).
    exists (msgs l1 :: rest). split.
    + rewrite Hfin, Hreq, <- app_assoc. reflexivity.
    + rewrite Hreq, length_app, Nat.add_1_r in Hch.
      split; [|exact Hch]. eapply Hcont. exact Et.
  - inversion H; subst; clear H. simpl. exists []. now rewrite Hreq.
  - inversion H; subst; clear H. simpl. exists []. now rewrite Hreq.
Qed.

Variable inv : L -> Prop.
Variable fin : ChatCompletionMessage -> R -> Prop.
Variables blame blame_final : nat -> exn -> World S -> Prop.

Lemma tool_turns_step N k :
  tool_turns (Datatypes.S N) k -> tool_turns N (Datatypes.S k).
Proof.
  intros [Ht Hf]. split.
  - intros i conv Hi. destruct (Ht (Datatypes.S i) conv) as (m & Hm & Hc); [lia|].
    exists m. split; [|exact Hc]. rewrite <- Hm. f_equal. lia.
  - intros conv. destruct (Hf conv) as (m & Hm & Hc).
    exists m. split; [|exact Hc]. rewrite <- Hm. f_equal. lia.
Qed.

(** Against a model that asks for tools [N] times and then answers,
    the loop has ended after [N + 1] passes: in a pass with tool calls
    that raised, in the last pass raising, or in the last pass
    returning. *)
Lemma while_rounds :
  (forall l w m,
     inv l -> chat_model (length (requests w)) (msgs l) = Ret m ->
     has_tool_calls m = true ->
     match turn l w with
     | (Raise e, w1) => blame (length (requests w)) e w1
     | (Ret (Continue l'), _) => inv l'
     | (Ret (Break _), _) => False
     end) ->
  (forall l w m,
     inv l -> chat_model (length (requests w)) (msgs l) = Ret m ->
     has_tool_calls m = false ->
     match turn l w with
     | (Raise e, w1) => blame_final (length (requests w)) e w1
     | (Ret (Break r), _) => fin m r
     | (Ret (Continue _), _) => False
     end) ->
  forall N l w,
    inv l -> tool_turns N (length (requests w)) ->
    exists run,
      while_true (Datatypes.S N) turn l w = Some run
      /\ rounds run <= N
      /\ length (requests (final run)) = length (requests w) + rounds run + 1
      /\ match ended run with
         | Raise e =>
           (rounds run < N
            /\ blame (length (requests w) + rounds run) e (final run))
           \/ (rounds run = N
               /\ blame_final (length (requests w) + N) e (final run))
         | Ret r =>
           rounds run = N
           /\ exists m,
                chat_model (length (requests w) + N)
                  (last (requests (final run)) []) = Ret m
                /\ has_tool_calls m = false /\ fin m r
         end.
Proof.
  intros Htools Hfinal.
  induction N as [|N IH]; intros l w Hinv Hturns.
  - destruct Hturns as [_ Hf]. destruct (Hf (msgs l)) as (m & Hm & Hc).
    rewrite Nat.add_0_r in Hm.
    pose proof (turn_requests l w) as Hreq.
    specialize (Hfinal l w m Hinv Hm Hc). rewrite while_true_eq.
    destruct (turn l w) as [[[l1|r]|e] w1]; simpl in Hreq; [contradiction| |].
    + eexists. split; [reflexivity|]. simpl. split; [lia|].
      rewrite Hreq, length_app. simpl. split; [lia|]. split; [reflexivity|].
      exists m. rewrite last_last, Nat.add_0_r. auto.
    + eexists. split; [reflexivity|]. simpl. split; [lia|].
      rewrite Hreq, length_app. simpl. split; [lia|]. right.
      rewrite Nat.add_0_r. auto.
  - pose proof Hturns as [Ht _].
    destruct (Ht 0 (msgs l)) as (m & Hm & Hc); [lia|].
    rewrite Nat.add_0_r in Hm.
    pose proof (turn_requests l w) as Hreq.
    specialize (Htools l w m Hinv Hm Hc). rewrite while_true_eq.
    destruct (turn l w) as [[[l1|r]|e] w1]; simpl in Hreq; [|contradiction|].
    + assert (Hlen : length (requests w1) = Datatypes.S (length (requests w))).
      { rewrite Hreq, length_app. simpl. lia. }
      destruct (IH l1 w1 Htools) as (run & Hrun & Hle & Hn & Hres).
      { rewrite Hlen. now apply tool_turns_step. }
      rewrite Hrun. eexists. split; [reflexivity|]. simpl. split; [lia|].
      split; [lia|]. rewrite Hlen in Hres.
      destruct (ended run) as [r|e].
      * destruct Hres as (Hr & m' & Hm' & Hc' & Hfin). split; [lia|].
        exists m'.
        replace (length (requests w) + Datatypes.S N)
          with (Datatypes.S (length (requests w)) + N) by lia. auto.
      * destruct Hres as [[Hlt Hb]|[Hr Hb]].
        -- left. split; [lia|].
           replace (length (requests w) + Datatypes.S (rounds run))
             with (Datatypes.S (length (requests w)) + rounds run) by lia.
           exact Hb.
        -- right. split; [lia|].
           replace (length (requests w) + Datatypes.S N)
             with (Datatypes.S (length (requests w)) + N) by lia.
           exact Hb.
    + eexists. split; [reflexivity|]. simpl. split; [lia|].
      rewrite Hreq, length_app. simpl. split; [lia|]. left.
      split; [lia|]. rewrite Nat.add_0_r. exact Htools.
Qed.

End AnyLoop.
End LoopFacts.

(* ================================================================= *)
(** ** The console loop *)

Section CliFacts.
Context {S : Type} {srv : Services S}.
Local Abbreviation M := (Prog S).

Lemma cli_receive_eq (l : Cli.Locals) (w : World S) :
  Cli.receive l w
  = (match chat_model (length (requests w)) (Cli.messages l) with
     | Ret m =>
       Ret (m, Cli.mkLocals (Cli.messages l ++ [Response m]) (Cli.result l)
                 (Cli.generated_files l))
     | Raise e => Raise e
     end,
     mkWorld (machine w) (requests w ++ [Cli.messages l]) (notices w)
       (rendered w) (logged w)).
Proof.
  unfold Cli.receive, bind, chat_completions_create, ret.
  destruct (chat_model _ _); reflexivity.
Qed.

Lemma cli_dispatch_quiet tc l : quiet (Cli.dispatch tc l).
Proof. unfold Cli.dispatch. repeat quiet_step. Qed.

Lemma cli_dispatch_ret tc l w l' w' :
  Cli.dispatch tc l w = (Ret l', w') ->
  exists r,
    l' = Cli.mkLocals (Cli.messages l ++ [tool_message tc r]) (Some r)
           (Cli.generated_files l).
Proof.
  unfold Cli.dispatch. intros H.
  apply bind_ret_inv in H as (args & w1 & _ & H).
  apply bind_ret_inv in H as (bound & w2 & _ & H).
  destruct bound as [r|]; [|discriminate].
  inversion H. now exists r.
Qed.

(** [dispatch] on each of its four branches, once the arguments have
    parsed. *)
Lemma cli_dispatch_run_code tc l w items :
  tc_name tc = u8 "run_code" ->
  json_loads (tc_arguments tc) = Ret (PyDict items) ->
  Cli.dispatch tc l w
  = bind (Cli.run_code (dict_lookup (u8 "lang") items)
            (dict_lookup (u8 "code") items)
            (dict_lookup (u8 "libraries") items))
      (fun r =>
         ret (Cli.mkLocals (Cli.messages l ++ [tool_message tc r]) (Some r)
                (Cli.generated_files l))) w.
Proof.
  intros Hn Hj. unfold Cli.dispatch. cbv zeta. rewrite Hn, Hj.
  change (str_eqb (u8 "run_code") (u8 "run_code")) with true.
  unfold bind, of_outcome, py_get, ret. cbv beta iota.
  destruct (Cli.run_code _ _ _ w) as [[r|e] w']; reflexivity.
Qed.

Lemma cli_dispatch_copy_to tc l w items :
  tc_name tc = u8 "copy_file_to_sandbox" ->
  json_loads (tc_arguments tc) = Ret (PyDict items) ->
  Cli.dispatch tc l w
  = bind (copy_file_to_sandbox (dict_lookup (u8 "local_path") items)
            (dict_lookup (u8 "sandbox_path") items))
      (fun r =>
         ret (Cli.mkLocals (Cli.messages l ++ [tool_message tc r]) (Some r)
                (Cli.generated_files l))) w.
Proof.
  intros Hn Hj. unfold Cli.dispatch. cbv zeta. rewrite Hn, Hj.
  change (str_eqb (u8 "copy_file_to_sandbox") (u8 "run_code")) with false.
  change (str_eqb (u8 "copy_file_to_sandbox") (u8 "copy_file_to_sandbox"))
    with true.
  unfold bind, of_outcome, py_get, ret. cbv beta iota.
  destruct (copy_file_to_sandbox _ _ w) as [[r|e] w']; reflexivity.
Qed.

Lemma cli_dispatch_copy_from tc l w items :
  tc_name tc = u8 "copy_file_from_sandbox" ->
  json_loads (tc_arguments tc) = Ret (PyDict items) ->
  Cli.dispatch tc l w
  = bind (copy_file_from_sandbox (dict_lookup (u8 "sandbox_path") items)
            (dict_lookup (u8 "local_path") items))
      (fun r =>
         ret (Cli.mkLocals (Cli.messages l ++ [tool_message tc r]) (Some r)
                (Cli.generated_files l))) w.
Proof.
  intros Hn Hj. unfold Cli.dispatch. cbv zeta. rewrite Hn, Hj.
  change (str_eqb (u8 "copy_file_from_sandbox") (u8 "run_code")) with false.
  change (str_eqb (u8 "copy_file_from_sandbox") (u8 "copy_file_to_sandbox"))
    with false.
  change (str_eqb (u8 "copy_file_from_sandbox") (u8 "copy_file_from_sandbox"))
    with true.
  unfold bind, of_outcome, py_get, ret. cbv beta iota.
  destruct (copy_file_from_sandbox _ _ w) as [[r|e] w']; reflexivity.
Qed.

Lemma cli_dispatch_unknown tc l w args :
  unknown_tool (tc_name tc) ->
  json_loads (tc_arguments tc) = Ret args ->
  Cli.dispatch tc l w
  = match Cli.result l with
    | None => (Raise (UnboundLocalError "result"), w)
    | Some r =>
      (Ret (Cli.mkLocals (Cli.messages l ++ [tool_message tc r]) (Some r)
              (Cli.generated_files l)), w)
    end.
Proof.
  intros (H1 & H2 & H3) Hj. unfold Cli.dispatch. cbv zeta.
  rewrite Hj, !str_eqb_neq by assumption.
  unfold bind, of_outcome, ret, raise. cbv beta iota.
  destruct (Cli.result l); reflexivity.
Qed.

Lemma answers_tool_message tc r : answers tc (tool_message tc r).
Proof. split; reflexivity. Qed.

Lemma cli_round_ret calls : forall l w l' w',
  for_each Cli.dispatch calls l w = (Ret l', w') ->
  exists tools,
    Cli.messages l' = Cli.messages l ++ tools
    /\ Forall2 answers calls tools
    /\ Cli.generated_files l' = Cli.generated_files l.
Proof.
  induction calls as [|tc calls IH]; intros l w l' w' H; simpl in H.
  - inversion H; subst. exists []. rewrite app_nil_r. auto.
  - apply bind_ret_inv in H as (l1 & w1 & E & H).
    apply cli_dispatch_ret in E as (r & ->).
    apply IH in H as (tools & Hm & Hf & Hg). simpl in *.
    exists (tool_message tc r :: tools). rewrite Hm, <- app_assoc.
    repeat split; auto. constructor; [apply answers_tool_message | exact Hf].
Qed.

(** A copy tool called with a JSON object is dispatched without an
    exception. *)
Lemma cli_harmless_dispatch tc l (w : World S) :
  harmless tc ->
  exists text w',
    Cli.dispatch tc l w
    = (Ret (Cli.mkLocals (Cli.messages l ++ [tool_message tc text])
              (Some text) (Cli.generated_files l)), w').
Proof.
  intros [[Hn|Hn] (items & Hj)].
  - rewrite (cli_dispatch_copy_to _ _ _ Hn Hj).
    match goal with |- context [copy_file_to_sandbox ?a ?b] =>
      destruct (copy_file_to_sandbox_returns a b w) as (text & w' & E) end.
    rewrite (bind_ret _ _ _ E). now exists text, w'.
  - rewrite (cli_dispatch_copy_from _ _ _ Hn Hj).
    match goal with |- context [copy_file_from_sandbox ?a ?b] =>
      destruct (copy_file_from_sandbox_returns a b w) as (text & w' & E) end.
    rewrite (bind_ret _ _ _ E). now exists text, w'.
Qed.

Lemma cli_harmless_round calls :
  Forall harmless calls ->
  forall l (w : World S),
    exists l' w', for_each Cli.dispatch calls l w = (Ret l', w').
Proof.
  induction 1 as [|tc calls Hh _ IH]; intros l w; simpl.
  - eexists _, _. reflexivity.
  - destruct (cli_harmless_dispatch l w Hh) as (text & w1 & Hd).
    rewrite (bind_ret _ _ _ Hd). apply IH.
Qed.

Lemma cli_finish_quiet l r : quiet (Cli.finish l r).
Proof.
  unfold Cli.finish. destruct (Cli.generated_files l); [apply quiet_ret|].
  apply quiet_bind.
  - apply quiet_for_each. intros. unfold Cli.fetch_generated.
    repeat quiet_step.
  - intros. repeat quiet_step.
Qed.

Lemma cli_turn_requests l w :
  requests (snd (Cli.turn l w)) = requests w ++ [Cli.messages l].
Proof.
  unfold Cli.turn, bind. rewrite cli_receive_eq.
  destruct (chat_model _ _) as [m|e]; [|reflexivity]. simpl.
  destruct (has_tool_calls m).
  - match goal with |- context [for_each ?b ?c ?l ?w] =>
      pose proof (quiet_for_each b c cli_dispatch_quiet l w) as Hq;
      destruct (for_each b c l w) as [[l2|e] w2] end; exact Hq.
  - match goal with |- context [Cli.finish ?l ?r ?w] =>
      pose proof (cli_finish_quiet l r w) as Hq;
      destruct (Cli.finish l r w) as [[x|e] w2] end; exact Hq.
Qed.

Lemma cli_turn_continue l w l' w' :
  Cli.turn l w = (Ret (Continue l'), w') ->
  extends (length (requests w)) (Cli.messages l) (Cli.messages l')
  /\ Cli.generated_files l' = Cli.generated_files l.
Proof.
  unfold Cli.turn, bind. rewrite cli_receive_eq.
  destruct (chat_model _ _) as [m|e] eqn:Em; [|discriminate]. simpl.
  destruct (has_tool_calls m) eqn:Ec.
  - match goal with |- context [for_each ?b ?c ?l ?w] =>
      destruct (for_each b c l w) as [[l2|e] w2] eqn:Ef end; [|discriminate].
    intros H. inversion H; subst; clear H.
    apply cli_round_ret in Ef as (tools & Hm & Hf & Hg). simpl in *.
    split; [|exact Hg]. exists m, tools.
    rewrite Hm, <- app_assoc. auto.
  - match goal with |- context [Cli.finish ?l ?r ?w] =>
      destruct (Cli.finish l r w) as [[x|e] w2] end; discriminate.
Qed.

Lemma has_tool_calls_calls m :
  has_tool_calls m = true -> tool_calls m = Some (calls_of m).
Proof.
  unfold has_tool_calls, calls_of. destruct (tool_calls m) as [[|tc calls]|];
    intros H; try discriminate. reflexivity.
Qed.

(** A turn whose dispatches all return goes on to the next model
    call. *)
Lemma cli_turn_goes_on l w m l0 w0 l' w' :
  Cli.receive l w = (Ret (m, l0), w0) ->
  has_tool_calls m = true ->
  for_each Cli.dispatch (calls_of m) l0 w0 = (Ret l', w') ->
  Cli.turn l w = (Ret (Continue l'), w').
Proof.
  intros Hr Hc Hf. unfold Cli.turn. rewrite (bind_ret _ _ _ Hr). simpl.
  rewrite Hc. now rewrite (bind_ret _ _ _ Hf).
Qed.

Lemma cli_turn_raises l w m l0 w0 e w' :
  Cli.receive l w = (Ret (m, l0), w0) ->
  has_tool_calls m = true ->
  for_each Cli.dispatch (calls_of m) l0 w0 = (Raise e, w') ->
  Cli.turn l w = (Raise e, w')
  /\ dispatch_raised Cli.receive Cli.dispatch (length (requests w)) e w'.
Proof.
  intros Hr Hc Hf. split.
  - unfold Cli.turn. rewrite (bind_ret _ _ _ Hr). simpl.
    rewrite Hc. now rewrite (bind_raise _ _ _ Hf).
  - destruct (for_each_raise_inv _ _ _ _ Hf)
      as (pre & tc & post & l1 & w1 & Hcalls & Hpre & Hd).
    exists l, w, m, l0, w0, pre, tc, post, l1, w1.
    split; [reflexivity|]. split; [exact Hr|].
    split; [|split; [exact Hpre | exact Hd]].
    rewrite <- Hcalls. now apply has_tool_calls_calls.
Qed.

Lemma cli_round_returns k conv m calls :
  calls_return (fun _ => True) Cli.dispatch ->
  chat_model k conv = Ret m -> incl calls (calls_of m) ->
  forall l (w : World S),
    exists l' w', for_each Cli.dispatch calls l w = (Ret l', w').
Proof.
  intros Hret Hm. induction calls as [|tc calls IH]; intros Hin l w; simpl.
  - eexists _, _. reflexivity.
  - destruct (Hret k conv m tc l w Hm (Hin tc (or_introl eq_refl)) I)
      as (l1 & w1 & Hd).
    rewrite (bind_ret _ _ _ Hd). apply IH.
    intros x Hx. apply Hin. now right.
Qed.

(** With [generated_files] empty, a turn with tool calls goes round
    again unless a dispatch raises, and a turn without returns the
    content. *)
Lemma cli_turn_tools l w m :
  Cli.generated_files l = [] ->
  chat_model (length (requests w)) (Cli.messages l) = Ret m ->
  has_tool_calls m = true ->
  match Cli.turn l w with
  | (Raise e, w1) =>
    dispatch_raised Cli.receive Cli.dispatch (length (requests w)) e w1
    /\ ~ calls_return (fun _ => True) Cli.dispatch
  | (Ret (Continue l'), _) => Cli.generated_files l' = []
  | (Ret (Break _), _) => False
  end.
Proof.
  intros Hg Hm Hc.
  pose proof (cli_receive_eq l w) as Hr. rewrite Hm in Hr.
  match type of Hr with _ = (Ret (m, ?l0), ?w0) =>
    destruct (for_each Cli.dispatch (calls_of m) l0 w0) as [[l2|e] w2] eqn:Ef
  end.
  - rewrite (cli_turn_goes_on _ _ Hr Hc Ef).
    apply cli_round_ret in Ef as (tools & _ & _ & Hg2). simpl in Hg2.
    congruence.
  - destruct (cli_turn_raises _ _ Hr Hc Ef) as [-> Hb]. split; [exact Hb|].
    intros Hret.
    match type of Ef with for_each _ _ ?l0 ?w0 = _ =>
      edestruct cli_round_returns with (l := l0) (w := w0)
        as (l2 & w3 & E2); [exact Hret | exact Hm | apply incl_refl |] end.
    congruence.
Qed.

Lemma cli_turn_final l w m :
  Cli.generated_files l = [] ->
  chat_model (length (requests w)) (Cli.messages l) = Ret m ->
  has_tool_calls m = false ->
  fst (Cli.turn l w) = Ret (Break (content m)).
Proof.
  intros Hg Hm Hc. unfold Cli.turn, bind. rewrite cli_receive_eq, Hm. simpl.
  rewrite Hc. unfold Cli.finish. simpl. rewrite Hg. reflexivity.
Qed.

(** Whatever the session, what [run_agent] of [excel_process.py]
    returns is the content of the last assistant message as it came:
    [generated_files] stays empty, so no trailer is ever appended. *)
Lemma cli_loop_returns_content fuel : forall l (w : World S) run r,
  Cli.generated_files l = [] ->
  while_true fuel Cli.turn l w = Some run ->
  ended run = Ret r ->
  exists m,
    chat_model (length (requests (final run)) - 1)
      (last (requests (final run)) []) = Ret m
    /\ has_tool_calls m = false /\ r = content m.
Proof.
  induction fuel as [|fuel IH]; intros l w run r Hg H Hend; [discriminate|].
  simpl in H. pose proof (cli_turn_requests l w) as Hreq.
  destruct (chat_model (length (requests w)) (Cli.messages l)) as [m|e] eqn:Em.
  - destruct (has_tool_calls m) eqn:Ec.
    + pose proof (cli_turn_tools l w Hg Em Ec) as Ht.
      destruct (Cli.turn l w) as [[[l1|r1]|e] w1]; simpl in *.
      * destruct (while_true fuel Cli.turn l1 w1) as [run1|] eqn:E1;
          [|discriminate].
        inversion H; subst; clear H. simpl in *.
        exact (IH _ _ _ _ Ht E1 Hend).
      * contradiction.
      * inversion H; subst. discriminate.
    + pose proof (cli_turn_final l w Hg Em Ec) as Hf.
      destruct (Cli.turn l w) as [o w1]; simpl in *; subst o.
      inversion H; subst; clear H. simpl in *. inversion Hend; subst.
      exists m. rewrite Hreq, length_app, last_last. simpl.
      replace (length (requests w) + 1 - 1) with (length (requests w)) by lia.
      auto.
  - exfalso. unfold Cli.turn, bind in H. rewrite cli_receive_eq, Em in H.
    inversion H; subst. discriminate.
Qed.

Lemma cli_prepare_quiet input path : quiet (Cli.prepare input path).
Proof. unfold Cli.prepare. repeat quiet_step. Qed.

(** The conversation the console variant starts from. *)
Lemma cli_prepare_eq input path w :
  exists w',
    Cli.prepare input path w
    = (Ret (Cli.mkLocals
              [RoleContent "user"
                 (input ++
                  match path with
                  | Some (c :: p) =>
                    staged_note
                      (path_join (u8 "/sandbox") (basename (c :: p)))
                  | _ => []
                  end)] None []), w')
    /\ requests w' = requests w.
Proof.
  pose proof (cli_prepare_quiet input path w) as Hq.
  unfold Cli.prepare in *. destruct path as [[|c p]|].
  - exists w. rewrite app_nil_r. auto.
  - destruct (copy_file_to_sandbox_returns (PyStr (c :: p))
                (PyStr (u8 "/sandbox")) w) as (text & w' & E).
    rewrite (bind_ret _ _ _ E) in *. exists w'. split; [reflexivity|].
    exact Hq.
  - exists w. rewrite app_nil_r. auto.
Qed.

Lemma cli_returns_content_only fuel input path (w : World S) run r :
  Cli.run_agent fuel input path w = Some run ->
  ended run = Ret r ->
  exists m,
    chat_model (length (requests (final run)) - 1)
      (last (requests (final run)) []) = Ret m
    /\ has_tool_calls m = false /\ r = content m.
Proof.
  unfold Cli.run_agent. destruct (cli_prepare_eq input path w) as (w1 & -> & _).
  now apply cli_loop_returns_content.
Qed.

End CliFacts.

(* ================================================================= *)
(** ** The Streamlit loop *)

Section AppFacts.
Context {S : Type} {srv : Services S}.
Local Abbreviation M := (Prog S).

(** A redraw raises at the first entry that cannot be drawn. *)
Lemma update_results_raise l events event (w : World S) e :
  App.all_outputs l = events ++ [event] ->
  Forall (draws (machine w)) events ->
  (forall w1 : World S, machine w1 = machine w ->
                        fst (App.draw event w1) = Raise e) ->
  exists w', App.update_results l w = (Raise e, w').
Proof.
  intros Ho Hd He. rewrite update_results_eq, Ho.
  match goal with |- context [for_each ?b _ tt ?w0] =>
    destruct (paint_eq events w0) as (_ & Hall & _);
    erewrite (for_each_app b events [event]) by (apply Hall; exact Hd) end.
  simpl for_each.
  match goal with |- context [bind (bind (App.draw event) ?k) ?k' ?w1] =>
    specialize (He w1 eq_refl);
    destruct (App.draw event w1) as [o w2] eqn:Ed; simpl in He; subst o;
    exists w2;
    now rewrite (bind_raise _ _ _ (bind_raise _ _ _ Ed)) end.
Qed.

Lemma draw_files_raise pre name post (w : World S) e :
  Forall (opens (machine w)) pre ->
  App.is_image name = true -> st_image name (machine w) = Raise e ->
  fst (App.draw (OutFiles (pre ++ PyStr name :: post)) w) = Raise e.
Proof.
  intros Hp Hi Ho. simpl.
  destruct (draw_files_eq pre w) as [Hw Hr]. apply Hr in Hp.
  destruct (for_each (fun file _ => App.draw_file file) pre tt w)
    as [o w1] eqn:Ef. simpl in Hw, Hp. subst o w1.
  erewrite for_each_raises; [reflexivity | exact Ef |].
  rewrite draw_file_eq, Hi, Ho. reflexivity.
Qed.

(** The top of a pass: the request is logged and sent, the answer
    logged, and the page redrawn when the answer has a text. *)
Lemma app_receive_eq (l : App.Locals) (w : World S) :
  App.receive l w
  = match chat_model (length (requests w)) (App.messages l) with
    | Raise e =>
      (Raise e,
       mkWorld (machine w) (requests w ++ [App.messages l]) (notices w)
         (rendered w) (logged w ++ [LogRequest (App.messages l)]))
    | Ret m =>
      let l0 :=
        App.mkLocals (App.messages l ++ [Response m]) (App.result l)
          (App.generated_files l) (App.all_outputs l ++ narration m)
          (App.step_counter l) in
      let w0 :=
        mkWorld (machine w) (requests w ++ [App.messages l]) (notices w)
          (rendered w)
          ((logged w ++ [LogRequest (App.messages l)]) ++ [LogResponse m]) in
      match narration m with
      | [] => (Ret (m, l0), w0)
      | _ =>
        match App.update_results l0 w0 with
        | (Ret _, w1) => (Ret (m, l0), w1)
        | (Raise e, w1) => (Raise e, w1)
        end
      end
    end.
Proof.
  unfold App.receive, bind, chat_completions_create, App.write_log, ret,
    narration. simpl.
  destruct (chat_model _ _) as [m|e]; simpl; [|reflexivity].
  destruct (content m) as [[|c t]|]; simpl; rewrite ?app_nil_r;
    reflexivity.
Qed.

Lemma app_receive_requests l (w : World S) :
  requests (snd (App.receive l w)) = requests w ++ [App.messages l]
  /\ machine (snd (App.receive l w)) = machine w.
Proof.
  rewrite app_receive_eq.
  destruct (chat_model _ _) as [m|e]; [|split; reflexivity]. cbv zeta.
  destruct (narration m); [split; reflexivity|].
  match goal with |- context [App.update_results ?l0 ?w0] =>
    destruct (update_results_world l0 w0) as (drawn & Hs);
    destruct (App.update_results l0 w0) as [[u|e] w1] end;
    simpl in Hs; subst w1; split; reflexivity.
Qed.

Lemma app_receive_raise l (w : World S) e :
  chat_model (length (requests w)) (App.messages l) = Raise e ->
  exists w',
    App.receive l w = (Raise e, w')
    /\ requests w' = requests w ++ [App.messages l]
    /\ machine w' = machine w.
Proof.
  intros H. rewrite app_receive_eq, H. eexists. split; [reflexivity|].
  split; reflexivity.
Qed.

Lemma app_receive_inv l (w : World S) m l0 w0 :
  App.receive l w = (Ret (m, l0), w0) ->
  chat_model (length (requests w)) (App.messages l) = Ret m
  /\ l0 = App.mkLocals (App.messages l ++ [Response m]) (App.result l)
            (App.generated_files l) (App.all_outputs l ++ narration m)
            (App.step_counter l)
  /\ machine w0 = machine w
  /\ match narration m with
     | [] => rendered w0 = rendered w
     | _ => rendered w0 = App.all_outputs l0
     end.
Proof.
  rewrite app_receive_eq.
  destruct (chat_model _ _) as [m'|e]; [|discriminate]. cbv zeta.
  destruct (narration m') as [|ev evs] eqn:En.
  - intros H. inversion H; subst. rewrite En. auto.
  - match goal with |- context [App.update_results ?l1 ?w1] =>
      destruct (App.update_results l1 w1) as [[u|e] w2] eqn:Eu end;
      [|discriminate].
    apply update_results_inv in Eu as [_ ->].
    intros H. inversion H; subst. rewrite En. auto.
Qed.

Lemma app_receive_ret l (w : World S) m :
  chat_model (length (requests w)) (App.messages l) = Ret m ->
  Forall (draws (machine w)) (App.all_outputs l) ->
  exists w0,
    App.receive l w
    = (Ret (m, App.mkLocals (App.messages l ++ [Response m]) (App.result l)
                 (App.generated_files l) (App.all_outputs l ++ narration m)
                 (App.step_counter l)), w0).
Proof.
  intros Hm Hd. rewrite app_receive_eq, Hm. cbv zeta.
  destruct (narration m) as [|ev evs] eqn:En; [eauto|].
  rewrite update_results_ret; [eauto|]. simpl.
  apply Forall_app. split; [exact Hd|].
  unfold narration in En. destruct (content m) as [[|c t]|]; try discriminate.
  inversion En; subst. repeat constructor.
Qed.

(** [dispatch] on each of its four branches, once the arguments have
    parsed. *)
Lemma app_dispatch_run_code tc l w items :
  tc_name tc = u8 "run_code" ->
  json_loads (tc_arguments tc) = Ret (PyDict items) ->
  let lang := dict_lookup (u8 "lang") items in
  let code := dict_lookup (u8 "code") items in
  let lc :=
    App.mkLocals (App.messages l) (App.result l) (App.generated_files l)
      (App.all_outputs l ++ [OutCode lang code]) (App.step_counter l + 1) in
  App.dispatch tc l w
  = (App.update_results lc ;;;
     r <- App.run_code lang code (dict_lookup (u8 "libraries") items) ;;
     let lr := App.emit (OutResult r) (App.set_result r lc) in
     App.update_results lr ;;;
     App.write_log (LogToolResult (tc_name tc) r) ;;;
     ret (App.mkLocals (App.messages l ++ [tool_message tc r]) (Some r)
            (App.generated_files l) (App.all_outputs lr)
            (App.step_counter l + 1))) w.
Proof.
  intros Hn Hj. unfold App.dispatch. cbv zeta. rewrite Hj.
  replace (str_eqb (tc_name tc) (u8 "run_code")) with true
    by (now rewrite Hn).
  unfold bind, of_outcome, py_get, ret, App.write_log.
  cbv beta iota.
  destruct (App.update_results _ w) as [[[]|e] w1]; [|reflexivity].
  destruct (App.run_code _ _ _ w1) as [[r|e] w2]; [|reflexivity].
  destruct (App.update_results _ w2) as [[[]|e] w3]; reflexivity.
Qed.

Lemma app_dispatch_copy_to tc l w items :
  tc_name tc = u8 "copy_file_to_sandbox" ->
  json_loads (tc_arguments tc) = Ret (PyDict items) ->
  App.dispatch tc l w
  = (r <- copy_file_to_sandbox (dict_lookup (u8 "local_path") items)
            (dict_lookup (u8 "sandbox_path") items) ;;
     let lr :=
       App.mkLocals (App.messages l) (Some r) (App.generated_files l)
         (App.all_outputs l ++ [OutInfo r]) (App.step_counter l + 1) in
     App.update_results lr ;;;
     App.write_log (LogToolResult (tc_name tc) r) ;;;
     ret (App.mkLocals (App.messages l ++ [tool_message tc r]) (Some r)
            (App.generated_files l) (App.all_outputs lr)
            (App.step_counter l + 1))) w.
Proof.
  intros Hn Hj. unfold App.dispatch. cbv zeta. rewrite Hj.
  replace (str_eqb (tc_name tc) (u8 "run_code")) with false
    by (now rewrite Hn).
  replace (str_eqb (tc_name tc) (u8 "copy_file_to_sandbox")) with true
    by (now rewrite Hn).
  unfold bind, of_outcome, py_get, ret, App.write_log.
  cbv beta iota.
  destruct (copy_file_to_sandbox _ _ _) as [[r|e] w1]; [|reflexivity].
  destruct (App.update_results _ w1) as [[[]|e] w2]; reflexivity.
Qed.

Lemma app_dispatch_copy_from tc l w items :
  tc_name tc = u8 "copy_file_from_sandbox" ->
  json_loads (tc_arguments tc) = Ret (PyDict items) ->
  let local_path := dict_lookup (u8 "local_path") items in
  App.dispatch tc l w
  = (r <- copy_file_from_sandbox (dict_lookup (u8 "sandbox_path") items)
            local_path ;;
     let lr :=
       App.mkLocals (App.messages l) (Some r)
         (App.generated_files l ++ [local_path])
         (App.all_outputs l ++ [OutInfo r]) (App.step_counter l + 1) in
     App.update_results lr ;;;
     App.write_log (LogToolResult (tc_name tc) r) ;;;
     ret (App.mkLocals (App.messages l ++ [tool_message tc r]) (Some r)
            (App.generated_files lr) (App.all_outputs lr)
            (App.step_counter l + 1))) w.
Proof.
  intros Hn Hj. unfold App.dispatch. cbv zeta. rewrite Hj.
  replace (str_eqb (tc_name tc) (u8 "run_code")) with false
    by (now rewrite Hn).
  replace (str_eqb (tc_name tc) (u8 "copy_file_to_sandbox")) with false
    by (now rewrite Hn).
  replace (str_eqb (tc_name tc) (u8 "copy_file_from_sandbox")) with true
    by (now rewrite Hn).
  unfold bind, of_outcome, py_get, ret, App.write_log.
  cbv beta iota.
  destruct (copy_file_from_sandbox _ _ _) as [[r|e] w1]; [|reflexivity].
  destruct (App.update_results _ w1) as [[[]|e] w2]; reflexivity.
Qed.

Lemma app_dispatch_unknown tc l w args :
  unknown_tool (tc_name tc) ->
  json_loads (tc_arguments tc) = Ret args ->
  App.dispatch tc l w
  = match App.result l with
    | None => (Raise (UnboundLocalError "result"), w)
    | Some r =>
      (Ret (App.mkLocals (App.messages l ++ [tool_message tc r]) (Some r)
              (App.generated_files l) (App.all_outputs l)
              (App.step_counter l + 1)),
       mkWorld (machine w) (requests w) (notices w) (rendered w)
         (logged w ++ [LogToolResult (tc_name tc) r]))
    end.
Proof.
  intros (H1 & H2 & H3) Hj. unfold App.dispatch. cbv zeta.
  rewrite Hj, !str_eqb_neq by assumption.
  unfold bind, of_outcome, ret, raise, App.write_log. cbv beta iota.
  simpl. destruct (App.result l); reflexivity.
Qed.

Lemma app_dispatch_quiet tc l : quiet (App.dispatch tc l).
Proof. unfold App.dispatch. repeat quiet_step. Qed.

Lemma app_dispatch_ret tc l w l' w' :
  App.dispatch tc l w = (Ret l', w') ->
  exists r,
    App.messages l' = App.messages l ++ [tool_message tc r]
    /\ App.result l' = Some r.
Proof.
  unfold App.dispatch. intros H. cbv zeta in H.
  apply bind_ret_inv in H as (args & w1 & _ & H).
  apply bind_ret_inv in H as (l1 & w2 & E & H).
  assert (Hm : App.messages l1 = App.messages l).
  { destruct (str_eqb _ _); [|destruct (str_eqb _ _); [|destruct (str_eqb _ _)]];
      invert_binds; reflexivity. }
  destruct (App.result l1) as [r|] eqn:Er; [|discriminate].
  invert_binds. exists r. simpl. rewrite Hm. auto.
Qed.

(** The events a returning dispatch has added to [all_outputs] can be
    drawn again, whatever becomes of the machine. *)
Lemma app_dispatch_outputs tc l (w : World S) l' w' :
  App.dispatch tc l w = (Ret l', w') ->
  exists added,
    App.all_outputs l' = App.all_outputs l ++ added
    /\ forall s, Forall (draws s) added.
Proof.
  unfold App.dispatch. intros H. cbv zeta in H.
  apply bind_ret_inv in H as (args & w1 & _ & H).
  apply bind_ret_inv in H as (l1 & w2 & E & H).
  assert (Ho : exists added,
             App.all_outputs l1 = App.all_outputs l ++ added
             /\ forall s, Forall (draws s) added).
  { destruct (str_eqb _ _); [|destruct (str_eqb _ _); [|destruct (str_eqb _ _)]].
    - invert_steps. simpl in *.
      match goal with
      | Hc : Forall _ (_ ++ [OutCode ?lang ?code])
        |- exists _, (_ ++ _) ++ [OutResult ?r] = _ /\ _ =>
        apply Forall_app in Hc as [_ Hc]; inversion Hc as [|? ? Hs _]; subst;
        exists [OutCode lang code; OutResult r]
      end.
      split; [now rewrite <- app_assoc|].
      intros s. repeat constructor. assumption.
    - invert_steps. simpl. eexists [OutInfo _]. split; [reflexivity|].
      intros s. repeat constructor.
    - invert_steps. simpl. eexists [OutInfo _]. split; [reflexivity|].
      intros s. repeat constructor.
    - invert_steps. simpl. exists []. rewrite app_nil_r. split; [reflexivity|].
      intros s. constructor. }
  destruct (App.result l1) as [r|] eqn:Er; [|discriminate].
  invert_steps. exact Ho.
Qed.

Lemma app_dispatch_drawable tc l (w : World S) l' w' :
  App.dispatch tc l w = (Ret l', w') ->
  drawable (App.all_outputs l) -> drawable (App.all_outputs l').
Proof.
  intros H Hd. apply app_dispatch_outputs in H as (added & -> & Ha).
  intros s. apply Forall_app. split; [apply Hd | apply Ha].
Qed.

Lemma app_round_ret calls : forall l w l' w',
  for_each App.dispatch calls l w = (Ret l', w') ->
  exists tools,
    App.messages l' = App.messages l ++ tools
    /\ Forall2 answers calls tools.
Proof.
  induction calls as [|tc calls IH]; intros l w l' w' H; simpl in H.
  - inversion H; subst. exists []. rewrite app_nil_r. auto.
  - apply bind_ret_inv in H as (l1 & w1 & E & H).
    apply app_dispatch_ret in E as (r & Hm1 & _).
    apply IH in H as (tools & Hm & Hf).
    exists (tool_message tc r :: tools). rewrite Hm, Hm1, <- app_assoc.
    split; auto. constructor; [apply answers_tool_message | exact Hf].
Qed.

Lemma app_round_drawable calls : forall l (w : World S) l' w',
  for_each App.dispatch calls l w = (Ret l', w') ->
  drawable (App.all_outputs l) -> drawable (App.all_outputs l').
Proof.
  induction calls as [|tc calls IH]; intros l w l' w' H Hd; simpl in H.
  - inversion H; subst. exact Hd.
  - apply bind_ret_inv in H as (l1 & w1 & E & H).
    eapply IH; [exact H|]. eapply app_dispatch_drawable; eassumption.
Qed.

(** A copy tool called with a JSON object is dispatched without an
    exception when the events emitted so far can be drawn. *)
Lemma app_harmless_dispatch tc l (w : World S) :
  harmless tc -> drawable (App.all_outputs l) ->
  exists text l' w',
    App.dispatch tc l w = (Ret l', w')
    /\ App.messages l' = App.messages l ++ [tool_message tc text]
    /\ App.all_outputs l' = App.all_outputs l ++ [OutInfo text].
Proof.
  intros [[Hn|Hn] (items & Hj)] Hd.
  - rewrite (app_dispatch_copy_to _ _ _ Hn Hj).
    match goal with |- context [copy_file_to_sandbox ?a ?b] =>
      destruct (copy_file_to_sandbox_returns a b w) as (text & w1 & E) end.
    rewrite (bind_ret _ _ _ E). cbv zeta.
    erewrite bind_ret.
    2:{ apply update_results_ret. simpl. apply Forall_app.
        split; [apply Hd | repeat constructor]. }
    unfold bind, App.write_log, ret. cbv beta iota.
    eexists text, _, _. split; [reflexivity|]. split; reflexivity.
  - rewrite (app_dispatch_copy_from _ _ _ Hn Hj). cbv zeta.
    match goal with |- context [copy_file_from_sandbox ?a ?b] =>
      destruct (copy_file_from_sandbox_returns a b w) as (text & w1 & E) end.
    rewrite (bind_ret _ _ _ E).
    erewrite bind_ret.
    2:{ apply update_results_ret. simpl. apply Forall_app.
        split; [apply Hd | repeat constructor]. }
    unfold bind, App.write_log, ret. cbv beta iota.
    eexists text, _, _. split; [reflexivity|]. split; reflexivity.
Qed.

Lemma app_harmless_round calls :
  Forall harmless calls ->
  forall l (w : World S),
    drawable (App.all_outputs l) ->
    exists l' w',
      for_each App.dispatch calls l w = (Ret l', w')
      /\ drawable (App.all_outputs l').
Proof.
  induction 1 as [|tc calls Hh _ IH]; intros l w Hd; simpl.
  - eexists _, _. split; [reflexivity | exact Hd].
  - destruct (@app_harmless_dispatch tc l w Hh Hd)
      as (text & l1 & w1 & E & _ & Ho).
    rewrite (bind_ret _ _ _ E). apply IH. rewrite Ho.
    apply drawable_snoc; [exact Hd|]. intros s. exact I.
Qed.

Lemma app_round_returns k conv m calls :
  calls_return (fun l => drawable (App.all_outputs l)) App.dispatch ->
  chat_model k conv = Ret m -> incl calls (calls_of m) ->
  forall l (w : World S),
    drawable (App.all_outputs l) ->
    exists l' w', for_each App.dispatch calls l w = (Ret l', w').
Proof.
  intros Hret Hm. induction calls as [|tc calls IH]; intros Hin l w Hd; simpl.
  - eexists _, _. reflexivity.
  - destruct (Hret k conv m tc l w Hm (Hin tc (or_introl eq_refl)) Hd)
      as (l1 & w1 & E).
    rewrite (bind_ret _ _ _ E). apply IH.
    + intros x Hx. apply Hin. now right.
    + eapply app_dispatch_drawable; eassumption.
Qed.

Lemma app_finish_quiet l r : quiet (App.finish l r : M _).
Proof. unfold App.finish. repeat quiet_step. Qed.

Lemma app_turn_requests l w :
  requests (snd (App.turn l w)) = requests w ++ [App.messages l].
Proof.
  unfold App.turn, bind.
  destruct (app_receive_requests l w) as [Hreq _].
  destruct (App.receive l w) as [[[m l0]|e] w1]; [|exact Hreq]. simpl in *.
  destruct (has_tool_calls m).
  - match goal with |- context [for_each ?b ?c ?l ?w] =>
      pose proof (quiet_for_each b c app_dispatch_quiet l w) as Hq;
      destruct (for_each b c l w) as [[l2|e] w2] end; simpl in *; congruence.
  - match goal with |- context [App.finish ?l ?r ?w] =>
      pose proof (app_finish_quiet l r w) as Hq;
      destruct (App.finish l r w) as [[x|e] w2] end; simpl in *; congruence.
Qed.

Lemma app_turn_goes_on l w m l0 w0 l' w' :
  App.receive l w = (Ret (m, l0), w0) ->
  has_tool_calls m = true ->
  for_each App.dispatch (calls_of m) l0 w0 = (Ret l', w') ->
  App.turn l w = (Ret (Continue l'), w').
Proof.
  intros Hr Hc Hf. unfold App.turn. rewrite (bind_ret _ _ _ Hr). simpl.
  rewrite Hc. now rewrite (bind_ret _ _ _ Hf).
Qed.

Lemma app_turn_raises l w m l0 w0 e w' :
  App.receive l w = (Ret (m, l0), w0) ->
  has_tool_calls m = true ->
  for_each App.dispatch (calls_of m) l0 w0 = (Raise e, w') ->
  App.turn l w = (Raise e, w')
  /\ dispatch_raised App.receive App.dispatch (length (requests w)) e w'.
Proof.
  intros Hr Hc Hf. split.
  - unfold App.turn. rewrite (bind_ret _ _ _ Hr). simpl.
    rewrite Hc. now rewrite (bind_raise _ _ _ Hf).
  - destruct (for_each_raise_inv _ _ _ _ Hf)
      as (pre & tc & post & l1 & w1 & Hcalls & Hpre & Hd).
    exists l, w, m, l0, w0, pre, tc, post, l1, w1.
    split; [reflexivity|]. split; [exact Hr|].
    split; [|split; [exact Hpre | exact Hd]].
    rewrite <- Hcalls. now apply has_tool_calls_calls.
Qed.

Lemma app_turn_continue l w l' w' :
  App.turn l w = (Ret (Continue l'), w') ->
  extends (length (requests w)) (App.messages l) (App.messages l').
Proof.
  unfold App.turn. intros H.
  apply bind_ret_inv in H as ([m l0] & w0 & Er & H). simpl in H.
  apply app_receive_inv in Er as (Hm & -> & _).
  destruct (has_tool_calls m) eqn:Ec.
  - apply bind_ret_inv in H as (l2 & w2 & Ef & H).
    inversion H; subst; clear H.
    apply app_round_ret in Ef as (tools & Hmsg & Hf). simpl in *.
    exists m, tools. rewrite Hmsg, <- app_assoc. auto.
  - apply bind_ret_inv in H as (x & w2 & _ & H). discriminate.
Qed.

(** Started with events that can be drawn, a turn with tool calls goes
    round again unless a dispatch raises, and a turn without ends the
    loop, in the value of the [else] branch or in its exception. *)
Lemma app_turn_tools l w m :
  drawable (App.all_outputs l) ->
  chat_model (length (requests w)) (App.messages l) = Ret m ->
  has_tool_calls m = true ->
  match App.turn l w with
  | (Raise e, w1) =>
    dispatch_raised App.receive App.dispatch (length (requests w)) e w1
    /\ ~ calls_return (fun l => drawable (App.all_outputs l)) App.dispatch
  | (Ret (Continue l'), _) => drawable (App.all_outputs l')
  | (Ret (Break _), _) => False
  end.
Proof.
  intros Hd Hm Hc.
  destruct (app_receive_ret l w Hm (Hd (machine w))) as (w0 & Hr).
  match type of Hr with _ = (Ret (m, ?l0), _) =>
    assert (Hd0 : drawable (App.all_outputs l0));
    [|destruct (for_each App.dispatch (calls_of m) l0 w0) as [[l2|e] w2] eqn:Ef]
  end.
  - simpl. intros s. apply Forall_app. split; [apply Hd|].
    unfold narration. destruct (content m) as [[|c t]|]; repeat constructor.
  - rewrite (app_turn_goes_on _ _ Hr Hc Ef).
    eapply app_round_drawable; eassumption.
  - destruct (app_turn_raises _ _ Hr Hc Ef) as [-> Hb]. split; [exact Hb|].
    intros Hret.
    match type of Ef with for_each _ _ ?l0 ?w0 = _ =>
      edestruct app_round_returns with (l := l0) (w := w0)
        as (l2 & w3 & E2);
        [exact Hret | exact Hm | apply incl_refl | exact Hd0 |] end.
    congruence.
Qed.

Lemma app_turn_final l w m :
  drawable (App.all_outputs l) ->
  chat_model (length (requests w)) (App.messages l) = Ret m ->
  has_tool_calls m = false ->
  match App.turn l w with
  | (Raise e, w1) => finish_raised (length (requests w)) e w1
  | (Ret (Break r), _) => True
  | (Ret (Continue _), _) => False
  end.
Proof.
  intros Hd Hm Hc.
  destruct (app_receive_ret l w Hm (Hd (machine w))) as (w0 & Hr).
  unfold App.turn. rewrite (bind_ret _ _ _ Hr). simpl. rewrite Hc.
  match goal with |- context [App.finish ?l0 ?r] =>
    destruct (App.finish l0 r w0) as [[x|e] w2] eqn:Ef end.
  - rewrite (bind_ret _ _ _ Ef). exact I.
  - rewrite (bind_raise _ _ _ Ef).
    eexists l, w, m, _, w0. split; [reflexivity|]. split; [exact Hr|].
    split; [exact Hc | exact Ef].
Qed.

(** The conversation the Streamlit variant starts from. *)
Lemma app_prepare_plain input path (w : World S) :
  path = None \/ path = Some [] ->
  App.prepare input path w
  = (Ret (App.mkLocals
            [RoleContent "system" App.SYSTEM_PROMPT;
             RoleContent "user" input;
             RoleContent "assistant" App.ACKNOWLEDGEMENT] None [] [] 1), w).
Proof. intros [-> | ->]; reflexivity. Qed.

Lemma app_prepare_staged input c p (w : World S) :
  let path : str := c :: p in
  let sandbox_excel_path := path_join (u8 "/sandbox/") (basename path) in
  exists copy_result w1,
    copy_file_to_sandbox (PyStr path) (PyStr (u8 "/sandbox/")) w
    = (Ret copy_result, w1)
    /\ App.prepare input (Some path) w
       = match preview path (basename path) (machine w1) with
         | Ret info =>
           (Ret (App.mkLocals
                   [RoleContent "system"
                      (App.SYSTEM_PROMPT
                         ++ staged_note sandbox_excel_path ++ info);
                    RoleContent "user" input;
                    RoleContent "assistant" App.ACKNOWLEDGEMENT]
                   None [] [] 1),
            with_notices w1 [Info copy_result])
         | Raise e =>
           (Ret (App.mkLocals
                   [RoleContent "system"
                      (App.SYSTEM_PROMPT ++ staged_note sandbox_excel_path);
                    RoleContent "user" input;
                    RoleContent "assistant" App.ACKNOWLEDGEMENT]
                   None [] [] 1),
            with_notices w1
              [Info copy_result;
               Warning (u8 "无法提取Excel预览: " ++ exn_text e)])
         end.
Proof.
  intros path sandbox_excel_path. subst path sandbox_excel_path.
  destruct (copy_file_to_sandbox_returns (PyStr (c :: p))
              (PyStr (u8 "/sandbox/")) w) as (copy_result & w1 & E).
  exists copy_result, w1. split; [exact E|].
  unfold App.prepare. cbv beta iota zeta.
  unfold bind at 1. unfold bind at 1. rewrite E.
  unfold preview, try_except, bind, consult, of_outcome, ret, App.st_info,
    App.st_warning, with_notices, append_to_first. cbv beta iota.
  change (machine (mkWorld (machine w1) (requests w1)
                     (notices w1 ++ [Info copy_result]) (rendered w1)
                     (logged w1))) with (machine w1).
  destruct (read_excel (c :: p) (machine w1)) as [df|e]; cbv beta iota.
  - destruct (App.excel_info (basename (c :: p)) df) as [info|e];
      cbv beta iota.
    + reflexivity.
    + cbn [notices requests machine rendered logged].
      rewrite <- app_assoc. reflexivity.
  - cbn [notices requests machine rendered logged].
    rewrite <- app_assoc. reflexivity.
Qed.

Lemma app_prepare_quiet input path : quiet (App.prepare input path).
Proof. unfold App.prepare. repeat quiet_step. Qed.

End AppFacts.


(* ================================================================= *)
(** ** The tools *)

Section ToolTheorems.
Context {S : Type} {srv : Services S}.

(** C1. When the sandbox session of [run_code] hands back the captured
    text [text] (the session starts, [session.run] returns [text], the
    session is torn down), [run_code] returns the fixed advisory string
    if [text] is empty or holds only whitespace, and [text] itself
    otherwise.  This holds for [run_code] of both files. *)
Theorem run_code_advisory_or_text (lang code libraries : pyval)
  (w : World S) (text : str) (s1 s2 s3 : S) :
  session_run code libraries s1 = (Ret text, s2) ->
  session_exit s2 = (Ret tt, s3) ->
  (session_enter (mkSessionArgs lang (Some false) None) (machine w)
   = (Ret tt, s1) ->
   fst (Cli.run_code lang code libraries w)
   = Ret (if forallb isspace text then ADVISORY else text))
  /\ (session_enter (mkSessionArgs lang (Some false) (Some true)) (machine w)
      = (Ret tt, s1) ->
      fst (App.run_code lang code libraries w)
      = Ret (if forallb isspace text then ADVISORY else text)).
Proof.
  intros Hr Hx. split; intros He.
  - unfold Cli.run_code.
    rewrite (run_session_returns _ _ _ _ He Hr Hx). simpl.
    now rewrite or_advisory_spec.
  - unfold App.run_code.
    rewrite (run_session_returns _ _ _ _ He Hr Hx). simpl.
    now rewrite or_advisory_spec.
Qed.

(** C4. [copy_file_to_sandbox] and [copy_file_from_sandbox] return a
    string on every input and in every world: the success string with
    both paths when the session went through, the failure string with
    the text of the exception when starting the session, the copy or
    the teardown raised.  A tool call to either of them, with
    arguments that parse to a JSON object, is dispatched without an
    exception and its string becomes the Tool message, in both
    files; in [app.py], where the dispatch goes on to redraw the page,
    this is so whenever the events emitted so far can be drawn, and an
    exception that does come out of the dispatch is one the redraw
    raised, after the tool had returned its string. *)
Theorem copy_tools_never_raise :
  (forall (local_path sandbox_path : pyval) (w : World S),
     let session :=
       with_session (mkSessionArgs (PyStr (u8 "python")) None (Some true))
         (on_machine (copy_to_runtime local_path sandbox_path)) in
     (exists w', session w = (Ret tt, w')
        /\ copy_file_to_sandbox local_path sandbox_path w
           = (Ret (u8 "文件已成功复制到沙盒: " ++ py_str local_path
                     ++ u8 " -> " ++ py_str sandbox_path), w'))
     \/ (exists e w', session w = (Raise e, w')
           /\ copy_file_to_sandbox local_path sandbox_path w
              = (Ret (u8 "复制文件失败: " ++ exn_text e), w')))
  /\ (forall (sandbox_path local_path : pyval) (w : World S),
        let session :=
          with_session (mkSessionArgs (PyStr (u8 "python")) None (Some true))
            (on_machine (copy_from_runtime sandbox_path local_path)) in
        (exists w', session w = (Ret tt, w')
           /\ copy_file_from_sandbox sandbox_path local_path w
              = (Ret (u8 "文件已成功从沙盒复制: " ++ py_str sandbox_path
                        ++ u8 " -> " ++ py_str local_path), w'))
        \/ (exists e w', session w = (Raise e, w')
              /\ copy_file_from_sandbox sandbox_path local_path w
                 = (Ret (u8 "复制文件失败: " ++ exn_text e), w')))
  /\ (forall (tc : ToolCall) (items : list (str * pyval)) (w : World S),
        tc_name tc = u8 "copy_file_to_sandbox"
        \/ tc_name tc = u8 "copy_file_from_sandbox" ->
        json_loads (tc_arguments tc) = Ret (PyDict items) ->
        (forall l, exists text w',
           Cli.dispatch tc l w
           = (Ret (Cli.mkLocals (Cli.messages l ++ [tool_message tc text])
                     (Some text) (Cli.generated_files l)), w'))
        /\ (forall l,
              drawable (App.all_outputs l) ->
              exists text l' w',
                App.dispatch tc l w = (Ret l', w')
                /\ App.messages l' = App.messages l ++ [tool_message tc text])
        /\ (forall l e w',
              App.dispatch tc l w = (Raise e, w') ->
              exists text lr w1,
                App.all_outputs lr = App.all_outputs l ++ [OutInfo text]
                /\ App.update_results lr w1 = (Raise e, w'))).
Proof.
  split; [exact copy_file_to_sandbox_cases|].
  split; [exact copy_file_from_sandbox_cases|].
  intros tc items w Hname Hjson.
  assert (Hh : harmless tc) by (split; [exact Hname | now exists items]).
  split; [|split].
  - intros l. now apply cli_harmless_dispatch.
  - intros l Hd.
    destruct (@app_harmless_dispatch _ _ tc l w Hh Hd)
      as (text & l' & w' & E & Hm & _).
    now exists text, l', w'.
  - intros l e w' H. destruct Hname as [Hn|Hn].
    + rewrite (app_dispatch_copy_to _ _ _ Hn Hjson) in H.
      match type of H with context [copy_file_to_sandbox ?a ?b] =>
        destruct (copy_file_to_sandbox_returns a b w) as (text & w1 & E) end.
      rewrite (bind_ret _ _ _ E) in H. cbv zeta in H.
      match type of H with bind (App.update_results ?lr) _ _ = _ =>
        exists text, lr, w1; split; [reflexivity|];
        destruct (update_results_cases lr w1) as [[_ Eu]|(e1 & drawn & Eu)]
      end.
      * rewrite (bind_ret _ _ _ Eu) in H. discriminate.
      * rewrite (bind_raise _ _ _ Eu) in H. inversion H; subst. exact Eu.
    + rewrite (app_dispatch_copy_from _ _ _ Hn Hjson) in H. cbv zeta in H.
      match type of H with context [copy_file_from_sandbox ?a ?b] =>
        destruct (copy_file_from_sandbox_returns a b w) as (text & w1 & E) end.
      rewrite (bind_ret _ _ _ E) in H.
      match type of H with bind (App.update_results ?lr) _ _ = _ =>
        exists text, lr, w1; split; [reflexivity|];
        destruct (update_results_cases lr w1) as [[_ Eu]|(e1 & drawn & Eu)]
      end.
      * rewrite (bind_ret _ _ _ Eu) in H. discriminate.
      * rewrite (bind_raise _ _ _ Eu) in H. inversion H; subst. exact Eu.
Qed.

Lemma sandbox_failure_raises args code libraries (w : World S) e :
  sandbox_failure args code libraries (machine w) e ->
  exists e' w',
    with_session args
      (result <- on_machine (session_run code libraries) ;;
       ret (or_advisory result)) w
    = (Raise e', w')
    /\ (teardown_safe -> e' = e).
Proof.
  intros [(s1 & He)|(s1 & s2 & He & Hr)].
  - rewrite (run_session_enter_raises _ _ _ _ He). eauto.
  - destruct (run_session_run_raises _ _ _ _ He Hr) as (e' & w' & E & Hx).
    exists e', w'. split; [exact E|]. intros Hsafe. apply Hx, Hsafe.
Qed.

Lemma has_tool_calls_cons m pre (tc : ToolCall) post :
  tool_calls m = Some (pre ++ tc :: post) ->
  has_tool_calls m = true /\ calls_of m = pre ++ tc :: post.
Proof.
  intros H. unfold has_tool_calls, calls_of. rewrite H.
  destruct pre; auto.
Qed.

Lemma cli_raise_aborts fuel l (w : World S) m l0 w0 pre tc post l1 w1 e w2 :
  Cli.receive l w = (Ret (m, l0), w0) ->
  tool_calls m = Some (pre ++ tc :: post) ->
  for_each Cli.dispatch pre l0 w0 = (Ret l1, w1) ->
  Cli.dispatch tc l1 w1 = (Raise e, w2) ->
  while_true (Datatypes.S fuel) Cli.turn l w = Some (mkRun 0 (Raise e) w2).
Proof.
  intros Hrecv Hcalls Hpre Hd.
  apply has_tool_calls_cons in Hcalls as [Hc Hl].
  simpl. unfold Cli.turn. rewrite (bind_ret _ _ _ Hrecv). simpl.
  rewrite Hc, Hl.
  rewrite (bind_raise _ _ _ (for_each_raises _ _ _ post _ _ Hpre Hd)).
  reflexivity.
Qed.

Lemma app_raise_aborts fuel l (w : World S) m l0 w0 pre tc post l1 w1 e w2 :
  App.receive l w = (Ret (m, l0), w0) ->
  tool_calls m = Some (pre ++ tc :: post) ->
  for_each App.dispatch pre l0 w0 = (Ret l1, w1) ->
  App.dispatch tc l1 w1 = (Raise e, w2) ->
  while_true (Datatypes.S fuel) App.turn l w = Some (mkRun 0 (Raise e) w2).
Proof.
  intros Hrecv Hcalls Hpre Hd.
  apply has_tool_calls_cons in Hcalls as [Hc Hl].
  simpl. unfold App.turn. rewrite (bind_ret _ _ _ Hrecv). simpl.
  rewrite Hc, Hl.
  rewrite (bind_raise _ _ _ (for_each_raises _ _ _ post _ _ Hpre Hd)).
  reflexivity.
Qed.

(** C8. A sandbox failure under [run_code] (at session start, or in
    [session.run] while installing libraries or running the code) is
    not turned into a tool result: [run_code] raises, and raises that
    very exception unless tearing the session down raises in turn.
    When the failing call is any of the tool calls of a turn, the
    calls before it having been dispatched, the loop ends there with
    an exception, in both files: the one of the sandbox, unless
    teardown raises or, in [app.py], drawing the code block before the
    call has already raised. *)
Theorem run_code_failure_aborts :
  (forall lang code libraries (w : World S) e,
     (sandbox_failure (mkSessionArgs lang (Some false) None) code libraries
        (machine w) e ->
      exists e' w',
        Cli.run_code lang code libraries w = (Raise e', w')
        /\ (teardown_safe -> e' = e))
     /\ (sandbox_failure (mkSessionArgs lang (Some false) (Some true)) code
           libraries (machine w) e ->
         exists e' w',
           App.run_code lang code libraries w = (Raise e', w')
           /\ (teardown_safe -> e' = e)))
  /\ (forall fuel l w m l0 w0 pre tc post items l1 w1 e,
        Cli.receive l w = (Ret (m, l0), w0) ->
        tool_calls m = Some (pre ++ tc :: post) ->
        for_each Cli.dispatch pre l0 w0 = (Ret l1, w1) ->
        tc_name tc = u8 "run_code" ->
        json_loads (tc_arguments tc) = Ret (PyDict items) ->
        sandbox_failure
          (mkSessionArgs (dict_lookup (u8 "lang") items) (Some false) None)
          (dict_lookup (u8 "code") items)
          (dict_lookup (u8 "libraries") items) (machine w1) e ->
        exists e' w2,
          while_true (Datatypes.S fuel) Cli.turn l w
          = Some (mkRun 0 (Raise e') w2)
          /\ (teardown_safe -> e' = e))
  /\ (forall fuel l w m l0 w0 pre tc post items l1 w1 e,
        App.receive l w = (Ret (m, l0), w0) ->
        tool_calls m = Some (pre ++ tc :: post) ->
        for_each App.dispatch pre l0 w0 = (Ret l1, w1) ->
        tc_name tc = u8 "run_code" ->
        json_loads (tc_arguments tc) = Ret (PyDict items) ->
        sandbox_failure
          (mkSessionArgs (dict_lookup (u8 "lang") items) (Some false)
             (Some true))
          (dict_lookup (u8 "code") items)
          (dict_lookup (u8 "libraries") items) (machine w1) e ->
        exists e' w2,
          while_true (Datatypes.S fuel) App.turn l w
          = Some (mkRun 0 (Raise e') w2)
          /\ (Forall (draws (machine w1)) (App.all_outputs l1) ->
              st_code (dict_lookup (u8 "code") items)
                (dict_lookup (u8 "lang") items) = Ret tt ->
              teardown_safe -> e' = e)).
Proof.
  split; [|split].
  - intros lang code libraries w e. split; intros H;
      apply sandbox_failure_raises in H; exact H.
  - intros fuel l w m l0 w0 pre tc post items l1 w1 e
      Hrecv Hcalls Hpre Hn Hj Hfail.
    apply (sandbox_failure_raises w1) in Hfail
      as (e' & w2 & Hrun & Hsafe).
    exists e', w2. split; [|exact Hsafe].
    eapply cli_raise_aborts; [exact Hrecv | exact Hcalls | exact Hpre |].
    rewrite (cli_dispatch_run_code _ _ _ Hn Hj). now apply bind_raise.
  - intros fuel l w m l0 w0 pre tc post items l1 w1 e
      Hrecv Hcalls Hpre Hn Hj Hfail.
    pose (lc :=
      App.mkLocals (App.messages l1) (App.result l1)
        (App.generated_files l1)
        (App.all_outputs l1
           ++ [OutCode (dict_lookup (u8 "lang") items)
                 (dict_lookup (u8 "code") items)])
        (App.step_counter l1 + 1)).
    destruct (update_results_cases lc w1) as [[Hd Eu]|(e' & drawn & Eu)].
    + match type of Eu with _ = (_, ?w1') =>
        destruct (sandbox_failure_raises w1' Hfail)
          as (e' & w2 & Hrun & Hsafe) end.
      exists e', w2. split; [|intros _ _; exact Hsafe].
      eapply app_raise_aborts; [exact Hrecv | exact Hcalls | exact Hpre |].
      rewrite (app_dispatch_run_code _ _ _ Hn Hj). cbv zeta. fold lc.
      rewrite (bind_ret _ _ _ Eu). apply bind_raise. exact Hrun.
    + eexists e', _. split.
      * eapply app_raise_aborts; [exact Hrecv | exact Hcalls | exact Hpre |].
        rewrite (app_dispatch_run_code _ _ _ Hn Hj). cbv zeta. fold lc.
        apply bind_raise. exact Eu.
      * intros Hd Hc _. exfalso.
        assert (Hall : Forall (draws (machine w1)) (App.all_outputs lc)).
        { simpl. apply Forall_app. split; [exact Hd|].
          constructor; [exact Hc | constructor]. }
        rewrite (update_results_ret lc w1 Hall) in Eu. discriminate.
Qed.

Lemma last_tool_text_snoc conv m :
  last_tool_text (conv ++ [m])
  = match tool_text m with
    | Some t => Some t
    | None => last_tool_text conv
    end.
Proof. unfold last_tool_text. rewrite fold_left_app. reflexivity. Qed.

(** C10 (as amended). The local variable [result] is unbound before the
    loop and afterwards holds the text of the most recent Tool message
    of the conversation: receiving a response leaves it alone and every
    dispatch that returns sets it to the text it appended.  A tool call
    with a name outside the three tools, whose arguments parse, is
    dispatched thus: with no Tool message in the conversation yet it
    raises [UnboundLocalError], which ends the loop; otherwise it is
    answered with the text of the most recent Tool message, whichever
    turn that one came from.  In both files. *)
Theorem unknown_tool_reuses_result :
  ((forall input path (w : World S) l w',
      Cli.prepare input path w = (Ret l, w') ->
      Cli.result l = last_tool_text (Cli.messages l))
   /\ (forall l (w : World S) m l0 w0,
         Cli.receive l w = (Ret (m, l0), w0) ->
         Cli.result l = last_tool_text (Cli.messages l) ->
         Cli.result l0 = last_tool_text (Cli.messages l0))
   /\ (forall tc l (w : World S) l' w',
         Cli.dispatch tc l w = (Ret l', w') ->
         Cli.result l' = last_tool_text (Cli.messages l'))
   /\ (forall tc l (w : World S) args,
         unknown_tool (tc_name tc) ->
         json_loads (tc_arguments tc) = Ret args ->
         Cli.result l = last_tool_text (Cli.messages l) ->
         match last_tool_text (Cli.messages l) with
         | None =>
           Cli.dispatch tc l w = (Raise (UnboundLocalError "result"), w)
         | Some r =>
           exists l' w',
             Cli.dispatch tc l w = (Ret l', w')
             /\ Cli.messages l'
                = Cli.messages l ++ [ToolMessage (tc_id tc) (tc_name tc) r]
         end)
   /\ (forall fuel l (w : World S) m l0 w0 pre tc post args l1 w1,
         Cli.receive l w = (Ret (m, l0), w0) ->
         tool_calls m = Some (pre ++ tc :: post) ->
         for_each Cli.dispatch pre l0 w0 = (Ret l1, w1) ->
         unknown_tool (tc_name tc) ->
         json_loads (tc_arguments tc) = Ret args ->
         Cli.result l1 = None ->
         while_true (Datatypes.S fuel) Cli.turn l w
         = Some (mkRun 0 (Raise (UnboundLocalError "result")) w1)))
  /\ ((forall input path (w : World S) l w',
         App.prepare input path w = (Ret l, w') ->
         App.result l = last_tool_text (App.messages l))
      /\ (forall l (w : World S) m l0 w0,
            App.receive l w = (Ret (m, l0), w0) ->
            App.result l = last_tool_text (App.messages l) ->
            App.result l0 = last_tool_text (App.messages l0))
      /\ (forall tc l (w : World S) l' w',
            App.dispatch tc l w = (Ret l', w') ->
            App.result l' = last_tool_text (App.messages l'))
      /\ (forall tc l (w : World S) args,
            unknown_tool (tc_name tc) ->
            json_loads (tc_arguments tc) = Ret args ->
            App.result l = last_tool_text (App.messages l) ->
            match last_tool_text (App.messages l) with
            | None =>
              App.dispatch tc l w = (Raise (UnboundLocalError "result"), w)
            | Some r =>
              exists l' w',
                App.dispatch tc l w = (Ret l', w')
                /\ App.messages l'
                   = App.messages l ++ [ToolMessage (tc_id tc) (tc_name tc) r]
            end)
      /\ (forall fuel l (w : World S) m l0 w0 pre tc post args l1 w1,
            App.receive l w = (Ret (m, l0), w0) ->
            tool_calls m = Some (pre ++ tc :: post) ->
            for_each App.dispatch pre l0 w0 = (Ret l1, w1) ->
            unknown_tool (tc_name tc) ->
            json_loads (tc_arguments tc) = Ret args ->
            App.result l1 = None ->
            while_true (Datatypes.S fuel) App.turn l w
            = Some (mkRun 0 (Raise (UnboundLocalError "result")) w1))).
Proof.
  split; repeat apply conj.
  - intros input path w l w' H.
    destruct (cli_prepare_eq input path w) as (w1 & E & _).
    rewrite E in H. inversion H; subst. reflexivity.
  - intros l w m l0 w0 H Hinv. rewrite cli_receive_eq in H.
    destruct (chat_model _ _); inversion H; subst. simpl.
    now rewrite last_tool_text_snoc.
  - intros tc l w l' w' H. apply cli_dispatch_ret in H as (r & ->). simpl.
    now rewrite last_tool_text_snoc.
  - intros tc l w args Hu Hj Hinv.
    rewrite (cli_dispatch_unknown tc l w Hu Hj), <- Hinv.
    destruct (Cli.result l) as [r|]; [|reflexivity].
    eexists _, _. split; reflexivity.
  - intros fuel l w m l0 w0 pre tc post args l1 w1 Hrecv Hcalls Hpre Hu Hj Hr.
    eapply cli_raise_aborts; [exact Hrecv | exact Hcalls | exact Hpre |].
    now rewrite (cli_dispatch_unknown tc l1 w1 Hu Hj), Hr.
  - intros input path w l w' H. destruct path as [[|c p]|].
    + rewrite app_prepare_plain in H by auto. inversion H. reflexivity.
    + destruct (app_prepare_staged input c p w) as (t & w1 & _ & E).
      pose proof (eq_trans (eq_sym E) H) as H'.
      destruct (preview _ _ _); inversion H'; reflexivity.
    + rewrite app_prepare_plain in H by auto. inversion H. reflexivity.
  - intros l w m l0 w0 H Hinv.
    apply app_receive_inv in H as (_ & -> & _). simpl.
    now rewrite last_tool_text_snoc.
  - intros tc l w l' w' H. apply app_dispatch_ret in H as (r & -> & ->).
    now rewrite last_tool_text_snoc.
  - intros tc l w args Hu Hj Hinv.
    rewrite (app_dispatch_unknown tc l w Hu Hj), <- Hinv.
    destruct (App.result l) as [r|]; [|reflexivity].
    eexists _, _. split; reflexivity.
  - intros fuel l w m l0 w0 pre tc post args l1 w1 Hrecv Hcalls Hpre Hu Hj Hr.
    eapply app_raise_aborts; [exact Hrecv | exact Hcalls | exact Hpre |].
    now rewrite (app_dispatch_unknown tc l1 w1 Hu Hj), Hr.
Qed.

End ToolTheorems.

(* ================================================================= *)
(** ** The loop *)

Section LoopTheorems.
Context {S : Type} {srv : Services S}.

Lemma app_run_agent_eq fuel input path (w : World S) :
  App.run_agent fuel input path w
  = match App.agent_loop fuel input path w with
    | Some run =>
      Some (mkRun (rounds run)
              (match ended run with Ret _ => Ret tt | Raise e => Raise e end)
              (final run))
    | None => None
    end.
Proof. reflexivity. Qed.

Lemma cli_run_agent_more fuel fuel' input path (w : World S) run :
  Cli.run_agent fuel input path w = Some run -> fuel <= fuel' ->
  Cli.run_agent fuel' input path w = Some run.
Proof.
  unfold Cli.run_agent. destruct (Cli.prepare input path w) as [[l|e] w1].
  - apply while_true_more.
  - auto.
Qed.

(** C2. In a pass in which the message of the model carries tool
    calls, every dispatch that returns has appended exactly one Tool
    message, with the identifier and the name of its call.  When the
    dispatches of the pass all return, the pass goes on to the next
    model call, the conversation being the one that was sent, then the
    assistant message, then one Tool message per call in the order of
    the calls; when one of them raises, the pass ends in that
    exception.  The dispatches do all return when the calls are for
    the copy tools with arguments that are JSON objects (in [app.py],
    where each dispatch redraws the page, provided the events emitted
    so far can be drawn).  Hence in every run each conversation sent
    to the model after the first is the one sent before it, followed
    by the answer of the model and by exactly these Tool messages.
    In both files. *)
Theorem tool_messages_follow_calls :
  ((forall tc l (w : World S) l' w',
      Cli.dispatch tc l w = (Ret l', w') ->
      exists text,
        Cli.messages l'
        = Cli.messages l ++ [ToolMessage (tc_id tc) (tc_name tc) text])
   /\ (forall l (w : World S) m l0 w0,
         Cli.receive l w = (Ret (m, l0), w0) ->
         has_tool_calls m = true ->
         match for_each Cli.dispatch (calls_of m) l0 w0 with
         | (Ret l', w') =>
           Cli.turn l w = (Ret (Continue l'), w')
           /\ exists tools,
                Cli.messages l' = Cli.messages l ++ Response m :: tools
                /\ Forall2 answers (calls_of m) tools
         | (Raise e, w') => Cli.turn l w = (Raise e, w')
         end)
   /\ (forall l (w : World S) m,
         chat_model (length (requests w)) (Cli.messages l) = Ret m ->
         has_tool_calls m = true ->
         Forall harmless (calls_of m) ->
         exists l' w' tools,
           Cli.turn l w = (Ret (Continue l'), w')
           /\ Cli.messages l' = Cli.messages l ++ Response m :: tools
           /\ Forall2 answers (calls_of m) tools)
   /\ (forall fuel input path (w : World S) run,
         Cli.run_agent fuel input path w = Some run ->
         exists convs,
           requests (final run) = requests w ++ convs
           /\ chained (length (requests w)) convs))
  /\ ((forall tc l (w : World S) l' w',
         App.dispatch tc l w = (Ret l', w') ->
         exists text,
           App.messages l'
           = App.messages l ++ [ToolMessage (tc_id tc) (tc_name tc) text])
      /\ (forall l (w : World S) m l0 w0,
            App.receive l w = (Ret (m, l0), w0) ->
            has_tool_calls m = true ->
            match for_each App.dispatch (calls_of m) l0 w0 with
            | (Ret l', w') =>
              App.turn l w = (Ret (Continue l'), w')
              /\ exists tools,
                   App.messages l' = App.messages l ++ Response m :: tools
                   /\ Forall2 answers (calls_of m) tools
            | (Raise e, w') => App.turn l w = (Raise e, w')
            end)
      /\ (forall l (w : World S) m,
            chat_model (length (requests w)) (App.messages l) = Ret m ->
            has_tool_calls m = true ->
            Forall harmless (calls_of m) ->
            drawable (App.all_outputs l) ->
            exists l' w' tools,
              App.turn l w = (Ret (Continue l'), w')
              /\ App.messages l' = App.messages l ++ Response m :: tools
              /\ Forall2 answers (calls_of m) tools)
      /\ (forall fuel input path (w : World S) run,
            App.run_agent fuel input path w = Some run ->
            exists convs,
              requests (final run) = requests w ++ convs
              /\ chained (length (requests w)) convs)).
Proof.
  assert (Hcli : forall l (w : World S) m l0 w0,
            Cli.receive l w = (Ret (m, l0), w0) ->
            has_tool_calls m = true ->
            match for_each Cli.dispatch (calls_of m) l0 w0 with
            | (Ret l', w') =>
              Cli.turn l w = (Ret (Continue l'), w')
              /\ exists tools,
                   Cli.messages l' = Cli.messages l ++ Response m :: tools
                   /\ Forall2 answers (calls_of m) tools
            | (Raise e, w') => Cli.turn l w = (Raise e, w')
            end).
  { intros l w m l0 w0 Hr Hc.
    destruct (for_each Cli.dispatch (calls_of m) l0 w0) as [[l'|e] w'] eqn:Ef.
    - split; [exact (cli_turn_goes_on _ _ Hr Hc Ef)|].
      apply cli_round_ret in Ef as (tools & Hm & Hf & _). exists tools.
      split; [|exact Hf]. rewrite Hm. rewrite cli_receive_eq in Hr.
      destruct (chat_model _ _); inversion Hr; subst. simpl.
      now rewrite <- app_assoc.
    - exact (proj1 (cli_turn_raises _ _ Hr Hc Ef)). }
  assert (Happ : forall l (w : World S) m l0 w0,
            App.receive l w = (Ret (m, l0), w0) ->
            has_tool_calls m = true ->
            match for_each App.dispatch (calls_of m) l0 w0 with
            | (Ret l', w') =>
              App.turn l w = (Ret (Continue l'), w')
              /\ exists tools,
                   App.messages l' = App.messages l ++ Response m :: tools
                   /\ Forall2 answers (calls_of m) tools
            | (Raise e, w') => App.turn l w = (Raise e, w')
            end).
  { intros l w m l0 w0 Hr Hc.
    destruct (for_each App.dispatch (calls_of m) l0 w0) as [[l'|e] w'] eqn:Ef.
    - split; [exact (app_turn_goes_on _ _ Hr Hc Ef)|].
      apply app_round_ret in Ef as (tools & Hm & Hf). exists tools.
      split; [|exact Hf]. rewrite Hm.
      apply app_receive_inv in Hr as (_ & -> & _). simpl.
      now rewrite <- app_assoc.
    - exact (proj1 (app_turn_raises _ _ Hr Hc Ef)). }
  split; repeat apply conj.
  - intros tc l w l' w' H. apply cli_dispatch_ret in H as (r & ->).
    now exists r.
  - exact Hcli.
  - intros l w m Hm Hc Hh.
    pose proof (cli_receive_eq l w) as Hr. rewrite Hm in Hr.
    specialize (Hcli _ _ _ _ _ Hr Hc).
    match type of Hr with _ = (Ret (m, ?l0), ?w0) =>
      destruct (cli_harmless_round Hh l0 w0) as (l' & w' & Ef) end.
    rewrite Ef in Hcli. destruct Hcli as (Ht & tools & Hmsg & Hf).
    now exists l', w', tools.
  - intros fuel input path w run H. unfold Cli.run_agent in H.
    destruct (cli_prepare_eq input path w) as (w1 & E & Hq).
    rewrite E in H.
    eapply (while_chained Cli.turn Cli.messages cli_turn_requests) in H.
    + destruct H as (rest & Hf & Hc). rewrite Hq in *. eauto.
    + intros l0 w0 l' w' Ht. now apply cli_turn_continue in Ht.
  - intros tc l w l' w' H. apply app_dispatch_ret in H as (r & -> & _).
    now exists r.
  - exact Happ.
  - intros l w m Hm Hc Hh Hd.
    destruct (app_receive_ret l w Hm (Hd (machine w))) as (w0 & Hr).
    specialize (Happ _ _ _ _ _ Hr Hc).
    match type of Hr with _ = (Ret (m, ?l0), _) =>
      destruct (app_harmless_round Hh l0 w0) as (l' & w' & Ef & _) end.
    { simpl. intros s. apply Forall_app. split; [apply Hd|].
      unfold narration. destruct (content m) as [[|c t]|]; repeat constructor. }
    rewrite Ef in Happ. destruct Happ as (Ht & tools & Hmsg & Hf).
    now exists l', w', tools.
  - intros fuel input path w run H. rewrite app_run_agent_eq in H.
    unfold App.agent_loop in H.
    pose proof (app_prepare_quiet input path w) as Hq.
    destruct (App.prepare input path w) as [[l|e] w1]; simpl in Hq.
    + destruct (while_true fuel App.turn l w1) as [run1|] eqn:E;
        [|discriminate].
      inversion H; subst; clear H. simpl.
      eapply (while_chained App.turn App.messages app_turn_requests) in E.
      * destruct E as (rest & Hf & Hc). rewrite Hq in *. eauto.
      * intros l0 w0 l' w' Ht. now apply app_turn_continue in Ht.
    + inversion H; subst; clear H. simpl. exists []. rewrite app_nil_r.
      split; [exact Hq | exact I].
Qed.

Lemma app_prepare_drawable input path (w : World S) l w' :
  App.prepare input path w = (Ret l, w') -> App.all_outputs l = [].
Proof.
  intros H. destruct path as [[|c p]|].
  - rewrite app_prepare_plain in H by auto. inversion H. reflexivity.
  - destruct (app_prepare_staged input c p w) as (t & w1 & _ & E).
    pose proof (eq_trans (eq_sym E) H) as H'.
    destruct (preview _ _ _); inversion H'; reflexivity.
  - rewrite app_prepare_plain in H by auto. inversion H. reflexivity.
Qed.

(** C3 (as amended). When the model answers with tool calls for [N]
    requests and without tool calls to the next one, the loop ends
    within [N + 1] passes, whatever larger bound it is given, having
    sent one request per pass.  If it ends in an exception before [N]
    dispatch rounds are completed, a dispatch of that pass raised this
    exception, the message of the model having been received and the
    calls before it dispatched; so when the tool calls of the model are
    all dispatched without an exception, [N] rounds are completed and
    [N + 1] requests sent.  After [N] rounds [run_agent] of
    [excel_process.py] returns the content of the last assistant
    message.  In [app.py] the last pass either raises in the [else]
    branch or ends the loop, and [run_agent] returns no value. *)
Theorem loop_ends_after_tool_turns (N : nat) (input : str)
  (path : option str) (w : World S) :
  tool_turns N (length (requests w)) ->
  (exists run,
     (forall fuel, N < fuel -> Cli.run_agent fuel input path w = Some run)
     /\ rounds run <= N
     /\ length (requests (final run)) = length (requests w) + rounds run + 1
     /\ match ended run with
        | Raise e =>
          rounds run < N
          /\ dispatch_raised Cli.receive Cli.dispatch
               (length (requests w) + rounds run) e (final run)
        | Ret r =>
          rounds run = N
          /\ exists m,
               chat_model (length (requests w) + N)
                 (last (requests (final run)) []) = Ret m
               /\ has_tool_calls m = false
               /\ r = content m
        end
     /\ (calls_return (fun _ => True) Cli.dispatch ->
         rounds run = N
         /\ length (requests (final run)) = length (requests w) + N + 1
         /\ exists m,
              chat_model (length (requests w) + N)
                (last (requests (final run)) []) = Ret m
              /\ has_tool_calls m = false
              /\ ended run = Ret (content m)))
  /\ (exists run,
        (forall fuel, N < fuel -> App.run_agent fuel input path w = Some run)
        /\ rounds run <= N
        /\ length (requests (final run))
           = length (requests w) + rounds run + 1
        /\ match ended run with
           | Raise e =>
             (rounds run < N
              /\ dispatch_raised App.receive App.dispatch
                   (length (requests w) + rounds run) e (final run))
             \/ (rounds run = N
                 /\ finish_raised (length (requests w) + N) e (final run))
           | Ret _ => rounds run = N
           end
        /\ (calls_return (fun l => drawable (App.all_outputs l)) App.dispatch ->
            rounds run = N
            /\ length (requests (final run)) = length (requests w) + N + 1)).
Proof.
  intros Hturns. split.
  - destruct (cli_prepare_eq input path w) as (w1 & E & Hq).
    destruct (while_rounds Cli.turn Cli.messages cli_turn_requests
                (fun l => Cli.generated_files l = [])
                (fun m r => r = content m)
                (fun k e w' =>
                   dispatch_raised Cli.receive Cli.dispatch k e w'
                   /\ ~ calls_return (fun _ => True) Cli.dispatch)
                (fun _ _ _ => False)) with (N := N) (w := w1)
      (l := Cli.mkLocals
              [RoleContent "user"
                 (input ++
                  match path with
                  | Some (c :: p) =>
                    staged_note
                      (path_join (u8 "/sandbox") (basename (c :: p)))
                  | _ => []
                  end)] None [])
      as (run & Hrun & Hle & Hn & Hres).
    + intros l0 w0 m Hg Hm Hc. exact (cli_turn_tools l0 w0 Hg Hm Hc).
    + intros l0 w0 m Hg Hm Hc.
      pose proof (cli_turn_final l0 w0 Hg Hm Hc) as Hf.
      destruct (Cli.turn l0 w0) as [o w2]. simpl in Hf. subst o. reflexivity.
    + reflexivity.
    + now rewrite Hq.
    + exists run. rewrite Hq in *. split; [|split; [exact Hle|split; [exact Hn|]]].
      * intros fuel Hf. unfold Cli.run_agent. rewrite E.
        apply (while_true_more _ _ _ Hrun). lia.
      * destruct (ended run) as [r|e].
        -- split; [exact Hres|]. intros _.
           destruct Hres as (Hr & m & Hm & Hc & ->).
           split; [exact Hr|]. split; [now rewrite Hn, Hr|]. now exists m.
        -- destruct Hres as [[Hlt [Hb Hnot]]|[_ []]].
           split; [split; [exact Hlt | exact Hb]|].
           intros Hret. contradiction.
  - pose proof (app_prepare_quiet input path w) as Hq.
    destruct (App.prepare input path w) as [[l|e] w1] eqn:E; simpl in Hq.
    + destruct (while_rounds App.turn App.messages app_turn_requests
                  (fun l => drawable (App.all_outputs l)) (fun _ _ => True)
                  (fun k e w' =>
                     dispatch_raised App.receive App.dispatch k e w'
                     /\ ~ calls_return
                            (fun l => drawable (App.all_outputs l))
                            App.dispatch)
                  finish_raised) with (N := N) (w := w1) (l := l)
        as (run & Hrun & Hle & Hn & Hres).
      * intros l0 w0 m Hd Hm Hc. exact (app_turn_tools l0 w0 Hd Hm Hc).
      * intros l0 w0 m Hd Hm Hc. exact (app_turn_final l0 w0 Hd Hm Hc).
      * rewrite (app_prepare_drawable _ _ _ E). apply drawable_nil.
      * now rewrite Hq.
      * exists (mkRun (rounds run)
                  (match ended run with Ret _ => Ret tt | Raise e => Raise e end)
                  (final run)).
        rewrite Hq in *. split; [|split; [exact Hle|split; [exact Hn|]]].
        -- intros fuel Hf. rewrite app_run_agent_eq. unfold App.agent_loop.
           rewrite E. rewrite (while_true_more _ _ _ Hrun) by lia. reflexivity.
        -- simpl. destruct (ended run) as [r|e0].
           ++ destruct Hres as [Hr _]. split; [exact Hr|]. intros _.
              split; [exact Hr | now rewrite Hn, Hr].
           ++ destruct Hres as [[Hlt [Hb Hnot]]|[Hr Hb]].
              ** split; [left; split; [exact Hlt | exact Hb]|].
                 intros Hret. contradiction.
              ** split; [right; split; [exact Hr | exact Hb]|]. intros _.
                 split; [exact Hr | now rewrite Hn, Hr].
    + exfalso. destruct path as [[|c p]|].
      * rewrite app_prepare_plain in E by auto. discriminate.
      * destruct (app_prepare_staged input c p w) as (t & w2 & _ & E').
        pose proof (eq_trans (eq_sym E') E) as H'.
        destruct (preview _ _ _); discriminate.
      * rewrite app_prepare_plain in E by auto. discriminate.
Qed.

End LoopTheorems.

(* ================================================================= *)
(** ** Before the loop, and the process around it *)

Section SetupTheorems.
Context {S : Type} {srv : Services S}.

(** C5 (as amended). Before the first model call the conversation of
    [excel_process.py] is the user message alone: the request,
    followed, when a non-empty file path was given, by the note naming
    the sandbox path; it has no system prompt and no preview.  The
    conversation of [app.py] has three messages, with roles system,
    user and assistant: the system prompt, a user message containing
    the request, and a fixed acknowledgement; when a non-empty file
    path was given, a message of the conversation contains the note
    naming the sandbox path and, when the preview could be built, the
    preview after it.  Nothing has been sent to the model yet.  The
    sandbox path is the sandbox directory joined with the base name of
    the given path, and has that same base name. *)
Theorem initial_conversation (input : str) (path : option str)
  (w : World S) :
  (exists w',
     Cli.prepare input path w
     = (Ret (Cli.mkLocals
               [RoleContent "user"
                  (input ++
                   match path with
                   | Some (c :: p) =>
                     staged_note
                       (path_join (u8 "/sandbox") (basename (c :: p)))
                   | _ => []
                   end)] None []), w')
     /\ requests w' = requests w)
  /\ (exists l w',
        App.prepare input path w = (Ret l, w')
        /\ requests w' = requests w
        /\ map role_of (App.messages l)
           = ["system"; "user"; "assistant"]%string
        /\ (exists text,
              nth_error (App.messages l) 1 = Some (RoleContent "user" text)
              /\ contains text input)
        /\ (forall c p,
              path = Some (c :: p) ->
              exists m text,
                In m (App.messages l) /\ message_text m = Some text
                /\ contains text
                     (staged_note
                        (path_join (u8 "/sandbox/") (basename (c :: p))))
                /\ (forall info,
                      preview (c :: p) (basename (c :: p))
                        (machine
                           (snd (copy_file_to_sandbox (PyStr (c :: p))
                                   (PyStr (u8 "/sandbox/")) w)))
                      = Ret info ->
                      contains text
                        (staged_note
                           (path_join (u8 "/sandbox/") (basename (c :: p)))
                           ++ info))))
  /\ (forall p,
        basename (path_join (u8 "/sandbox") (basename p)) = basename p
        /\ basename (path_join (u8 "/sandbox/") (basename p)) = basename p).
Proof.
  split; [exact (cli_prepare_eq input path w)|]. split; [|exact staged_basename].
  pose proof (app_prepare_quiet input path w) as Hq.
  destruct path as [[|c p]|].
  - rewrite app_prepare_plain in * by auto. eexists _, _.
    split; [reflexivity|]. split; [exact Hq|]. split; [reflexivity|].
    split; [exists input; split; [reflexivity | apply contains_refl]|].
    intros c p H. discriminate.
  - destruct (app_prepare_staged input c p w) as (t & w1 & Ec & E).
    pose proof (eq_trans (eq_sym E) eq_refl) as E'. clear E.
    assert (Ew : snd (copy_file_to_sandbox (PyStr (c :: p))
                        (PyStr (u8 "/sandbox/")) w) = w1) by now rewrite Ec.
    destruct (preview (c :: p) (basename (c :: p)) (machine w1))
      as [info|e] eqn:Ep.
    + eexists _, _. split; [symmetry; exact E'|].
      split; [rewrite <- E' in Hq; exact Hq|]. split; [reflexivity|].
      split; [exists input; split; [reflexivity | apply contains_refl]|].
      intros c' p' H. inversion H; subst c' p'. eexists _, _.
      split; [left; reflexivity|]. split; [reflexivity|]. split.
      * apply contains_app_r, contains_app_l, contains_refl.
      * intros info' Hi. rewrite Ew, Ep in Hi. inversion Hi; subst.
        apply contains_app_r, contains_refl.
    + eexists _, _. split; [symmetry; exact E'|].
      split; [rewrite <- E' in Hq; exact Hq|]. split; [reflexivity|].
      split; [exists input; split; [reflexivity | apply contains_refl]|].
      intros c' p' H. inversion H; subst c' p'. eexists _, _.
      split; [left; reflexivity|]. split; [reflexivity|]. split.
      * apply contains_app_r, contains_refl.
      * intros info' Hi. rewrite Ew, Ep in Hi. discriminate.
  - rewrite app_prepare_plain in * by auto. eexists _, _.
    split; [reflexivity|]. split; [exact Hq|]. split; [reflexivity|].
    split; [exists input; split; [reflexivity | apply contains_refl]|].
    intros c p H. discriminate.
Qed.

(** C9. In [app.py], when a non-empty file path is given and building
    the preview raises (in [pd.read_excel] or while the preview text is
    put together), the exception goes no further: a warning with its
    text is shown after the banner of the copy, the first message of
    the conversation ends with the note naming the sandbox path and has
    no preview, and the loop starts from this conversation, its first
    pass sending it to the model. *)
Theorem preview_failure_is_absorbed (input : str) (c : codepoint) (p : str)
  (w : World S) (e : exn) :
  let path : str := c :: p in
  let staged :=
    copy_file_to_sandbox (PyStr path) (PyStr (u8 "/sandbox/")) w in
  preview path (basename path) (machine (snd staged)) = Raise e ->
  exists copy_result l w',
    fst staged = Ret copy_result
    /\ App.prepare input (Some path) w = (Ret l, w')
    /\ notices w'
       = notices (snd staged)
           ++ [Info copy_result;
               Warning (u8 "无法提取Excel预览: " ++ exn_text e)]
    /\ App.messages l
       = [RoleContent "system"
            (App.SYSTEM_PROMPT
               ++ staged_note (path_join (u8 "/sandbox/") (basename path)));
          RoleContent "user" input;
          RoleContent "assistant" App.ACKNOWLEDGEMENT]
    /\ (forall fuel,
          App.agent_loop fuel input (Some path) w
          = while_true fuel App.turn l w')
    /\ requests (snd (App.turn l w')) = requests w ++ [App.messages l].
Proof.
  intros path staged Hp. subst path staged.
  pose proof (app_prepare_quiet input (Some (c :: p : str)) w) as Hq.
  destruct (app_prepare_staged input c p w) as (t & w1 & Ec & E).
  pose proof (eq_trans (eq_sym E) eq_refl) as E'. clear E.
  rewrite Ec in Hp. simpl in Hp. rewrite Hp in E'. rewrite Ec.
  eexists t, _, _. split; [reflexivity|]. split; [symmetry; exact E'|].
  split; [reflexivity|]. split; [reflexivity|]. split.
  - intros fuel. unfold App.agent_loop. rewrite <- E'. reflexivity.
  - rewrite app_turn_requests. f_equal. rewrite <- E' in Hq. exact Hq.
Qed.




Lemma quiet_closing result : quiet (Cli.closing (srv := srv) result).
Proof. unfold Cli.closing. repeat quiet_step. Qed.



End SetupTheorems.

(* ================================================================= *)
(** ** Sessions *)

Lemma run_code_advisory_or_text_witness :
  fst (Cli.run_code (srv := Stub.services Stub.silent) PyNone PyNone PyNone
         Stub.w0) = Ret ADVISORY
  /\ fst (App.run_code (srv := Stub.services Stub.silent) PyNone PyNone PyNone
            Stub.w0) = Ret ADVISORY.
Proof.
  destruct (@run_code_advisory_or_text nat (Stub.services Stub.silent)
              PyNone PyNone PyNone Stub.w0 (u8 "  ") 1 2 3 eq_refl eq_refl)
    as [Hc Ha].
  pose proof (Hc eq_refl) as H1. pose proof (Ha eq_refl) as H2.
  vm_compute in H1, H2. vm_compute. split; [exact H1 | exact H2].
Defined.

Lemma tool_messages_follow_calls_witness :
  let l := Cli.mkLocals [RoleContent "user" (u8 "hi")] None [] in
  let m := mkResponse None (Some [Stub.call "c1" "run_code" "{run}"]) in
  exists w',
    Cli.turn (srv := Stub.services Stub.one_run_then_done) l Stub.w0
    = (Ret (Continue
              (Cli.mkLocals
                 [RoleContent "user" (u8 "hi"); Response m;
                  ToolMessage (u8 "c1") (u8 "run_code") (u8 "42")]
                 (Some (u8 "42")) [])), w').
Proof.
  intros l m.
  destruct (@tool_messages_follow_calls nat
              (Stub.services Stub.one_run_then_done)) as ((_ & H & _) & _).
  assert (Hr : Cli.receive (srv := Stub.services Stub.one_run_then_done) l
                 Stub.w0
               = (Ret (m, Cli.mkLocals
                            [RoleContent "user" (u8 "hi"); Response m] None
                            []),
                  mkWorld 0 [[RoleContent "user" (u8 "hi")]] [] [] []))
    by (vm_compute; reflexivity).
  pose proof (H l Stub.w0 m _ _ Hr eq_refl) as Hturn.
  match type of Hturn with match ?x with _ => _ end =>
    destruct x as [[l'|e] w'] eqn:Ef end.
  - destruct Hturn as [Ht _]. vm_compute in Ef. injection Ef as <- <-.
    eexists. exact Ht.
  - vm_compute in Ef. discriminate.
Defined.

Lemma tool_turns_one_run_then_done :
  tool_turns (srv := Stub.services Stub.one_run_then_done) 1
    (length (requests Stub.w0)).
Proof.
  split.
  - intros i conv Hi. destruct i as [|i]; [|exfalso; lia].
    eexists. split; reflexivity.
  - intros conv. eexists. split; reflexivity.
Defined.

Lemma calls_return_one_run_then_done :
  calls_return (srv := Stub.services Stub.one_run_then_done) (fun _ => True)
    (Cli.dispatch (srv := Stub.services Stub.one_run_then_done)).
Proof.
  intros k conv m tc l w Hm Hin _.
  destruct k as [|[|k]]; simpl in Hm.
  - injection Hm as <-. destruct Hin as [<-|[]].
    eexists _, _. vm_compute. reflexivity.
  - injection Hm as <-. destruct Hin.
  - destruct k; discriminate.
Defined.

Lemma loop_ends_after_tool_turns_witness :
  exists run,
    Cli.run_agent (srv := Stub.services Stub.one_run_then_done) 2 (u8 "hi")
      None Stub.w0 = Some run
    /\ rounds run = 1
    /\ length (requests (final run)) = 2
    /\ ended run = Ret (Some (u8 "done")).
Proof.
  destruct (@loop_ends_after_tool_turns nat
              (Stub.services Stub.one_run_then_done) 1 (u8 "hi") None Stub.w0
              tool_turns_one_run_then_done)
    as [(run & Hf & _ & _ & _ & Hret) _].
  exists run. split; [exact (Hf 2 (le_n 2))|].
  destruct (Hret calls_return_one_run_then_done)
    as (Hrounds & Hlen & m & Hm & _ & Hr).
  split; [exact Hrounds|]. split; [exact Hlen|].
  rewrite Hr. pose proof (Hf 2 (le_n 2)) as E. vm_compute in E.
  injection E as <-. vm_compute in Hm. injection Hm as <-. reflexivity.
Defined.

(** C3: a session on which the claim as written fails.  The model asks
    for one round of tools and would then answer ["done"], but the
    sandbox fails under [run_code]: the loop completes no round and
    returns nothing. *)
Lemma loop_ends_after_tool_turns_counterexample :
  tool_turns (srv := Stub.services Stub.failing_run) 1
    (length (requests Stub.w0))
  /\ forall fuel run,
       Cli.run_agent (srv := Stub.services Stub.failing_run) fuel (u8 "hi")
         None Stub.w0 = Some run ->
       rounds run = 0 /\ ended run = Raise Stub.SandboxError.
Proof.
  split.
  - split.
    + intros i conv Hi. destruct i as [|i]; [|exfalso; lia].
      eexists. split; reflexivity.
    + intros conv. eexists. split; reflexivity.
  - intros fuel run H. destruct fuel as [|fuel].
    + vm_compute in H. discriminate.
    + assert (E : Cli.run_agent (srv := Stub.services Stub.failing_run) 1
                    (u8 "hi") None Stub.w0 <> None)
        by (vm_compute; discriminate).
      destruct (Cli.run_agent (srv := Stub.services Stub.failing_run) 1
                  (u8 "hi") None Stub.w0) as [run1|] eqn:E1; [|congruence].
      assert (E2 : Cli.run_agent (srv := Stub.services Stub.failing_run)
                     (Datatypes.S fuel) (u8 "hi") None Stub.w0 = Some run1)
        by (eapply cli_run_agent_more; [exact E1 | lia]).
      rewrite E2 in H. injection H as <-.
      vm_compute in E1. injection E1 as <-. split; reflexivity.
Qed.

Lemma copy_tools_never_raise_witness :
  let tc := Stub.call "c1" "copy_file_from_sandbox" "{fetch}" in
  let l := Cli.mkLocals [] None [] in
  (exists text w',
     Cli.dispatch (srv := Stub.services Stub.failing_fetch) tc l Stub.w0
     = (Ret (Cli.mkLocals (Cli.messages l ++ [tool_message tc text])
               (Some text) (Cli.generated_files l)), w')
     /\ text = u8 "复制文件失败: container failed")
  /\ (exists l' w',
        App.dispatch (srv := Stub.services Stub.failing_fetch) tc
          (App.mkLocals [] None [] [] 1) Stub.w0 = (Ret l', w')
        /\ App.messages l'
           = [ToolMessage (u8 "c1") (u8 "copy_file_from_sandbox")
                (u8 "复制文件失败: container failed")]).
Proof.
  intros tc l.
  destruct (@copy_tools_never_raise nat (Stub.services Stub.failing_fetch))
    as (_ & _ & H).
  assert (Hn : tc_name tc = u8 "copy_file_to_sandbox"
               \/ tc_name tc = u8 "copy_file_from_sandbox")
    by (right; reflexivity).
  assert (Hj : json_loads (Services := Stub.services Stub.failing_fetch)
                 (tc_arguments tc) = Ret Stub.fetch_args)
    by (vm_compute; reflexivity).
  destruct (H tc _ Stub.w0 Hn Hj) as (Hc & Ha & _). split.
  - destruct (Hc l) as (text & w' & E). exists text, w'. split; [exact E|].
    vm_compute in E. inversion E. reflexivity.
  - destruct (Ha (App.mkLocals [] None [] [] 1) (fun s => Forall_nil _))
      as (text & l' & w' & E & Hm).
    exists l', w'. split; [exact E|]. clear Hm.
    vm_compute in E. injection E as <- _. vm_compute. reflexivity.
Defined.

(** C5: a request on which the claim as written fails.  With a file
    given, the conversation of [excel_process.py] is a single user
    message, and the conversation of [app.py] has three messages of
    which the user message is the bare request. *)
Lemma initial_conversation_counterexample :
  (exists l w',
     Cli.prepare (srv := Stub.services Stub.one_run_then_done) (u8 "hi")
       (Some (u8 "/tmp/a.xlsx")) Stub.w0 = (Ret l, w')
     /\ map role_of (Cli.messages l) = ["user"%string])
  /\ (exists l w',
        App.prepare (srv := Stub.services Stub.one_run_then_done) (u8 "hi")
          (Some (u8 "/tmp/a.xlsx")) Stub.w0 = (Ret l, w')
        /\ map role_of (App.messages l)
           = ["system"; "user"; "assistant"]%string
        /\ nth_error (App.messages l) 1 = Some (RoleContent "user" (u8 "hi"))).
Proof.
  split.
  - eexists _, _. split; [vm_compute; reflexivity|]. reflexivity.
  - eexists _, _. split; [vm_compute; reflexivity|]. split; reflexivity.
Qed.

Lemma initial_conversation_witness :
  exists l w' m text,
    App.prepare (srv := Stub.services Stub.one_run_then_done) (u8 "hi")
      (Some (u8 "/tmp/a.xlsx")) Stub.w0 = (Ret l, w')
    /\ In m (App.messages l) /\ message_text m = Some text
    /\ contains text (staged_note (u8 "/sandbox/a.xlsx"))
    /\ contains text (u8 "总行数: 2").
Proof.
  destruct (@initial_conversation nat (Stub.services Stub.one_run_then_done)
              (u8 "hi") (Some (u8 "/tmp/a.xlsx")) Stub.w0)
    as (_ & (l & w' & E & _ & _ & _ & H) & _).
  destruct (H 47%N (u8 "tmp/a.xlsx") eq_refl) as (m & text & Hin & Ht & Hc & Hp).
  exists l, w', m, text. split; [exact E|]. split; [exact Hin|].
  split; [exact Ht|]. split.
  - replace (u8 "/sandbox/a.xlsx")
      with (path_join (u8 "/sandbox/") (basename (47%N :: u8 "tmp/a.xlsx")))
      by (vm_compute; reflexivity).
    exact Hc.
  - destruct (preview (srv := Stub.services Stub.one_run_then_done)
                (47%N :: u8 "tmp/a.xlsx") (basename (47%N :: u8 "tmp/a.xlsx"))
                (machine
                   (snd (copy_file_to_sandbox
                           (srv := Stub.services Stub.one_run_then_done)
                           (PyStr (47%N :: u8 "tmp/a.xlsx"))
                           (PyStr (u8 "/sandbox/")) Stub.w0))))
      as [info|e] eqn:Ei.
    + apply (contains_trans (Hp info Ei)).
      apply contains_app_r.
      vm_compute in Ei. injection Ei as <-.
      exists (nl ++ nl ++ u8 "Excel文件预览信息:" ++ nl ++ u8 "文件名: a.xlsx"
                ++ nl),
        (nl ++ u8 "总列数: 1" ++ nl ++ u8 "列名: A" ++ nl ++ nl
           ++ u8 "前2行数据预览:" ++ nl ++ u8 "   A" ++ nl ++ nl
           ++ u8 "数据类型:" ++ nl ++ u8 "A    int64").
      vm_compute. reflexivity.
    + vm_compute in Ei. discriminate.
Defined.

(** C6. A console session in which a file is fetched from the sandbox:
    the copy succeeds and the model then answers ["done"].
    [run_agent] of [excel_process.py] returns ["done"] with no trailer,
    [generated_files] never having received the path; on the same
    session [app.py] builds the text with the trailer naming the local
    path. *)
Theorem console_run_drops_file_trailer :
  (exists run,
     Cli.run_agent (srv := Stub.services Stub.fetch_then_done) 2 (u8 "hi")
       None Stub.w0 = Some run
     /\ In (ToolMessage (u8 "c1") (u8 "copy_file_from_sandbox")
              (u8 "文件已成功从沙盒复制: /sandbox/out.png -> out.png"))
          (last (requests (final run)) [])
     /\ ended run = Ret (Some (u8 "done")))
  /\ (exists run l,
        App.agent_loop (srv := Stub.services Stub.fetch_then_done) 2 (u8 "hi")
          None Stub.w0 = Some run
        /\ ended run
           = Ret (Some (u8 "done" ++ nl ++ nl ++ u8 "生成的文件:" ++ nl
                          ++ u8 "out.png"), l)).
Proof.
  split.
  - eexists. split; [vm_compute; reflexivity|]. split.
    + vm_compute. right. right. left. reflexivity.
    + reflexivity.
  - eexists _, _. split; [vm_compute; reflexivity|]. vm_compute. reflexivity.
Qed.



Lemma run_code_failure_aborts_witness :
  (exists w',
     Cli.run_code (srv := Stub.services Stub.failing_run) PyNone PyNone PyNone
       Stub.w0 = (Raise Stub.SandboxError, w'))
  /\ (exists w',
        while_true 1 (Cli.turn (srv := Stub.services Stub.failing_run))
          (Cli.mkLocals [RoleContent "user" (u8 "hi")] None []) Stub.w0
        = Some (mkRun 0 (Raise Stub.SandboxError) w'))
  /\ (exists w',
        while_true 1 (App.turn (srv := Stub.services Stub.failing_run))
          (App.mkLocals [RoleContent "user" (u8 "hi")] None [] [] 1) Stub.w0
        = Some (mkRun 0 (Raise Stub.SandboxError) w'))
  /\ (exists w',
        while_true 1 (App.turn (srv := Stub.services Stub.numeric_language))
          (App.mkLocals [RoleContent "user" (u8 "hi")] None [] [] 1) Stub.w0
        = Some (mkRun 0 (Raise Stub.LanguageError) w')).
Proof.
  assert (Hsafe : teardown_safe (srv := Stub.services Stub.failing_run))
    by (intro s; reflexivity).
  destruct (@run_code_failure_aborts nat (Stub.services Stub.failing_run))
    as (Hrun & Hloop & Happ).
  split; [|split; [|split]].
  - destruct (Hrun PyNone PyNone PyNone Stub.w0 Stub.SandboxError) as [H _].
    destruct H as (e' & w' & E & He).
    { right. exists 1, 2. split; reflexivity. }
    rewrite (He Hsafe) in E. now exists w'.
  - edestruct (Hloop 0 (Cli.mkLocals [RoleContent "user" (u8 "hi")] None [])
                 Stub.w0) with (pre := @nil ToolCall) (e := Stub.SandboxError)
      as (e' & w2 & E & He).
    + vm_compute. reflexivity.
    + reflexivity.
    + reflexivity.
    + reflexivity.
    + vm_compute. reflexivity.
    + right. exists 1, 2. split; reflexivity.
    + rewrite (He Hsafe) in E. now exists w2.
  - edestruct (Happ 0 (App.mkLocals [RoleContent "user" (u8 "hi")] None [] []
                        1) Stub.w0)
      with (pre := @nil ToolCall) (e := Stub.SandboxError)
      as (e' & w2 & E & He).
    + vm_compute. reflexivity.
    + reflexivity.
    + reflexivity.
    + reflexivity.
    + vm_compute. reflexivity.
    + right. exists 1, 2. split; reflexivity.
    + rewrite (He (Forall_nil _) eq_refl Hsafe) in E. now exists w2.
  - destruct (@run_code_failure_aborts nat
                (Stub.services Stub.numeric_language)) as (_ & _ & Hnum).
    edestruct (Hnum 0 (App.mkLocals [RoleContent "user" (u8 "hi")] None [] []
                        1) Stub.w0)
      with (pre := @nil ToolCall) (e := Stub.SandboxError)
      as (e' & w2 & E & _).
    + vm_compute. reflexivity.
    + reflexivity.
    + reflexivity.
    + reflexivity.
    + vm_compute. reflexivity.
    + right. exists 1, 2. split; reflexivity.
    + exists w2. rewrite E. vm_compute in E. injection E as <- _.
      reflexivity.
Defined.

Lemma preview_failure_is_absorbed_witness :
  exists l w',
    App.prepare (srv := Stub.services Stub.failing_run) (u8 "hi")
      (Some (u8 "/tmp/a.xlsx")) Stub.w0 = (Ret l, w')
    /\ In (Warning (u8 "无法提取Excel预览: not a workbook")) (notices w')
    /\ nth_error (App.messages l) 0
       = Some (RoleContent "system"
                 (App.SYSTEM_PROMPT ++ staged_note (u8 "/sandbox/a.xlsx")))
    /\ requests (snd (App.turn (srv := Stub.services Stub.failing_run) l w'))
       = [App.messages l].
Proof.
  destruct (@preview_failure_is_absorbed nat
              (Stub.services Stub.failing_run) (u8 "hi") 47%N
              (u8 "tmp/a.xlsx") Stub.w0 Stub.ExcelError)
    as (t & l & w' & _ & E & Hn & Hm & _ & Hr).
  { vm_compute. reflexivity. }
  exists l, w'. split; [exact E|]. split; [|split].
  - rewrite Hn. apply in_or_app. right. right. left. vm_compute. reflexivity.
  - rewrite Hm. vm_compute. reflexivity.
  - exact Hr.
Defined.

(** C10: a session on which the claim as written fails.  The unknown
    tool is the first call of the second turn; [result] still holds
    the output of the first turn, so nothing is raised and the call is
    answered with that stale text. *)
Lemma unknown_tool_reuses_result_counterexample :
  exists run,
    Cli.run_agent (srv := Stub.services Stub.stale_result) 3 (u8 "hi") None
      Stub.w0 = Some run
    /\ nth_error (last (requests (final run)) []) 3
       = Some (Response
                 (mkResponse None
                    (Some [Stub.call "c2" "lookup_weather" "{}"])))
    /\ nth_error (last (requests (final run)) []) 4
       = Some (ToolMessage (u8 "c2") (u8 "lookup_weather") (u8 "42"))
    /\ ended run = Ret (Some (u8 "done")).
Proof.
  eexists. split; [vm_compute; reflexivity|].
  split; [|split]; vm_compute; reflexivity.
Qed.

Lemma unknown_tool_reuses_result_witness :
  let tc := Stub.call "c2" "lookup_weather" "{}" in
  Cli.dispatch (srv := Stub.services Stub.unknown_first) tc
    (Cli.mkLocals [RoleContent "user" (u8 "hi")] None []) Stub.w0
  = (Raise (UnboundLocalError "result"), Stub.w0)
  /\ exists l' w',
       Cli.dispatch (srv := Stub.services Stub.unknown_first) tc
         (Cli.mkLocals [ToolMessage (u8 "c1") (u8 "run_code") (u8 "42")]
            (Some (u8 "42")) []) Stub.w0 = (Ret l', w')
       /\ Cli.messages l'
          = [ToolMessage (u8 "c1") (u8 "run_code") (u8 "42");
             ToolMessage (u8 "c2") (u8 "lookup_weather") (u8 "42")].
Proof.
  intros tc.
  destruct (@unknown_tool_reuses_result nat
              (Stub.services Stub.unknown_first)) as ((_ & _ & _ & H & _) & _).
  assert (Hu : unknown_tool (tc_name tc))
    by (repeat split; vm_compute; discriminate).
  assert (Hj : json_loads (Services := Stub.services Stub.unknown_first)
                 (tc_arguments tc) = Ret (PyDict []))
    by (vm_compute; reflexivity).
  split.
  - exact (H tc (Cli.mkLocals [RoleContent "user" (u8 "hi")] None [])
             Stub.w0 _ Hu Hj eq_refl).
  - exact (H tc
             (Cli.mkLocals [ToolMessage (u8 "c1") (u8 "run_code") (u8 "42")]
                (Some (u8 "42")) []) Stub.w0 _ Hu Hj eq_refl).
Defined.

(* ================================================================= *)
(** ** Further properties: failures inside a pass *)

Section PassFacts.
Context {S : Type} {srv : Services S}.

Section Counting.
Variables (L R : Type) (turn : L -> Prog S (LoopStep L R)).
Variable msgs : L -> list Message.
Hypothesis turn_requests :
  forall l w, requests (snd (turn l w)) = requests w ++ [msgs l].

Lemma while_counts : forall fuel l w run,
  while_true fuel turn l w = Some run ->
  length (requests (final run)) = length (requests w) + rounds run + 1.
Proof.
  induction fuel as [|fuel IH]; intros l w run H; [discriminate|].
  simpl in H. pose proof (turn_requests l w) as Hreq.
  destruct (turn l w) as [[[l1|r]|e] w1]; simpl in Hreq.
  - destruct (while_true fuel turn l1 w1) as [run1|] eqn:E; [|discriminate].
    inversion H; subst; clear H. simpl. rewrite (IH _ _ _ E), Hreq, length_app.
    simpl. lia.
  - inversion H; subst; clear H. simpl. rewrite Hreq, length_app. simpl. lia.
  - inversion H; subst; clear H. simpl. rewrite Hreq, length_app. simpl. lia.
Qed.

End Counting.

Lemma app_prepare_returns input path (w : World S) :
  exists l w', App.prepare input path w = (Ret l, w').
Proof.
  destruct path as [[|c p]|].
  - rewrite app_prepare_plain by auto. eauto.
  - destruct (app_prepare_staged input c p w) as (t & w1 & _ & E).
    pose proof (eq_trans (eq_sym E) eq_refl) as E'. clear E.
    destruct (preview _ _ _); eexists _, _; symmetry; exact E'.
  - rewrite app_prepare_plain by auto. eauto.
Qed.

(** X1. In every run that ends, however it ends, the model has been
    called once per completed dispatch round and once more: each pass
    of the loop sends exactly one request, and nothing is sent again
    after a failure.  In both files. *)
Theorem one_model_call_per_pass :
  (forall fuel input path (w : World S) run,
     Cli.run_agent fuel input path w = Some run ->
     length (requests (final run)) = length (requests w) + rounds run + 1)
  /\ (forall fuel input path (w : World S) run,
        App.run_agent fuel input path w = Some run ->
        length (requests (final run)) = length (requests w) + rounds run + 1).
Proof.
  split; intros fuel input path w run H.
  - unfold Cli.run_agent in H.
    destruct (cli_prepare_eq input path w) as (w1 & E & Hq).
    rewrite E in H.
    apply (while_counts Cli.turn Cli.messages cli_turn_requests) in H.
    now rewrite Hq in H.
  - rewrite app_run_agent_eq in H. unfold App.agent_loop in H.
    pose proof (app_prepare_quiet input path w) as Hq.
    destruct (app_prepare_returns input path w) as (l & w1 & E).
    rewrite E in H, Hq. simpl in Hq.
    destruct (while_true fuel App.turn l w1) as [run1|] eqn:E1; [|discriminate].
    inversion H; subst; clear H. simpl.
    apply (while_counts App.turn App.messages app_turn_requests) in E1.
    now rewrite Hq in E1.
Qed.

(** X2. When the model service raises on a request, the pass ends the
    loop with that exception: the request has been sent, no tool has
    run and the machine is as it was.  In both files. *)
Theorem model_failure_aborts :
  (forall fuel l (w : World S) e,
     chat_model (length (requests w)) (Cli.messages l) = Raise e ->
     exists w',
       while_true (Datatypes.S fuel) Cli.turn l w
       = Some (mkRun 0 (Raise e) w')
       /\ machine w' = machine w
       /\ requests w' = requests w ++ [Cli.messages l])
  /\ (forall fuel l (w : World S) e,
        chat_model (length (requests w)) (App.messages l) = Raise e ->
        exists w',
          while_true (Datatypes.S fuel) App.turn l w
          = Some (mkRun 0 (Raise e) w')
          /\ machine w' = machine w
          /\ requests w' = requests w ++ [App.messages l]).
Proof.
  split; intros fuel l w e H.
  - simpl. unfold Cli.turn, bind. rewrite cli_receive_eq, H.
    eexists. split; [reflexivity|]. split; reflexivity.
  - destruct (app_receive_raise l w H) as (w1 & E & Hr & Hm).
    rewrite while_true_eq. unfold App.turn. rewrite (bind_raise _ _ _ E).
    exists w1. auto.
Qed.

(** X3. Tool arguments that do not parse stop the dispatch before
    anything else happens, whatever the function name: the exception of
    [json.loads] comes out, no session is opened, nothing is appended
    or shown, and the loop ends there.  In both files. *)
Theorem malformed_arguments_abort :
  (forall tc (w : World S) e,
     json_loads (tc_arguments tc) = Raise e ->
     (forall l, Cli.dispatch tc l w = (Raise e, w))
     /\ (forall l, App.dispatch tc l w = (Raise e, w)))
  /\ (forall fuel l (w : World S) m l0 w0 pre tc post l1 w1 e,
        Cli.receive l w = (Ret (m, l0), w0) ->
        tool_calls m = Some (pre ++ tc :: post) ->
        for_each Cli.dispatch pre l0 w0 = (Ret l1, w1) ->
        json_loads (tc_arguments tc) = Raise e ->
        while_true (Datatypes.S fuel) Cli.turn l w
        = Some (mkRun 0 (Raise e) w1))
  /\ (forall fuel l (w : World S) m l0 w0 pre tc post l1 w1 e,
        App.receive l w = (Ret (m, l0), w0) ->
        tool_calls m = Some (pre ++ tc :: post) ->
        for_each App.dispatch pre l0 w0 = (Ret l1, w1) ->
        json_loads (tc_arguments tc) = Raise e ->
        while_true (Datatypes.S fuel) App.turn l w
        = Some (mkRun 0 (Raise e) w1)).
Proof.
  assert (Hc : forall tc l (w : World S) e,
             json_loads (tc_arguments tc) = Raise e ->
             Cli.dispatch tc l w = (Raise e, w)).
  { intros tc l w e H. unfold Cli.dispatch. cbv zeta. rewrite H. reflexivity. }
  assert (Ha : forall tc l (w : World S) e,
             json_loads (tc_arguments tc) = Raise e ->
             App.dispatch tc l w = (Raise e, w)).
  { intros tc l w e H. unfold App.dispatch. cbv zeta. rewrite H. reflexivity. }
  split; [|split].
  - intros tc w e H. split; intros l; [now apply Hc | now apply Ha].
  - intros fuel l w m l0 w0 pre tc post l1 w1 e Hrecv Hcalls Hpre Hj.
    eapply cli_raise_aborts; [exact Hrecv | exact Hcalls | exact Hpre |].
    now apply Hc.
  - intros fuel l w m l0 w0 pre tc post l1 w1 e Hrecv Hcalls Hpre Hj.
    eapply app_raise_aborts; [exact Hrecv | exact Hcalls | exact Hpre |].
    now apply Ha.
Qed.



End PassFacts.

(* ================================================================= *)
(** ** Further properties: sandbox sessions *)

Section SessionFacts.
Context {S : Type} {srv : Services S}.
Variables idle live : S -> Prop.
Hypothesis protocol : follows_protocol idle live.

Lemma takes_ret (P : S -> Prop) {A} (a : A) : takes P P (ret a : Prog S A).
Proof. intros w H. exact H. Qed.

Lemma takes_raise (P : S -> Prop) {A} e : takes P P (raise e : Prog S A).
Proof. intros w H. exact H. Qed.

Lemma takes_of_outcome (P : S -> Prop) {A} (r : outcome A) :
  takes P P (of_outcome r : Prog S A).
Proof. intros w H. exact H. Qed.

Lemma takes_read_machine (P : S -> Prop) {A} (f : S -> A) :
  takes P P (read_machine f).
Proof. intros w H. exact H. Qed.

Lemma takes_consult (P : S -> Prop) {A} (f : S -> outcome A) :
  takes P P (consult f).
Proof. intros w H. exact H. Qed.

Lemma takes_chat (P : S -> Prop) conv :
  takes P P (chat_completions_create conv).
Proof. intros w H. exact H. Qed.

Lemma takes_st_info (P : S -> Prop) text :
  takes P P (App.st_info text : Prog S unit).
Proof. intros w H. exact H. Qed.

Lemma takes_st_warning (P : S -> Prop) text :
  takes P P (App.st_warning text : Prog S unit).
Proof. intros w H. exact H. Qed.

Lemma takes_write_log (P : S -> Prop) entry :
  takes P P (App.write_log entry : Prog S unit).
Proof. intros w H. exact H. Qed.

Lemma takes_update_results (P : S -> Prop) l :
  takes P P (App.update_results l : Prog S unit).
Proof.
  intros w H. destruct (update_results_world l w) as (drawn & ->). exact H.
Qed.

Lemma takes_bind (P : S -> Prop) {A B} (c : Prog S A) (k : A -> Prog S B) :
  takes P P c -> (forall a, takes P P (k a)) -> takes P P (bind c k).
Proof.
  intros Hc Hk w H. unfold bind. specialize (Hc w H).
  destruct (c w) as [[a|e] w1]; simpl in Hc.
  - now apply Hk.
  - exact Hc.
Qed.

Lemma takes_try_except (P : S -> Prop) {A} (body : Prog S A) handler :
  takes P P body -> (forall e, takes P P (handler e)) ->
  takes P P (try_except body handler).
Proof.
  intros Hb Hh w H. unfold try_except. specialize (Hb w H).
  destruct (body w) as [[a|e] w1]; simpl in Hb.
  - exact Hb.
  - now apply Hh.
Qed.

Lemma takes_for_each (P : S -> Prop) {A L} (body : A -> L -> Prog S L) items :
  (forall x l, takes P P (body x l)) ->
  forall l, takes P P (for_each body items l).
Proof.
  intros Hb. induction items as [|x rest IH]; intros l; simpl.
  - apply takes_ret.
  - apply takes_bind; [apply Hb | exact IH].
Qed.

Lemma live_session_run code libraries :
  takes live live (on_machine (session_run code libraries)).
Proof.
  destruct protocol as (_ & Hrun & _). intros w H. unfold on_machine.
  specialize (Hrun code libraries _ H).
  destruct (session_run code libraries (machine w)). exact Hrun.
Qed.

Lemma live_copy_to a b : takes live live (on_machine (copy_to_runtime a b)).
Proof.
  destruct protocol as (_ & _ & Hc & _). intros w H. unfold on_machine.
  specialize (Hc a b _ H). destruct (copy_to_runtime a b (machine w)).
  exact Hc.
Qed.

Lemma live_copy_from a b :
  takes live live (on_machine (copy_from_runtime a b)).
Proof.
  destruct protocol as (_ & _ & _ & Hc & _). intros w H. unfold on_machine.
  specialize (Hc a b _ H). destruct (copy_from_runtime a b (machine w)).
  exact Hc.
Qed.

(** A [with] block whose body stays inside the session leaves the
    machine idle, however the block ends. *)
Lemma takes_with_session {A} args (body : Prog S A) :
  takes live live body -> takes idle idle (with_session args body).
Proof.
  destruct protocol as (Henter & _ & _ & _ & Hexit).
  intros Hb w H. unfold with_session, on_machine.
  specialize (Henter args _ H).
  destruct (session_enter args (machine w)) as [[u|e] s1]; [|exact Henter].
  match goal with |- context [body ?w1] =>
    specialize (Hb w1 Henter); destruct (body w1) as [r w2] end.
  simpl in Hb. specialize (Hexit _ Hb).
  destruct (session_exit (machine w2)) as [[u'|e'] s3]; exact Hexit.
Qed.

Lemma idle_copy_file_to_sandbox a b : takes idle idle (copy_file_to_sandbox a b).
Proof.
  apply takes_try_except; intros; [|apply takes_ret].
  apply takes_bind; intros; [|apply takes_ret].
  apply takes_with_session, live_copy_to.
Qed.

Lemma idle_copy_file_from_sandbox a b :
  takes idle idle (copy_file_from_sandbox a b).
Proof.
  apply takes_try_except; intros; [|apply takes_ret].
  apply takes_bind; intros; [|apply takes_ret].
  apply takes_with_session, live_copy_from.
Qed.

Lemma idle_cli_run_code a b c : takes idle idle (Cli.run_code a b c).
Proof.
  apply takes_with_session, takes_bind; intros;
    [apply live_session_run | apply takes_ret].
Qed.

Lemma idle_app_run_code a b c : takes idle idle (App.run_code a b c).
Proof.
  apply takes_with_session, takes_bind; intros;
    [apply live_session_run | apply takes_ret].
Qed.

End SessionFacts.

Ltac idle_step :=
  match goal with
  | |- takes _ _ (let _ := _ in _) => cbv zeta
  | |- takes _ _ (bind _ _) => apply takes_bind; intros
  | |- takes _ _ (try_except _ _) => apply takes_try_except; intros
  | |- takes _ _ (ret _) => apply takes_ret
  | |- takes _ _ (raise _) => apply takes_raise
  | |- takes _ _ (of_outcome _) => apply takes_of_outcome
  | |- takes _ _ (read_machine _) => apply takes_read_machine
  | |- takes _ _ (consult _) => apply takes_consult
  | |- takes _ _ (chat_completions_create _) => apply takes_chat
  | |- takes _ _ (copy_file_to_sandbox _ _) =>
    eapply idle_copy_file_to_sandbox; eassumption
  | |- takes _ _ (copy_file_from_sandbox _ _) =>
    eapply idle_copy_file_from_sandbox; eassumption
  | |- takes _ _ (Cli.run_code _ _ _) => eapply idle_cli_run_code; eassumption
  | |- takes _ _ (App.run_code _ _ _) => eapply idle_app_run_code; eassumption
  | |- takes _ _ (App.st_info _) => apply takes_st_info
  | |- takes _ _ (App.st_warning _) => apply takes_st_warning
  | |- takes _ _ (App.write_log _) => apply takes_write_log
  | |- takes _ _ (App.update_results _) => apply takes_update_results
  | |- takes _ _ (if ?b then _ else _) => destruct b
  | |- takes _ _ (match ?x with _ => _ end) => destruct x
  end.

Section SessionTheorems.
Context {S : Type} {srv : Services S}.

Lemma while_takes (P : S -> Prop) {L R} (turn : L -> Prog S (LoopStep L R)) :
  (forall l, takes P P (turn l)) ->
  forall fuel l w run,
    P (machine w) -> while_true fuel turn l w = Some run ->
    P (machine (final run)).
Proof.
  intros Ht. induction fuel as [|fuel IH]; intros l w run Hw H; [discriminate|].
  simpl in H. specialize (Ht l w Hw).
  destruct (turn l w) as [[[l1|r]|e] w1]; simpl in Ht.
  - destruct (while_true fuel turn l1 w1) as [run1|] eqn:E; [|discriminate].
    inversion H; subst; clear H. simpl. exact (IH _ _ _ Ht E).
  - inversion H; subst. exact Ht.
  - inversion H; subst. exact Ht.
Qed.

(** X5. Provided the sandbox library keeps to its own session protocol,
    no code of the repository leaves a session open: started on an idle
    machine, each tool, the script of [test_sandbox.py] and every run
    of [run_agent] that ends (in a return or in an exception, the
    failure of a tool included) leave the machine idle. *)
Theorem sessions_are_closed (idle live : S -> Prop) :
  follows_protocol idle live ->
  (forall a b c, takes idle idle (Cli.run_code a b c))
  /\ (forall a b c, takes idle idle (App.run_code a b c))
  /\ (forall a b, takes idle idle (copy_file_to_sandbox a b))
  /\ (forall a b, takes idle idle (copy_file_from_sandbox a b))
  /\ takes idle idle TestSandbox.script
  /\ (forall fuel input path (w : World S) run,
        idle (machine w) ->
        Cli.run_agent fuel input path w = Some run ->
        idle (machine (final run)))
  /\ (forall fuel input path (w : World S) run,
        idle (machine w) ->
        App.run_agent fuel input path w = Some run ->
        idle (machine (final run))).
Proof.
  intros Hp. repeat apply conj.
  - intros. now apply idle_cli_run_code with (live := live).
  - intros. now apply idle_app_run_code with (live := live).
  - intros. now apply idle_copy_file_to_sandbox with (live := live).
  - intros. now apply idle_copy_file_from_sandbox with (live := live).
  - unfold TestSandbox.script.
    apply takes_with_session with (live := live); [exact Hp|].
    apply takes_bind; intros;
      [now apply live_session_run with (idle := idle) | apply takes_ret].
  - intros fuel input path w run Hw H. unfold Cli.run_agent in H.
    assert (Hprep : takes idle idle (Cli.prepare input path)).
    { unfold Cli.prepare. repeat idle_step. }
    specialize (Hprep w Hw).
    destruct (Cli.prepare input path w) as [[l|e] w1]; simpl in Hprep.
    + eapply while_takes; [|exact Hprep | exact H].
      intros l0. unfold Cli.turn, Cli.receive.
      apply takes_bind; [repeat idle_step|]. intros [m l1]. simpl.
      destruct (has_tool_calls m).
      * apply takes_bind; [|intros; apply takes_ret].
        apply takes_for_each. intros tc l2. unfold Cli.dispatch.
        repeat idle_step.
      * apply takes_bind; [|intros; apply takes_ret].
        unfold Cli.finish. destruct (Cli.generated_files l1);
          [apply takes_ret|].
        apply takes_bind.
        -- apply takes_for_each. intros f lf. unfold Cli.fetch_generated.
           repeat idle_step.
        -- intros. repeat idle_step.
    + inversion H; subst. exact Hprep.
  - intros fuel input path w run Hw H. rewrite app_run_agent_eq in H.
    unfold App.agent_loop in H.
    assert (Hprep : takes idle idle (App.prepare input path)).
    { unfold App.prepare. repeat idle_step. }
    specialize (Hprep w Hw).
    destruct (App.prepare input path w) as [[l|e] w1]; simpl in Hprep.
    + destruct (while_true fuel App.turn l w1) as [run1|] eqn:E;
        [|discriminate].
      inversion H; subst; clear H. simpl.
      eapply while_takes; [|exact Hprep | exact E].
      intros l0. unfold App.turn, App.receive.
      apply takes_bind; [repeat idle_step|]. intros [m l1]. simpl.
      destruct (has_tool_calls m).
      * apply takes_bind; [|intros; apply takes_ret].
        apply takes_for_each. intros tc l2. unfold App.dispatch.
        repeat idle_step.
      * apply takes_bind; [|intros; apply takes_ret].
        unfold App.finish. repeat idle_step.
    + inversion H; subst. exact Hprep.
Qed.

End SessionTheorems.

(* ================================================================= *)
(** ** Further properties: files and the page in app.py *)

Section PageFacts.
Context {S : Type} {srv : Services S}.

Lemma py_get_ret v key r :
  py_get v key = Ret r ->
  exists items, v = PyDict items /\ r = dict_lookup (u8 key) items.
Proof.
  destruct v; simpl; intros H; try discriminate.
  inversion H. eauto.
Qed.

Lemma str_join_strs sep paths :
  str_join sep (map PyStr paths) = Ret (join_strs sep paths).
Proof.
  unfold str_join. generalize 0.
  induction paths as [|p rest IH]; intros i; [reflexivity|].
  simpl. destruct rest as [|q rest]; [now rewrite app_nil_r|].
  change (map PyStr (q :: rest)) with (PyStr q :: map PyStr rest) in *.
  rewrite (IH (Datatypes.S i)). simpl. now rewrite <- app_assoc.
Qed.

Lemma str_join_not_str sep items :
  forallb is_str items = false ->
  exists e, str_join sep items = Raise e /\ exn_class e = "TypeError"%string.
Proof.
  unfold str_join. generalize 0.
  induction items as [|v rest IH]; intros i H; [discriminate|].
  simpl in H.
  destruct v; try (eexists; split; reflexivity).
  simpl in H. destruct rest as [|v' rest]; [discriminate|].
  destruct (IH (Datatypes.S i) H) as (e & He & Hc).
  exists e. split; [|exact Hc].
  change (join_from i sep (PyStr s :: v' :: rest))
    with (match join_from (Datatypes.S i) sep (v' :: rest) with
          | Ret t => Ret (s ++ sep ++ t)
          | Raise e => Raise e
          end).
  now rewrite He.
Qed.

(** What a dispatch that returns has done to the local variables and
    to the page of [app.py]. *)
Lemma app_dispatch_inv tc l (w : World S) l' w' :
  App.dispatch tc l w = (Ret l', w') ->
  App.generated_files l' = App.generated_files l ++ recorded tc
  /\ ((App.all_outputs l' = App.all_outputs l /\ rendered w' = rendered w)
      \/ (rendered w' = App.all_outputs l' /\ App.all_outputs l' <> [])).
Proof.
  unfold App.dispatch, recorded. intros H. cbv zeta in H.
  apply bind_ret_inv in H as (args & w1 & Ej & H).
  unfold of_outcome in Ej. inversion Ej as [[Hj Hw]]. subst w1. clear Ej.
  rewrite Hj in *.
  apply bind_ret_inv in H as (l1 & w2 & E & H).
  destruct (str_eqb (tc_name tc) (u8 "run_code")) eqn:E1.
  { apply str_eqb_eq in E1. rewrite E1.
    change (str_eqb (u8 "run_code") (u8 "copy_file_from_sandbox")) with false.
    invert_steps.
    match type of H with context [match ?x with Some _ => _ | None => _ end] =>
      destruct x as [r|] eqn:Er; [|discriminate] end.
    invert_steps. simpl. rewrite app_nil_r. split; [reflexivity|].
    right. split; [reflexivity|]. intros Hn.
    apply (f_equal (@length _)) in Hn. rewrite !length_app in Hn.
    simpl in Hn. lia. }
  destruct (str_eqb (tc_name tc) (u8 "copy_file_to_sandbox")) eqn:E2.
  { apply str_eqb_eq in E2. rewrite E2.
    change (str_eqb (u8 "copy_file_to_sandbox") (u8 "copy_file_from_sandbox"))
      with false.
    invert_steps.
    match type of H with context [match ?x with Some _ => _ | None => _ end] =>
      destruct x as [r|] eqn:Er; [|discriminate] end.
    invert_steps. simpl. rewrite app_nil_r. split; [reflexivity|].
    right. split; [reflexivity|]. intros Hn.
    apply (f_equal (@length _)) in Hn. rewrite !length_app in Hn.
    simpl in Hn. lia. }
  destruct (str_eqb (tc_name tc) (u8 "copy_file_from_sandbox")) eqn:E3.
  { invert_steps.
    match goal with H1 : py_get args "local_path" = Ret _ |- _ =>
      apply py_get_ret in H1 as (items & -> & ->) end.
    match type of H with context [match ?x with Some _ => _ | None => _ end] =>
      destruct x as [r|] eqn:Er; [|discriminate] end.
    invert_steps. simpl. split; [reflexivity|].
    right. split; [reflexivity|]. intros Hn.
    apply (f_equal (@length _)) in Hn. rewrite !length_app in Hn.
    simpl in Hn. lia. }
  invert_steps.
  match type of H with context [match ?x with Some _ => _ | None => _ end] =>
      destruct x as [r|] eqn:Er; [|discriminate] end.
  invert_steps. simpl. rewrite app_nil_r. auto.
Qed.

Lemma in_sync_step l (w : World S) l' (w' : World S) :
  in_sync l w ->
  (App.all_outputs l' = App.all_outputs l /\ rendered w' = rendered w)
  \/ (rendered w' = App.all_outputs l' /\ App.all_outputs l' <> []) ->
  in_sync l' w'.
Proof.
  unfold in_sync. intros [H|H] [[Ho Hr]|[Hr _]]; rewrite ?Ho, ?Hr; auto.
Qed.

Lemma app_round_inv calls : forall l (w : World S) l' w',
  for_each App.dispatch calls l w = (Ret l', w') ->
  App.generated_files l' = App.generated_files l ++ flat_map recorded calls
  /\ (in_sync l w -> in_sync l' w').
Proof.
  induction calls as [|tc calls IH]; intros l w l' w' H; simpl in H.
  - inversion H; subst. simpl. rewrite app_nil_r. auto.
  - apply bind_ret_inv in H as (l1 & w1 & E & H).
    apply app_dispatch_inv in E as (Hg1 & Hs1).
    apply IH in H as (Hg & Hs). simpl. rewrite Hg, Hg1, <- app_assoc.
    split; [reflexivity|]. intros Hi. apply Hs.
    eapply in_sync_step; eassumption.
Qed.

Lemma app_receive_page l (w : World S) m l0 w0 :
  App.receive l w = (Ret (m, l0), w0) ->
  chat_model (length (requests w)) (App.messages l) = Ret m
  /\ App.generated_files l0 = App.generated_files l
  /\ App.all_outputs l0 = App.all_outputs l ++ narration m
  /\ (in_sync l w -> in_sync l0 w0).
Proof.
  intros H. apply app_receive_inv in H as (Hm & -> & _ & Hr).
  split; [exact Hm|]. split; [reflexivity|]. split; [reflexivity|].
  unfold in_sync. simpl in *. destruct (narration m) as [|ev evs].
  - rewrite app_nil_r, Hr. auto.
  - intros _. right. exact Hr.
Qed.

Lemma app_finish_inv l (w : World S) text r l' w' :
  App.finish l text w = (Ret (r, l'), w') ->
  App.generated_files l' = App.generated_files l
  /\ App.all_outputs l'
     = App.all_outputs l
         ++ match App.generated_files l with
            | [] => []
            | files => [OutFiles files]
            end
  /\ (App.generated_files l = [] -> r = text)
  /\ forallb is_str (App.generated_files l) = true
  /\ (in_sync l w -> in_sync l' w').
Proof.
  unfold App.finish. destruct (App.generated_files l) as [|f fs] eqn:Eg.
  - intros H. inversion H; subst. rewrite Eg, app_nil_r. auto.
  - intros H. apply bind_ret_inv in H as (joined & w1 & Ej & H).
    unfold of_outcome in Ej. inversion Ej as [[Hj Hw]]. subst w1. clear Ej.
    apply bind_ret_inv in H as (fr & w2 & Ei & H).
    unfold of_outcome in Ei. inversion Ei as [[Hi Hw]]. subst w2. clear Ei.
    apply bind_ret_inv in H as (u & w3 & Eu & H).
    apply update_results_inv in Eu as [_ ->].
    unfold ret in H. inversion H; subst; clear H.
    unfold App.emit, in_sync.
    cbn [App.generated_files App.all_outputs rendered].
    rewrite Eg.
    split; [reflexivity|]. split; [reflexivity|].
    split; [intros; discriminate|]. split.
    + destruct (forallb is_str (f :: fs)) eqn:Es; [reflexivity|].
      destruct (str_join_not_str nl _ Es) as (e & He & _). congruence.
    + intros _. right. reflexivity.
Qed.

(** X6. In [app.py], a round of dispatches adds to [generated_files] the
    [local_path] argument of each [copy_file_from_sandbox] call, in the
    order of the calls, and nothing else.  The path is recorded whether
    the copy worked or failed: when the events emitted so far can be
    drawn, the dispatch of such a call (arguments a JSON object)
    always returns and always records it. *)
Theorem fetched_paths_are_recorded :
  (forall calls l (w : World S) l' w',
     for_each App.dispatch calls l w = (Ret l', w') ->
     App.generated_files l'
     = App.generated_files l ++ flat_map recorded calls)
  /\ (forall tc items l (w : World S),
        tc_name tc = u8 "copy_file_from_sandbox" ->
        json_loads (tc_arguments tc) = Ret (PyDict items) ->
        drawable (App.all_outputs l) ->
        exists l' w',
          App.dispatch tc l w = (Ret l', w')
          /\ App.generated_files l'
             = App.generated_files l ++ [dict_lookup (u8 "local_path") items]).
Proof.
  split.
  - intros calls l w l' w' H. now apply app_round_inv in H.
  - intros tc items l w Hn Hj Hd.
    assert (Hh : harmless tc)
      by (split; [now right | now exists items]).
    destruct (@app_harmless_dispatch _ _ tc l w Hh Hd)
      as (text & l' & w' & E & _).
    exists l', w'. split; [exact E|].
    apply app_dispatch_inv in E as (Hg & _). rewrite Hg. unfold recorded.
    rewrite Hn, Hj.
    change (str_eqb (u8 "copy_file_from_sandbox")
              (u8 "copy_file_from_sandbox")) with true.
    reflexivity.
Qed.

Lemma app_turn_inv l (w : World S) step w' :
  App.turn l w = (Ret step, w') ->
  match step with
  | Continue l' =>
    exists calls,
      App.generated_files l' = App.generated_files l ++ flat_map recorded calls
      /\ (in_sync l w -> in_sync l' w')
  | Break (r, l') =>
    exists m,
      chat_model (length (requests w)) (App.messages l) = Ret m
      /\ has_tool_calls m = false
      /\ App.generated_files l' = App.generated_files l
      /\ forallb is_str (App.generated_files l) = true
      /\ App.all_outputs l'
         = App.all_outputs l ++ narration m
             ++ match App.generated_files l with
                | [] => []
                | files => [OutFiles files]
                end
      /\ (App.generated_files l = [] -> r = content m)
      /\ (in_sync l w -> in_sync l' w')
  end.
Proof.
  unfold App.turn. intros H.
  apply bind_ret_inv in H as ([m l0] & w0 & Er & H). simpl in H.
  apply app_receive_page in Er as (Hm & Hg0 & Ho0 & Hs0).
  destruct (has_tool_calls m) eqn:Ec.
  - apply bind_ret_inv in H as (l2 & w2 & Ef & H). inversion H; subst; clear H.
    apply app_round_inv in Ef as (Hg & Hs). exists (calls_of m).
    rewrite Hg, Hg0. auto.
  - apply bind_ret_inv in H as ([r l2] & w2 & Ef & H).
    inversion H; subst; clear H.
    apply app_finish_inv in Ef as (Hg & Ho & Hr & Hstr & Hs).
    exists m. rewrite Hg, Ho, Hg0, Ho0, <- app_assoc in *. repeat split; auto.
Qed.

(** X7. In [app.py], once [generated_files] holds something that is not
    a string (a [copy_file_from_sandbox] call without [local_path]
    records [None]), no run can end normally any more: the list only
    grows, and the pass in which the model finally answers without
    tool calls raises [TypeError] while joining the paths. *)
Theorem unusable_path_ends_in_exception :
  (forall tc items l (w : World S) l' w',
     tc_name tc = u8 "copy_file_from_sandbox" ->
     json_loads (tc_arguments tc) = Ret (PyDict items) ->
     is_str (dict_lookup (u8 "local_path") items) = false ->
     App.dispatch tc l w = (Ret l', w') ->
     forallb is_str (App.generated_files l') = false)
  /\ (forall fuel l (w : World S) run,
        forallb is_str (App.generated_files l) = false ->
        while_true fuel App.turn l w = Some run ->
        exists e, ended run = Raise e).
Proof.
  split.
  - intros tc items l w l' w' Hn Hj Hs H.
    apply app_dispatch_inv in H as (Hg & _). rewrite Hg. unfold recorded.
    rewrite Hn, Hj.
    change (str_eqb (u8 "copy_file_from_sandbox")
              (u8 "copy_file_from_sandbox")) with true. cbv iota.
    rewrite forallb_app. simpl. rewrite Hs. simpl. apply andb_false_r.
  - induction fuel as [|fuel IH]; intros l w run Hs H; [discriminate|].
    simpl in H. destruct (App.turn l w) as [[step|e] w1] eqn:Et.
    + apply app_turn_inv in Et. destruct step as [l1|[r l1]].
      * destruct Et as (calls & Hg & _).
        destruct (while_true fuel App.turn l1 w1) as [run1|] eqn:E1;
          [|discriminate].
        inversion H; subst; clear H. simpl. eapply IH; [|exact E1].
        rewrite Hg, forallb_app, Hs. reflexivity.
      * destruct Et as (m & _ & _ & _ & Hstr & _). congruence.
    + inversion H; subst. simpl. eauto.
Qed.

(** X8. The [else] branch of [app.py] with files recorded, all of them
    strings.  When the last message has no text ([None]), adding the
    trailer raises [TypeError].  When it has a text, [final_result] is
    that text followed by the header line and one path per line, a
    files event with the same paths is appended to [all_outputs] and
    the page is redrawn with it; how the redraw ends is how the branch
    ends.  So the branch returns when the events emitted so far can be
    drawn and [st.image] opens every recorded path that names an
    image; and when [st.image] raises on the first such path it cannot
    open (a path is recorded even if its copy failed), the branch
    raises that exception and [final_result] is lost. *)
Theorem file_trailer (l : App.Locals) (w : World S) (paths : list str) :
  App.generated_files l = map PyStr paths -> paths <> [] ->
  let files := OutFiles (map PyStr paths) in
  let trailer := nl ++ nl ++ u8 "生成的文件:" ++ nl ++ join_strs nl paths in
  (forall text,
     App.finish l (Some text) w
     = match App.update_results (App.emit files l) w with
       | (Ret _, w') => (Ret (Some (text ++ trailer), App.emit files l), w')
       | (Raise e, w') => (Raise e, w')
       end)
  /\ (forall text,
        Forall (draws (machine w)) (App.all_outputs l) ->
        Forall (opens (machine w)) (map PyStr paths) ->
        App.finish l (Some text) w
        = (Ret (Some (text ++ trailer), App.emit files l),
           mkWorld (machine w) (requests w) (notices w)
             (App.all_outputs l ++ [files]) (logged w)))
  /\ (forall text pre name post e,
        Forall (draws (machine w)) (App.all_outputs l) ->
        paths = pre ++ name :: post ->
        Forall (opens (machine w)) (map PyStr pre) ->
        App.is_image name = true ->
        st_image name (machine w) = Raise e ->
        exists w', App.finish l (Some text) w = (Raise e, w'))
  /\ App.finish l None w = (Raise IaddTypeError, w).
Proof.
  intros Hg Hne files trailer.
  assert (Hj := str_join_strs nl paths). rewrite <- Hg in Hj.
  assert (Heq : forall text,
            App.finish l (Some text) w
            = match App.update_results (App.emit files l) w with
              | (Ret _, w') =>
                (Ret (Some (text ++ trailer), App.emit files l), w')
              | (Raise e, w') => (Raise e, w')
              end).
  { intros text. unfold App.finish.
    destruct (App.generated_files l) as [|f fs] eqn:Eg.
    { destruct paths; [congruence | discriminate]. }
    unfold bind at 1. unfold of_outcome at 1. rewrite Hj. cbv beta iota.
    unfold bind at 1. unfold of_outcome at 1, iadd. cbv beta iota.
    rewrite Hg. fold files. unfold bind, ret.
    destruct (App.update_results (App.emit files l) w) as [[[]|e] w'];
      reflexivity. }
  split; [exact Heq|]. split; [|split].
  - intros text Hd Ho. rewrite Heq, update_results_ret; [reflexivity|].
    simpl. apply Forall_app. split; [exact Hd|].
    constructor; [exact Ho | constructor].
  - intros text pre name post e Hd -> Ho Hi He. rewrite Heq.
    destruct (@update_results_raise _ _ (App.emit files l)
                (App.all_outputs l) files w e) as (w' & ->).
    + reflexivity.
    + exact Hd.
    + intros w1 Hw1. subst files. rewrite map_app. simpl map.
      apply draw_files_raise; rewrite ?Hw1; assumption.
    + now exists w'.
  - unfold App.finish.
    destruct (App.generated_files l) as [|f fs] eqn:Eg.
    { destruct paths; [congruence | discriminate]. }
    unfold bind at 1. unfold of_outcome at 1. rewrite Hj. cbv beta iota.
    reflexivity.
Qed.

(** X9. Whenever the loop of [app.py] ends normally, the page shows the
    whole of [all_outputs] (unless nothing was ever emitted), and
    [all_outputs] ends with the narration of the answer to the last
    request, an assistant message without tool calls, followed by the
    files event when files were recorded; with no files recorded
    [final_result] is the content of that message. *)
Theorem page_shows_final_answer :
  forall fuel input path (w : World S) run r l,
    App.agent_loop fuel input path w = Some run ->
    ended run = Ret (r, l) ->
    in_sync l (final run)
    /\ exists m earlier conv before,
         requests (final run) = before ++ [conv]
         /\ chat_model (length before) conv = Ret m
         /\ has_tool_calls m = false
         /\ App.all_outputs l
            = earlier ++ narration m
                ++ match App.generated_files l with
                   | [] => []
                   | files => [OutFiles files]
                   end
         /\ (App.generated_files l = [] -> r = content m).
Proof.
  intros fuel input path w run r l H Hend. unfold App.agent_loop in H.
  assert (Hloop : forall fuel l0 (w0 : World S) run,
            in_sync l0 w0 ->
            while_true fuel App.turn l0 w0 = Some run ->
            ended run = Ret (r, l) ->
            in_sync l (final run)
            /\ exists m earlier conv before,
                 requests (final run) = before ++ [conv]
                 /\ chat_model (length before) conv = Ret m
                 /\ has_tool_calls m = false
                 /\ App.all_outputs l
                    = earlier ++ narration m
                        ++ match App.generated_files l with
                           | [] => []
                           | files => [OutFiles files]
                           end
                 /\ (App.generated_files l = [] -> r = content m)).
  { clear. induction fuel as [|fuel IH]; intros l0 w0 run Hs H Hend;
      [discriminate|].
    simpl in H. pose proof (app_turn_requests l0 w0) as Hq.
    destruct (App.turn l0 w0) as [[step|e] w1] eqn:Et.
    - apply app_turn_inv in Et. destruct step as [l1|[r1 l1]].
      + destruct Et as (calls & _ & Hs1).
        destruct (while_true fuel App.turn l1 w1) as [run1|] eqn:E1;
          [|discriminate].
        inversion H; subst; clear H. simpl in *.
        exact (IH _ _ _ (Hs1 Hs) E1 Hend).
      + destruct Et as (m & Hm & Hc & Hg & _ & Ho & Hr & Hs1).
        inversion H; subst; clear H. simpl in *.
        inversion Hend; subst; clear Hend.
        split; [exact (Hs1 Hs)|].
        exists m, (App.all_outputs l0), (App.messages l0), (requests w0).
        rewrite Hg. auto.
    - inversion H; subst. discriminate. }
  destruct (App.prepare input path w) as [[l0|e] w1] eqn:Ep.
  - eapply Hloop; [|exact H | exact Hend].
    left. destruct path as [[|c p]|].
    + rewrite app_prepare_plain in Ep by auto. inversion Ep. reflexivity.
    + destruct (app_prepare_staged input c p w) as (t & w2 & _ & E).
      pose proof (eq_trans (eq_sym E) Ep) as E'.
      destruct (preview _ _ _); inversion E'; reflexivity.
    + rewrite app_prepare_plain in Ep by auto. inversion Ep. reflexivity.
  - inversion H; subst. discriminate.
Qed.

End PageFacts.

(* ================================================================= *)
(** ** Further properties: what the tools hand back *)

Section ResultFacts.
Context {S : Type} {srv : Services S}.

(** X10. A session that cannot be torn down spoils an operation that
    went through: when the copy itself succeeded but leaving the
    session raises, the copy tools report a failure with the text of
    that exception; when [session.run] returned its text but leaving
    the session raises, [run_code] raises and the text is lost. *)
Theorem teardown_failure_masks_success (w : World S) (e : exn)
  (s1 s2 s3 : S) :
  session_exit s2 = (Raise e, s3) ->
  (forall a b,
     session_enter (mkSessionArgs (PyStr (u8 "python")) None (Some true))
       (machine w) = (Ret tt, s1) ->
     (copy_to_runtime a b s1 = (Ret tt, s2) ->
      fst (copy_file_to_sandbox a b w)
      = Ret (u8 "复制文件失败: " ++ exn_text e))
     /\ (copy_from_runtime a b s1 = (Ret tt, s2) ->
         fst (copy_file_from_sandbox a b w)
         = Ret (u8 "复制文件失败: " ++ exn_text e)))
  /\ (forall lang code libraries text,
        session_run code libraries s1 = (Ret text, s2) ->
        (session_enter (mkSessionArgs lang (Some false) None) (machine w)
         = (Ret tt, s1) ->
         fst (Cli.run_code lang code libraries w) = Raise e)
        /\ (session_enter (mkSessionArgs lang (Some false) (Some true))
              (machine w) = (Ret tt, s1) ->
            fst (App.run_code lang code libraries w) = Raise e)).
Proof.
  intros Hx. split.
  - intros a b He. split; intros Hc.
    + unfold copy_file_to_sandbox, try_except, bind, with_session, on_machine.
      rewrite He. cbv beta iota. simpl machine. rewrite Hc. cbv beta iota.
      simpl machine. rewrite Hx. reflexivity.
    + unfold copy_file_from_sandbox, try_except, bind, with_session,
        on_machine.
      rewrite He. cbv beta iota. simpl machine. rewrite Hc. cbv beta iota.
      simpl machine. rewrite Hx. reflexivity.
  - intros lang code libraries text Hr. split; intros He.
    + unfold Cli.run_code, with_session, bind, on_machine, ret.
      rewrite He. cbv beta iota. simpl machine. rewrite Hr. cbv beta iota.
      simpl machine. rewrite Hx. reflexivity.
    + unfold App.run_code, with_session, bind, on_machine, ret.
      rewrite He. cbv beta iota. simpl machine. rewrite Hr. cbv beta iota.
      simpl machine. rewrite Hx. reflexivity.
Qed.

Lemma ret_pair_inj {A} (a b : A) (w w' : World S) :
  (Ret a, w) = (Ret b, w') -> a = b.
Proof. intros H. inversion H. reflexivity. Qed.

Lemma blank_app_l (a b : str) : blank a = false -> blank (a ++ b) = false.
Proof. unfold blank. intros H. now rewrite forallb_app, H. Qed.

Lemma or_advisory_filled (text : str) : blank (or_advisory text) = false.
Proof.
  rewrite or_advisory_spec. unfold blank.
  destruct (forallb isspace text) eqn:E; [|exact E].
  vm_compute. reflexivity.
Qed.

Lemma run_session_filled args code libraries (w : World S) r w' :
  with_session args
    (result <- on_machine (session_run code libraries) ;;
     ret (or_advisory result)) w = (Ret r, w') ->
  blank r = false.
Proof.
  unfold with_session, bind, on_machine, ret.
  destruct (session_enter args (machine w)) as [[u|e] s1]; [|discriminate].
  simpl machine.
  destruct (session_run code libraries s1) as [[text|e] s2]; simpl machine;
    destruct (session_exit s2) as [[u'|e'] s3]; intros H;
    inversion H; subst. apply or_advisory_filled.
Qed.

Lemma copy_file_to_sandbox_filled a b (w : World S) r w' :
  copy_file_to_sandbox a b w = (Ret r, w') -> blank r = false.
Proof.
  destruct (copy_file_to_sandbox_cases a b w)
    as [(w1 & _ & E)|(e & w1 & _ & E)]; rewrite E; intros H;
    apply ret_pair_inj in H; subst r; apply blank_app_l; vm_compute;
    reflexivity.
Qed.

Lemma copy_file_from_sandbox_filled a b (w : World S) r w' :
  copy_file_from_sandbox a b w = (Ret r, w') -> blank r = false.
Proof.
  destruct (copy_file_from_sandbox_cases a b w)
    as [(w1 & _ & E)|(e & w1 & _ & E)]; rewrite E; intros H;
    apply ret_pair_inj in H; subst r; apply blank_app_l; vm_compute;
    reflexivity.
Qed.

(** The text of a dispatch that returns is filled, provided the text
    [result] may still hold from before is. *)
Lemma cli_dispatch_filled tc l (w : World S) l' w' :
  (forall r0, Cli.result l = Some r0 -> blank r0 = false) ->
  Cli.dispatch tc l w = (Ret l', w') ->
  exists r,
    l' = Cli.mkLocals (Cli.messages l ++ [tool_message tc r]) (Some r)
           (Cli.generated_files l)
    /\ blank r = false.
Proof.
  intros Hprev H. unfold Cli.dispatch in H. cbv zeta in H.
  apply bind_ret_inv in H as (args & w1 & _ & H).
  apply bind_ret_inv in H as (bound & w2 & E & H).
  destruct bound as [r|]; [|discriminate].
  inversion H; subst; clear H. exists r. split; [reflexivity|].
  destruct (str_eqb _ _);
    [|destruct (str_eqb _ _); [|destruct (str_eqb _ _)]].
  - invert_steps. eapply run_session_filled. eassumption.
  - invert_steps. eapply copy_file_to_sandbox_filled. eassumption.
  - invert_steps. eapply copy_file_from_sandbox_filled. eassumption.
  - invert_steps. auto.
Qed.

Lemma app_dispatch_filled tc l (w : World S) l' w' :
  (forall r0, App.result l = Some r0 -> blank r0 = false) ->
  App.dispatch tc l w = (Ret l', w') ->
  exists r,
    App.messages l' = App.messages l ++ [tool_message tc r]
    /\ App.result l' = Some r /\ blank r = false.
Proof.
  intros Hprev H. pose proof (app_dispatch_ret _ _ _ H) as (r & Hm & Hr).
  exists r. split; [exact Hm|]. split; [exact Hr|].
  unfold App.dispatch in H. cbv zeta in H.
  apply bind_ret_inv in H as (args & w1 & _ & H).
  apply bind_ret_inv in H as (l1 & w2 & E & H).
  assert (Hl1 : forall r1, App.result l1 = Some r1 -> blank r1 = false).
  { destruct (str_eqb _ _);
      [|destruct (str_eqb _ _); [|destruct (str_eqb _ _)]];
      invert_steps; simpl; intros r1 Hres; inversion Hres; subst.
    - eapply run_session_filled. eassumption.
    - eapply copy_file_to_sandbox_filled. eassumption.
    - eapply copy_file_from_sandbox_filled. eassumption.
    - apply Hprev. assumption. }
  destruct (App.result l1) as [r1|] eqn:Er; [|discriminate].
  invert_steps. simpl in Hr. inversion Hr; subst. now apply Hl1.
Qed.

Lemma filled_snoc conv m :
  tool_texts_filled conv ->
  (forall text, tool_text m = Some text -> blank text = false) ->
  tool_texts_filled (conv ++ [m]).
Proof.
  intros Hc Hm m' text Hin Ht. apply in_app_or in Hin as [Hin|[<-|[]]].
  - exact (Hc _ _ Hin Ht).
  - exact (Hm _ Ht).
Qed.

Section Filled.
Variables (L R : Type) (turn : L -> Prog S (LoopStep L R)).
Variable msgs : L -> list Message.
Variable J : L -> Prop.
Variable P : list Message -> Prop.
Hypothesis turn_requests :
  forall l w, requests (snd (turn l w)) = requests w ++ [msgs l].
Hypothesis J_gives_P : forall l, J l -> P (msgs l).
Hypothesis J_kept :
  forall l w l' w', J l -> turn l w = (Ret (Continue l'), w') -> J l'.

Lemma while_forall : forall fuel l w run,
  J l -> while_true fuel turn l w = Some run ->
  exists rest,
    requests (final run) = requests w ++ rest /\ Forall P rest.
Proof.
  induction fuel as [|fuel IH]; intros l w run HJ H; [discriminate|].
  simpl in H. pose proof (turn_requests l w) as Hreq.
  destruct (turn l w) as [[[l1|r]|e] w1] eqn:Et; simpl in Hreq.
  - destruct (while_true fuel turn l1 w1) as [run1|] eqn:E; [|discriminate].
    inversion H; subst; clear H. simpl.
    destruct (IH _ _ _ (J_kept HJ Et) E) as (rest & Hf & HP).
    exists (msgs l :: rest). rewrite Hf, Hreq, <- app_assoc.
    split; [reflexivity|]. constructor; auto.
  - inversion H; subst; clear H. simpl. exists [msgs l]. split; auto.
  - inversion H; subst; clear H. simpl. exists [msgs l]. split; auto.
Qed.

End Filled.

(** X11. No Tool message ever sent to the model has an empty or blank
    text: in every run that ends, each conversation sent holds only
    Tool messages with a non-blank text, the ones answering unknown
    tools included.  In both files. *)
Theorem tool_results_are_never_blank :
  (forall fuel input path (w : World S) run,
     Cli.run_agent fuel input path w = Some run ->
     exists convs,
       requests (final run) = requests w ++ convs
       /\ Forall tool_texts_filled convs)
  /\ (forall fuel input path (w : World S) run,
        App.run_agent fuel input path w = Some run ->
        exists convs,
          requests (final run) = requests w ++ convs
          /\ Forall tool_texts_filled convs).
Proof.
  split; intros fuel input path w run H.
  - unfold Cli.run_agent in H.
    destruct (cli_prepare_eq input path w) as (w1 & E & Hq).
    rewrite E in H. rewrite <- Hq.
    eapply (while_forall Cli.turn Cli.messages
              (fun l => tool_texts_filled (Cli.messages l)
                        /\ forall r0, Cli.result l = Some r0 ->
                                      blank r0 = false)
              tool_texts_filled cli_turn_requests); [| | |exact H].
    + intros l [Hf _]. exact Hf.
    + intros l w0 l' w' [Hf Hr] Ht. unfold Cli.turn in Ht.
      apply bind_ret_inv in Ht as ([m l0] & w2 & Er & Ht). simpl in Ht.
      rewrite cli_receive_eq in Er.
      destruct (chat_model _ _) as [m'|e]; [|discriminate].
      inversion Er; subst; clear Er.
      destruct (has_tool_calls m).
      * apply bind_ret_inv in Ht as (l2 & w3 & Ef & Ht).
        inversion Ht; subst; clear Ht.
        assert (Hround : forall calls l1 (wa : World S) l2 wb,
                  (tool_texts_filled (Cli.messages l1)
                   /\ forall r0, Cli.result l1 = Some r0 ->
                                 blank r0 = false) ->
                  for_each Cli.dispatch calls l1 wa = (Ret l2, wb) ->
                  tool_texts_filled (Cli.messages l2)
                  /\ forall r0, Cli.result l2 = Some r0 ->
                                blank r0 = false).
        { clear. induction calls as [|tc calls IH];
            intros l1 wa l2 wb [Hf Hr] H; simpl in H.
          - inversion H; subst. auto.
          - apply bind_ret_inv in H as (l3 & wc & Ed & H).
            apply (cli_dispatch_filled _ _ _ Hr) in Ed as (r & -> & Hb).
            eapply IH; [|exact H]. simpl. split.
            + apply filled_snoc; [exact Hf|]. intros t Ht.
              inversion Ht; subst. exact Hb.
            + intros r0 H0. inversion H0; subst. exact Hb. }
        eapply Hround; [|exact Ef]. simpl. split; [|exact Hr].
        apply filled_snoc; [exact Hf|]. intros t Ht. discriminate.
      * apply bind_ret_inv in Ht as (x & w3 & _ & Ht). discriminate.
    + split; [|discriminate]. intros m t [<-|[]] Ht. discriminate.
  - rewrite app_run_agent_eq in H. unfold App.agent_loop in H.
    pose proof (app_prepare_quiet input path w) as Hq.
    destruct (App.prepare input path w) as [[l|e] w1] eqn:Ep; simpl in Hq.
    + destruct (while_true fuel App.turn l w1) as [run1|] eqn:E1;
        [|discriminate].
      inversion H; subst; clear H. simpl. rewrite <- Hq.
      eapply (while_forall App.turn App.messages
                (fun l => tool_texts_filled (App.messages l)
                          /\ forall r0, App.result l = Some r0 ->
                                        blank r0 = false)
                tool_texts_filled app_turn_requests); [| | |exact E1].
      * intros l0 [Hf _]. exact Hf.
      * intros l0 w0 l' w' [Hf Hr] Ht. unfold App.turn in Ht.
        apply bind_ret_inv in Ht as ([m l2] & w2 & Er & Ht). simpl in Ht.
        apply app_receive_inv in Er as (_ & -> & _).
        destruct (has_tool_calls m).
        -- apply bind_ret_inv in Ht as (l3 & w4 & Ef & Ht).
           inversion Ht; subst; clear Ht.
           assert (Hround : forall calls l1 (wa : World S) l2 wb,
                     (tool_texts_filled (App.messages l1)
                      /\ forall r0, App.result l1 = Some r0 ->
                                    blank r0 = false) ->
                     for_each App.dispatch calls l1 wa = (Ret l2, wb) ->
                     tool_texts_filled (App.messages l2)
                     /\ forall r0, App.result l2 = Some r0 ->
                                   blank r0 = false).
           { clear. induction calls as [|tc calls IH];
               intros l1 wa l2 wb [Hf Hr] H; simpl in H.
             - inversion H; subst. auto.
             - apply bind_ret_inv in H as (l3 & wc & Ed & H).
               apply (app_dispatch_filled _ _ _ Hr) in Ed
                 as (r & Hm & Hres & Hb).
               eapply IH; [|exact H]. rewrite Hm, Hres. split.
               + apply filled_snoc; [exact Hf|]. intros t Ht.
                 inversion Ht; subst. exact Hb.
               + intros r0 H0. inversion H0; subst. exact Hb. }
           eapply Hround; [|exact Ef]. simpl. split; [|exact Hr].
           apply filled_snoc; [exact Hf|]. intros t Ht. discriminate.
        -- apply bind_ret_inv in Ht as (x & w4 & _ & Ht). discriminate.
      * assert (Hl : App.result l = None
                     /\ map tool_text (App.messages l) = [None; None; None]).
        { destruct path as [[|c p]|].
          - rewrite app_prepare_plain in Ep by auto. inversion Ep. auto.
          - destruct (app_prepare_staged input c p w) as (t & w2 & _ & E).
            pose proof (eq_trans (eq_sym E) Ep) as E'.
            destruct (preview _ _ _); inversion E'; auto.
          - rewrite app_prepare_plain in Ep by auto. inversion Ep. auto. }
        destruct Hl as [Hr Hm]. split; [|intros r0 H0; congruence].
        intros m t Hin Ht. apply (in_map tool_text) in Hin.
        rewrite Hm, Ht in Hin. simpl in Hin.
        destruct Hin as [Hin|[Hin|[Hin|[]]]]; discriminate.
    + inversion H; subst; clear H. simpl. exists []. rewrite app_nil_r.
      split; [exact Hq | constructor].
Qed.

End ResultFacts.

(* ================================================================= *)
(** ** Further properties: no bound on the loop, and the page around it *)

Section BoundFacts.
Context {S : Type} {srv : Services S}.

(** X12. The loop has no bound of its own: against a model that answers
    every request with tool calls that cannot fail (copies with
    well-formed arguments), [run_agent] is still running after any
    number of passes.  In both files. *)
Theorem loop_has_no_bound :
  endless ->
  forall fuel input path (w : World S),
    Cli.run_agent fuel input path w = None
    /\ App.run_agent fuel input path w = None.
Proof.
  intros Hend fuel input path w. split.
  - unfold Cli.run_agent.
    destruct (cli_prepare_eq input path w) as (w1 & -> & _).
    generalize (Cli.mkLocals
                  [RoleContent "user"
                     (input ++
                      match path with
                      | Some (c :: p) =>
                        staged_note
                          (path_join (u8 "/sandbox") (basename (c :: p)))
                      | _ => []
                      end)] None []).
    revert w1. induction fuel as [|fuel IH]; intros w1 l; [reflexivity|].
    simpl. unfold Cli.turn at 1. unfold bind at 1. rewrite cli_receive_eq.
    destruct (Hend (length (requests w1)) (Cli.messages l))
      as (m & -> & Hc & Hh).
    cbv beta iota zeta. cbn [fst snd]. rewrite Hc. cbv iota.
    unfold bind at 1.
    match goal with |- context [for_each Cli.dispatch ?c ?l0 ?w0] =>
      destruct (cli_harmless_round Hh l0 w0) as (l2 & w2 & E) end.
    rewrite E. unfold ret. now rewrite IH.
  - rewrite app_run_agent_eq. unfold App.agent_loop.
    destruct (app_prepare_returns input path w) as (l & w1 & Ep).
    rewrite Ep.
    assert (Hloop : forall fuel l (w1 : World S),
              drawable (App.all_outputs l) ->
              while_true fuel App.turn l w1 = None).
    { clear - Hend. induction fuel as [|fuel IH]; intros l w1 Hd;
        [reflexivity|].
      rewrite while_true_eq.
      destruct (Hend (length (requests w1)) (App.messages l))
        as (m & Hm & Hc & Hh).
      destruct (app_receive_ret l w1 Hm (Hd (machine w1))) as (w0 & Hr).
      match type of Hr with _ = (Ret (m, ?l0), _) =>
        destruct (app_harmless_round Hh l0 w0) as (l3 & w3 & Ef & Hd3) end.
      { simpl. intros s. apply Forall_app. split; [apply Hd|].
        unfold narration. destruct (content m) as [[|c t]|];
          repeat constructor. }
      rewrite (app_turn_goes_on _ _ Hr Hc Ef). now rewrite IH. }
    rewrite Hloop; [reflexivity|].
    rewrite (app_prepare_drawable _ _ _ Ep). apply drawable_nil.
Qed.

Lemma join_sandbox_dirs (name : str) :
  no_sep name = true ->
  path_join (u8 "/sandbox") name = u8 "/sandbox/" ++ name
  /\ path_join (u8 "/sandbox/") name = u8 "/sandbox/" ++ name.
Proof.
  intros H. assert (Hs : startswith_sep name = false).
  { destruct name as [|c r]; [reflexivity|]. unfold no_sep in H.
    simpl in *. apply andb_true_iff in H as [Hc _].
    now destruct (c =? 47)%N. }
  unfold path_join. rewrite Hs. split; reflexivity.
Qed.

Lemma app_prepare_announces (input : str) (c : codepoint) (p : str)
  (w : World S) :
  exists l w' after,
    App.prepare input (Some (c :: p : str)) w = (Ret l, w')
    /\ App.messages l
       = [RoleContent "system"
            (App.SYSTEM_PROMPT
               ++ staged_note (u8 "/sandbox/" ++ basename (c :: p))
               ++ after);
          RoleContent "user" input;
          RoleContent "assistant" App.ACKNOWLEDGEMENT].
Proof.
  destruct (join_sandbox_dirs (basename (c :: p)) (basename_no_sep (c :: p)))
    as [_ Hj2].
  destruct (app_prepare_staged input c p w) as (t & w1 & _ & E).
  pose proof (eq_trans (eq_sym E) eq_refl) as E'. clear E.
  rewrite Hj2 in E'.
  destruct (preview (c :: p) (basename (c :: p)) (machine w1)) as [info|e].
  - eexists _, _, info. split; [symmetry; exact E'|]. reflexivity.
  - eexists _, _, []. split; [symmetry; exact E'|].
    rewrite app_nil_r. reflexivity.
Qed.

(** X13. Both files tell the model the same place for a given file: the
    fixed directory [/sandbox/] followed by the base name of the local
    path, which holds no separator, so no directory of the local path
    is handed on.  [excel_process.py] says so at the end of the user
    message, [app.py] in the first message (the system prompt), before
    the preview if there is one. *)
Theorem announced_sandbox_path (input : str) (c : codepoint) (p : str)
  (w : World S) :
  let name := basename (c :: p) in
  no_sep name = true
  /\ (exists w',
        Cli.prepare input (Some (c :: p)) w
        = (Ret (Cli.mkLocals
                  [RoleContent "user"
                     (input ++ staged_note (u8 "/sandbox/" ++ name))]
                  None []), w'))
  /\ (exists l w' after,
        App.prepare input (Some (c :: p : str)) w = (Ret l, w')
        /\ App.messages l
           = [RoleContent "system"
                (App.SYSTEM_PROMPT ++ staged_note (u8 "/sandbox/" ++ name)
                   ++ after);
              RoleContent "user" input;
              RoleContent "assistant" App.ACKNOWLEDGEMENT]).
Proof.
  intros name. pose proof (basename_no_sep (c :: p)) as Hn. fold name in Hn.
  destruct (join_sandbox_dirs name Hn) as [Hj1 _].
  split; [exact Hn|]. split.
  - destruct (cli_prepare_eq input (Some (c :: p)) w) as (w' & E & _).
    exists w'. fold name in E. rewrite Hj1 in E. exact E.
  - exact (app_prepare_announces input c p w).
Qed.

End BoundFacts.

Section MainFacts.
Context {S : Type} {srv : Services S} {up : Uploads S}.

Lemma quiet_sidebar uploaded_file : quiet (App.sidebar uploaded_file).
Proof. unfold App.sidebar. repeat quiet_step. Qed.

(** X14. The page of [app.py] sends nothing to the model unless the
    button is pressed with a request typed in: without a press, or with
    an empty request, [main] ends at once with no model call, whatever
    was uploaded; a press with an empty request shows the warning
    asking for one as the last banner. *)
Theorem nothing_sent_without_a_request (fuel : nat)
  (uploaded_file : option (list Byte.byte)) (user_request : str)
  (clicked : bool) (w : World S) :
  clicked = false \/ user_request = [] ->
  exists drawn ended w',
    App.main fuel uploaded_file user_request clicked w
    = Some (drawn, ended, w')
    /\ requests w' = requests w
    /\ (clicked = true -> ended = Ret tt ->
        exists shown,
          notices w' = shown ++ [Warning (u8 "请输入您的分析需求")]).
Proof.
  intros H. unfold App.main.
  pose proof (quiet_sidebar uploaded_file w) as Hq.
  destruct (App.sidebar uploaded_file w) as [[[tmp drawn]|e] w1];
    simpl in Hq.
  - destruct clicked.
    + destruct H as [H|H]; [discriminate|]. subst user_request. simpl.
      eexists _, _, _. split; [reflexivity|]. split; [exact Hq|].
      intros _ _. eexists. reflexivity.
    + eexists _, _, _. split; [reflexivity|]. split; [exact Hq|].
      discriminate.
  - eexists _, _, _. split; [reflexivity|]. split; [exact Hq|].
    intros _ He. discriminate.
Qed.

(** X15. With a file uploaded and the button pressed on a request, [main]
    runs the agent on the temporary copy, whether or not the sidebar
    could preview it: a preview that raises only draws an error banner.
    So the place the model is told is [/sandbox/] followed by the base
    name of the temporary file, not the name the user's file had. *)
Theorem upload_runs_on_temporary_copy (fuel : nat) (data : list Byte.byte)
  (c0 : codepoint) (request : str) (w : World S) (c : codepoint) (p : str)
  (s1 : S) :
  named_temporary_file data (machine w) = (Ret (c :: p), s1) ->
  exists drawn w1,
    machine w1 = s1 /\ requests w1 = requests w
    /\ match read_excel (c :: p) s1 with
       | Ret df => drawn = [App.DataframeHead df 10]
       | Raise e =>
         drawn = [App.ErrorBanner (u8 "无法预览文件: " ++ exn_text e)]
       end
    /\ App.main fuel (Some data) (c0 :: request) true w
       = match
           App.run_agent fuel (c0 :: request) (Some (c :: p : str)) w1
         with
         | Some run => Some (drawn, ended run, final run)
         | None => None
         end
    /\ forall run,
         App.run_agent fuel (c0 :: request) (Some (c :: p : str)) w1
         = Some run ->
         exists tail rest,
           requests (final run)
           = requests w
               ++ (RoleContent "system"
                     (App.SYSTEM_PROMPT
                        ++ staged_note (u8 "/sandbox/" ++ basename (c :: p))
                        ++ tail)
                   :: RoleContent "user" (c0 :: request)
                   :: RoleContent "assistant" App.ACKNOWLEDGEMENT :: nil)
               :: rest.
Proof.
  intros Ht.
  assert (Hside : exists drawn w1,
            App.sidebar (Some data) w
            = (Ret (Some (c :: p : str), drawn), w1)
            /\ machine w1 = s1 /\ requests w1 = requests w
            /\ match read_excel (c :: p) s1 with
               | Ret df => drawn = [App.DataframeHead df 10]
               | Raise e =>
                 drawn = [App.ErrorBanner (u8 "无法预览文件: " ++ exn_text e)]
               end).
  { unfold App.sidebar, bind, on_machine, try_except, consult, App.st_info,
      ret. rewrite Ht. cbv beta iota. simpl machine.
    destruct (read_excel (c :: p) s1) as [df|e]; cbv beta iota;
      eexists _, _; split; try reflexivity; auto. }
  destruct Hside as (drawn & w1 & Es & Hm & Hr & Hd).
  exists drawn, w1. split; [exact Hm|]. split; [exact Hr|].
  split; [exact Hd|]. split.
  - unfold App.main. rewrite Es. reflexivity.
  - intros run Hrun. rewrite app_run_agent_eq in Hrun.
    unfold App.agent_loop in Hrun.
    destruct (app_prepare_announces (c0 :: request) c p w1)
      as (l & w2 & tail & Ep & Hmsgs).
    pose proof (app_prepare_quiet (c0 :: request) (Some (c :: p : str)) w1)
      as Hq.
    rewrite Ep in Hrun, Hq. simpl in Hq.
    destruct (while_true fuel App.turn l w2) as [run1|] eqn:E1;
      [|discriminate].
    inversion Hrun; subst run; clear Hrun. simpl.
    destruct (while_chained App.turn App.messages app_turn_requests)
      with (fuel := fuel) (l := l) (w := w2) (run := run1)
      as (rest & Hf & _).
    + intros l0 w0 l' w' Hturn. now apply app_turn_continue in Hturn.
    + exact E1.
    + exists tail, rest. rewrite Hf, Hq, Hr, Hmsgs. reflexivity.
Qed.

End MainFacts.

(* ================================================================= *)
(** ** Sessions for the further properties *)

Lemma one_model_call_per_pass_witness :
  exists run,
    Cli.run_agent (srv := Stub.services Stub.failing_run) 3 (u8 "hi") None
      Stub.w0 = Some run
    /\ rounds run = 0
    /\ length (requests (final run)) = length (requests Stub.w0) + 0 + 1.
Proof.
  destruct (@one_model_call_per_pass nat (Stub.services Stub.failing_run))
    as [H _].
  eexists. split; [vm_compute; reflexivity|]. split; [reflexivity|].
  apply (H 3 (u8 "hi") None Stub.w0). vm_compute. reflexivity.
Defined.

Lemma model_failure_aborts_witness :
  exists w',
    while_true 1 (Cli.turn (srv := Stub.services Stub.model_down))
      (Cli.mkLocals [RoleContent "user" (u8 "hi")] None []) Stub.w0
    = Some (mkRun 0 (Raise Stub.APIError) w')
    /\ machine w' = 0.
Proof.
  destruct (@model_failure_aborts nat (Stub.services Stub.model_down))
    as [H _].
  destruct (H 0 (Cli.mkLocals [RoleContent "user" (u8 "hi")] None []) Stub.w0
              Stub.APIError eq_refl) as (w' & E & Hm & _).
  exists w'. split; [exact E | exact Hm].
Defined.

Lemma malformed_arguments_abort_witness :
  let tc := Stub.call "c1" "run_code" "{oops" in
  Cli.dispatch (srv := Stub.services Stub.one_run_then_done) tc
    (Cli.mkLocals [] None []) Stub.w0
  = (Raise Stub.JSONDecodeError, Stub.w0).
Proof.
  intros tc.
  destruct (@malformed_arguments_abort nat
              (Stub.services Stub.one_run_then_done)) as [H _].
  assert (Hj : json_loads (Services := Stub.services Stub.one_run_then_done)
                 (tc_arguments tc) = Raise Stub.JSONDecodeError)
    by (vm_compute; reflexivity).
  destruct (H tc Stub.w0 _ Hj) as [Hc _]. apply Hc.
Defined.


Lemma tracked_follows_protocol b :
  follows_protocol (srv := Stub.tracked b) (fun s => s = false)
    (fun s => s = true).
Proof.
  unfold follows_protocol. simpl. repeat apply conj; auto.
  intros args s _. destruct (Stub.on_enter b); reflexivity.
Defined.

Lemma sessions_are_closed_witness :
  exists run,
    Cli.run_agent (srv := Stub.tracked Stub.failing_run) 3 (u8 "hi") None
      (mkWorld false [] [] [] []) = Some run
    /\ ended run = Raise Stub.SandboxError
    /\ machine (final run) = false.
Proof.
  destruct (@sessions_are_closed bool (Stub.tracked Stub.failing_run)
              (fun s => s = false) (fun s => s = true)
              (tracked_follows_protocol Stub.failing_run))
    as (_ & _ & _ & _ & _ & H & _).
  eexists. split; [vm_compute; reflexivity|]. split; [reflexivity|].
  apply (H 3 (u8 "hi") None (mkWorld false [] [] [] [])); [reflexivity|].
  vm_compute. reflexivity.
Defined.

Lemma fetched_paths_are_recorded_witness :
  let tc := Stub.call "c1" "copy_file_from_sandbox" "{fetch}" in
  exists l' w' text,
    App.dispatch (srv := Stub.services Stub.failing_fetch) tc
      (App.mkLocals [] None [] [] 1) Stub.w0 = (Ret l', w')
    /\ App.generated_files l' = [PyStr (u8 "out.png")]
    /\ App.result l' = Some text
    /\ text = u8 "复制文件失败: container failed".
Proof.
  intros tc.
  destruct (@fetched_paths_are_recorded nat
              (Stub.services Stub.failing_fetch)) as [_ H].
  assert (Hj : json_loads (Services := Stub.services Stub.failing_fetch)
                 (tc_arguments tc) = Ret Stub.fetch_args)
    by (vm_compute; reflexivity).
  assert (Hn : tc_name tc = u8 "copy_file_from_sandbox")
    by (vm_compute; reflexivity).
  destruct (H tc _ (App.mkLocals [] None [] [] 1) Stub.w0 Hn Hj
              (fun s => Forall_nil _))
    as (l' & w' & E & Hg).
  exists l', w'. eexists. split; [exact E|].
  vm_compute in E. injection E as <- _. vm_compute. repeat split.
Defined.

Lemma unusable_path_ends_in_exception_witness :
  exists run e,
    while_true 3 (App.turn (srv := Stub.services Stub.fetch_nowhere))
      (App.mkLocals [RoleContent "user" (u8 "hi")] None [PyNone] [] 1)
      Stub.w0 = Some run
    /\ ended run = Raise e /\ exn_class e = "TypeError"%string.
Proof.
  destruct (@unusable_path_ends_in_exception nat
              (Stub.services Stub.fetch_nowhere)) as [_ H].
  eexists. 
  edestruct (H 3 (App.mkLocals [RoleContent "user" (u8 "hi")] None [PyNone]
                    [] 1) Stub.w0) as (e & He).
  { reflexivity. }
  { vm_compute. reflexivity. }
  exists e. split; [vm_compute; reflexivity|]. split; [exact He|].
  vm_compute in He. injection He as <-. reflexivity.
Defined.

Lemma file_trailer_witness :
  let l :=
    App.mkLocals [] None [PyStr (u8 "a.png"); PyStr (u8 "b.csv")] [] 1 in
  App.finish (srv := Stub.services Stub.fetch_then_done) l
    (Some (u8 "done")) Stub.w0
  = (Ret (Some (u8 "done" ++ nl ++ nl ++ u8 "生成的文件:" ++ nl
                  ++ u8 "a.png" ++ nl ++ u8 "b.csv"),
          App.mkLocals [] None [PyStr (u8 "a.png"); PyStr (u8 "b.csv")]
            [OutFiles [PyStr (u8 "a.png"); PyStr (u8 "b.csv")]] 1),
     mkWorld 0 [] []
       [OutFiles [PyStr (u8 "a.png"); PyStr (u8 "b.csv")]] [])
  /\ exists w',
       App.finish (srv := Stub.services Stub.missing_file) l
         (Some (u8 "done")) Stub.w0 = (Raise Stub.ImageError, w').
Proof.
  intros l. split.
  - destruct (@file_trailer nat (Stub.services Stub.fetch_then_done) l
                Stub.w0 [u8 "a.png"; u8 "b.csv"] eq_refl)
      as (_ & H & _).
    { discriminate. }
    rewrite (H (u8 "done")).
    + vm_compute. reflexivity.
    + constructor.
    + repeat constructor.
  - destruct (@file_trailer nat (Stub.services Stub.missing_file) l
                Stub.w0 [u8 "a.png"; u8 "b.csv"] eq_refl)
      as (_ & _ & H & _).
    { discriminate. }
    apply (H (u8 "done") [] (u8 "a.png") [u8 "b.csv"] Stub.ImageError).
    + constructor.
    + reflexivity.
    + constructor.
    + vm_compute. reflexivity.
    + reflexivity.
Defined.

Lemma page_shows_final_answer_witness :
  exists run r l,
    App.agent_loop (srv := Stub.services Stub.fetch_then_done) 2 (u8 "hi")
      None Stub.w0 = Some run
    /\ ended run = Ret (r, l)
    /\ rendered (final run) = App.all_outputs l
    /\ last (App.all_outputs l) (OutAi [])
       = OutFiles [PyStr (u8 "out.png")].
Proof.
  eexists. eexists. eexists. split; [vm_compute; reflexivity|].
  split; [reflexivity|].
  edestruct (@page_shows_final_answer nat
               (Stub.services Stub.fetch_then_done) 2 (u8 "hi") None Stub.w0)
    as ([Hs|Hs] & _).
  { vm_compute. reflexivity. }
  { reflexivity. }
  - vm_compute in Hs. discriminate.
  - split; [exact Hs|]. vm_compute. reflexivity.
Defined.

Lemma teardown_failure_masks_success_witness :
  fst (copy_file_to_sandbox (srv := Stub.services Stub.stuck_teardown)
         (PyStr (u8 "a.xlsx")) (PyStr (u8 "/sandbox")) Stub.w0)
  = Ret (u8 "复制文件失败: container failed")
  /\ fst (Cli.run_code (srv := Stub.services Stub.stuck_teardown) PyNone
            PyNone PyNone Stub.w0) = Raise Stub.SandboxError.
Proof.
  destruct (@teardown_failure_masks_success nat
              (Stub.services Stub.stuck_teardown) Stub.w0 Stub.SandboxError
              1 2 3 eq_refl) as [Hc Hr].
  split.
  - destruct (Hc (PyStr (u8 "a.xlsx")) (PyStr (u8 "/sandbox")) eq_refl)
      as [H _].
    pose proof (H eq_refl) as H1. vm_compute in H1. vm_compute. exact H1.
  - destruct (Hr PyNone PyNone PyNone (u8 "42") eq_refl) as [H _].
    exact (H eq_refl).
Defined.

Lemma tool_results_are_never_blank_witness :
  exists run convs,
    Cli.run_agent (srv := Stub.services Stub.stale_result) 3 (u8 "hi") None
      Stub.w0 = Some run
    /\ requests (final run) = requests Stub.w0 ++ convs
    /\ Forall tool_texts_filled convs.
Proof.
  destruct (@tool_results_are_never_blank nat
              (Stub.services Stub.stale_result)) as [H _].
  eexists.
  edestruct (H 3 (u8 "hi") None Stub.w0) as (convs & Hr & Hf).
  { vm_compute. reflexivity. }
  exists convs. split; [vm_compute; reflexivity|]. split; assumption.
Defined.

Lemma insatiable_is_endless : endless (srv := Stub.insatiable).
Proof.
  intros k conv. eexists. split; [reflexivity|]. split; [reflexivity|].
  constructor; [|constructor]. split; [right; reflexivity|].
  eexists. vm_compute. reflexivity.
Defined.

Lemma loop_has_no_bound_witness :
  Cli.run_agent (srv := Stub.insatiable) 1000 (u8 "hi") None Stub.w0 = None
  /\ App.run_agent (srv := Stub.insatiable) 1000 (u8 "hi") None Stub.w0
     = None.
Proof.
  exact (@loop_has_no_bound nat Stub.insatiable insatiable_is_endless 1000
           (u8 "hi") None Stub.w0).
Defined.

Lemma nothing_sent_without_a_request_witness :
  exists drawn w',
    App.main (srv := Stub.services Stub.one_run_then_done)
      (up := Stub.uploads) 5 (Some []) [] true Stub.w0
    = Some (drawn, Ret tt, w')
    /\ requests w' = []
    /\ exists shown,
         notices w' = shown ++ [Warning (u8 "请输入您的分析需求")].
Proof.
  destruct (@nothing_sent_without_a_request nat
              (Stub.services Stub.one_run_then_done) Stub.uploads 5 (Some [])
              [] true Stub.w0 (or_intror eq_refl))
    as (drawn & ended & w' & E & Hr & Hn).
  assert (He : ended = Ret tt).
  { vm_compute in E. injection E as _ <- _. reflexivity. }
  subst ended. exists drawn, w'. split; [exact E|]. split; [exact Hr|].
  exact (Hn eq_refl eq_refl).
Defined.

Lemma upload_runs_on_temporary_copy_witness :
  exists drawn w1 run tail rest,
    drawn = [App.DataframeHead Stub.sheet 10]
    /\ App.main (srv := Stub.services Stub.one_run_then_done)
         (up := Stub.uploads) 3 (Some []) (u8 "sum column A") true Stub.w0
       = Some (drawn, ended run, final run)
    /\ App.run_agent (srv := Stub.services Stub.one_run_then_done) 3
         (u8 "sum column A") (Some (u8 "/tmp/tmpab12.xlsx")) w1 = Some run
    /\ requests (final run)
       = [RoleContent "system"
            (App.SYSTEM_PROMPT ++ staged_note (u8 "/sandbox/tmpab12.xlsx")
               ++ tail);
          RoleContent "user" (u8 "sum column A");
          RoleContent "assistant" App.ACKNOWLEDGEMENT] :: rest.
Proof.
  assert (Ht : named_temporary_file (Uploads := Stub.uploads) []
                 (machine Stub.w0)
               = (Ret (47%N :: u8 "tmp/tmpab12.xlsx"), 1))
    by (vm_compute; reflexivity).
  destruct (@upload_runs_on_temporary_copy nat
              (Stub.services Stub.one_run_then_done) Stub.uploads 3 []
              115%N (u8 "um column A") Stub.w0 47%N (u8 "tmp/tmpab12.xlsx") 1
              Ht) as (drawn & w1 & _ & _ & Hd & Hmain & Hreq).
  change (drawn = [App.DataframeHead Stub.sheet 10]) in Hd.
  match type of Hmain with
  | _ = match ?x with _ => _ end => destruct x as [run|] eqn:Erun
  end.
  - destruct (Hreq run eq_refl) as (tail & rest & Hq).
    exists drawn, w1, run, tail, rest.
    split; [exact Hd|]. split; [exact Hmain|]. split; [exact Erun|].
    exact Hq.
  - exfalso. vm_compute in Hmain. discriminate.
Defined.
